(** * Smart-home voice assistant: segmenter, arbiter, broker and device state

    A shallow embedding of the interaction pipeline of the repository
    (audio_interface.py, local_mqtt_broker.py, mqtt_client.py,
    device_state.py, conversation_manager.py, voice_assistant.py) together
    with the properties that its specification states about it.

    Conventions.
    - A Python [bytes] value is a [list byte]; a Python [str] is a [string]
      holding its UTF-8 encoding.
    - A reading of [time.time()] is a rational number of seconds; the
      rounding of floating point arithmetic is outside the model.
    - Whatever a function obtains from outside the program (the microphone,
      the clock, the language model, the file system) is an explicit input
      of its embedding. *)

From Stdlib Require Import ZArith QArith List String Ascii Bool Lia Lqa.
From Stdlib.Strings Require Import Byte.
From Stdlib Require Import Sorted.
From stdpp Require Import gmap strings list fin_maps.
Import ListNotations.

Local Open Scope Z_scope.
Set Warnings "-register-all".
Set Warnings "-clear-no-such-hyp".

(** ** Rational helpers *)

Definition Qltb (x y : Q) : bool := negb (Qle_bool y x).

(** * audio_interface.py *)

Module AudioInterface.

(** ** Frame energy ([_calculate_energy]) *)

Definition byte_Z (b : byte) : Z := Z.of_N (Byte.to_N b).

(** The value of a 16-bit pattern [u] (0 <= u < 2^16) read as [np.int16]. *)
Definition to_int16 (u : Z) : Z := if u <? 32768 then u else u - 65536.

(** Arithmetic on [np.int16] arrays keeps the low 16 bits of the result. *)
Definition wrap16 (z : Z) : Z := to_int16 (z mod 65536).

(** [np.frombuffer(data, dtype=np.int16)]: little-endian samples; [None]
    stands for the [ValueError] numpy raises when the buffer size is not a
    multiple of the element size. *)
Fixpoint frombuffer (data : list byte) : option (list Z) :=
  match data with
  | [] => Some []
  | [_] => None
  | lo :: hi :: rest =>
      match frombuffer rest with
      | Some samples => Some (to_int16 (byte_Z lo + 256 * byte_Z hi) :: samples)
      | None => None
      end
  end.

(** [audio_data**2] on an int16 array: each square is reduced to int16. *)
Definition square_int16 (audio_data : list Z) : list Z :=
  map (fun s => wrap16 (s * s)) audio_data.

Definition sumZ (l : list Z) : Z := fold_right Z.add 0 l.

(** [np.mean] of a non-empty integer array: the exact sum over the length
    (numpy accumulates integers in float64, which is exact at these sizes). *)
Definition mean (l : list Z) : Q := Qmake (sumZ l) (Pos.of_nat (length l)).

(** The number [_calculate_energy] returns: the literal [0] of the two
    early returns, or [np.sqrt(mean_sq)], kept symbolic through its
    radicand. *)
Inductive energy : Type :=
  | EZero
  | ESqrt (mean_sq : Q).

Definition energy_sq (e : energy) : Q :=
  match e with
  | EZero => 0%Q
  | ESqrt q => q
  end.

Definition _calculate_energy (data : list byte) : option energy :=
  match frombuffer data with
  | None => None
  | Some audio_data =>
      if (length audio_data =? 0)%nat then Some EZero
      else
        let mean_sq := mean (square_int16 audio_data) in
        if Qltb mean_sq 0 then Some EZero
        else Some (ESqrt mean_sq)
  end.

(** [energy > self.energy_threshold] for an integer threshold: a
    non-negative root exceeds [thr] exactly when [thr] is negative or the
    radicand exceeds [thr * thr]. *)
Definition energy_gt (e : energy) (thr : Z) : bool :=
  match e with
  | EZero => thr <? 0
  | ESqrt q => (thr <? 0) || Qltb (inject_Z (thr * thr)) q
  end.

(** The square of the root-mean-square of the samples, computed exactly. *)
Definition rms_sq (samples : list Z) : Q := mean (map (fun s => s * s) samples).

(** ** The segmenter ([listen_for_speech]) *)

Record config : Type := {
  energy_threshold : Z;   (* self.energy_threshold *)
  silence_limit : Q       (* self.silence_limit, in seconds *)
}.

(** What [self.stream.read] does in one pass through the loop. *)
Inductive read_result : Type :=
  | Data (data : list byte)
  | IOError
  | KeyboardInterrupt.

(** Everything one pass observes from outside the generator: the read, the
    value of [self._paused] when it is tested, and what [time.time()]
    answers should the pass call it. *)
Record tick : Type := {
  read : read_result;
  paused : bool;
  now : Q
}.

(** The generator's local variables. *)
Record locals : Type := {
  frames : list (list byte);
  silence_start : option Q;
  is_speaking : bool
}.

(** Their values before the loop, and after every reset. *)
Definition idle : locals :=
  {| frames := []; silence_start := None; is_speaking := false |}.

(** The locals while an utterance is being recorded. *)
Definition speaking (fs : list (list byte)) (start : option Q) : locals :=
  {| frames := fs; silence_start := start; is_speaking := true |}.

Inductive outcome : Type :=
  | Next (s : locals) (yielded : option (list byte))  (* on to the next pass *)
  | Break                                             (* KeyboardInterrupt *)
  | Raised.                                           (* ValueError escapes *)

(** One pass through the body of [while True]. *)
Definition body (cfg : config) (s : locals) (t : tick) : outcome :=
  match read t with
  | KeyboardInterrupt => Break
  | IOError => Next s None
  | Data data =>
      if paused t then
        if is_speaking s then Next idle None else Next s None
      else
        match _calculate_energy data with
        | None => Raised
        | Some energy =>
            if negb (is_speaking s) then
              if energy_gt energy (energy_threshold cfg) then
                Next {| frames := [data]; silence_start := None;
                        is_speaking := true |} None
              else Next s None
            else
              let frames' := frames s ++ [data] in
              if energy_gt energy (energy_threshold cfg) then
                Next {| frames := frames'; silence_start := None;
                        is_speaking := true |} None
              else
                match silence_start s with
                | None =>
                    Next {| frames := frames'; silence_start := Some (now t);
                            is_speaking := true |} None
                | Some start =>
                    if Qltb (silence_limit cfg) (now t - start) then
                      Next idle (Some (concat frames'))
                    else
                      Next {| frames := frames'; silence_start := Some start;
                              is_speaking := true |} None
                end
        end
  end.

(** How a run over finitely many passes ends. *)
Inductive ending : Type :=
  | Listening (s : locals)   (* still inside the loop *)
  | Returned                 (* left the loop through [break] *)
  | Crashed.                 (* an exception left the generator *)

(** The loop from given locals: the utterances yielded, in order, and the
    way the run ends. *)
Fixpoint listen_from (cfg : config) (s : locals) (ticks : list tick)
  : list (list byte) * ending :=
  match ticks with
  | [] => ([], Listening s)
  | t :: rest =>
      match body cfg s t with
      | Next s' out =>
          let r := listen_from cfg s' rest in
          (match out with Some u => u :: fst r | None => fst r end, snd r)
      | Break => ([], Returned)
      | Raised => ([], Crashed)
      end
  end.

Definition listen_for_speech (cfg : config) (ticks : list tick)
  : list (list byte) * ending :=
  listen_from cfg idle ticks.

(** Classification of a pass, for stating properties: an unpaused pass that
    reads a frame whose energy is above, respectively not above, the
    threshold. *)
Definition above (cfg : config) (t : tick) : bool :=
  match read t with
  | Data data =>
      negb (paused t) &&
      match _calculate_energy data with
      | Some e => energy_gt e (energy_threshold cfg)
      | None => false
      end
  | _ => false
  end.

Definition below (cfg : config) (t : tick) : bool :=
  match read t with
  | Data data =>
      negb (paused t) &&
      match _calculate_energy data with
      | Some e => negb (energy_gt e (energy_threshold cfg))
      | None => false
      end
  | _ => false
  end.

Definition frame_of (t : tick) : list byte :=
  match read t with
  | Data data => data
  | _ => []
  end.

(** Total byte length of the frames read by a list of passes. *)
Definition frames_length (ticks : list tick) : nat :=
  list_sum (map (fun t => length (frame_of t)) ticks).

End AudioInterface.

(** * device_state.py *)

Module DeviceState.

(** A field of a device record holds a string or [None]. *)
Definition value : Type := option string.

(** [self.devices]: a dict from device type to a dict of fields. *)
Abbreviation devices_t := (gmap string (gmap string value)).

(** The command dict, as far as [update_state] reads it: each field is the
    result of [command.get(...)], [None] when the key is absent. *)
Record command : Type := {
  cmd_type : option string;
  cmd_device : option string;
  cmd_action : option string
}.

(** [__init__]. *)
Definition init : devices_t :=
  <["light" := <["state" := Some "off"]>
                 (<["last_action" := None]> (<["last_update" := None]> ∅))]>
  (<["ac" := <["state" := Some "off"]>
              (<["last_action" := None]> (<["last_update" := None]> ∅))]>
  (<["window" := <["state" := Some "closed"]>
                  (<["last_action" := None]> (<["last_update" := None]> ∅))]>
  (<["temperature" := <["last_check" := None]> (<["last_value" := None]> ∅)]>
   ∅))).

(** [update_state(command)]; [current_time] is
    [datetime.now().isoformat()]. *)
Definition update_state (devices : devices_t) (cmd : command)
    (current_time : string) : devices_t :=
  match cmd_type cmd with
  | None => devices
  | Some device_type =>
      match devices !! device_type with
      | None => devices
      | Some info =>
          if decide (device_type = "temperature") then
            <[device_type := <["last_check" := Some current_time]> info]> devices
          else
            let info1 :=
              if decide (cmd_action cmd = Some "开") then
                if decide (device_type = "window")
                then <["state" := Some "open"]> info
                else <["state" := Some "on"]> info
              else if decide (cmd_action cmd = Some "关") then
                if decide (device_type = "window")
                then <["state" := Some "closed"]> info
                else <["state" := Some "off"]> info
              else info in
            <[device_type :=
                <["last_update" := Some current_time]>
                  (<["last_action" := cmd_action cmd]> info1)]> devices
      end
  end.

(** The store after a sequence of calls on a new [DeviceState]. *)
Definition after_updates (calls : list (command * string)) : devices_t :=
  fold_left (fun d c => update_state d (fst c) (snd c)) calls init.

(** The four device types of [__init__]. *)
Definition device_types : gset string :=
  {["light"; "ac"; "window"; "temperature"]}.

End DeviceState.

(** * local_mqtt_broker.py *)

Module LocalMQTTBroker.

(** ** Messages and the library functions they go through *)

(** A value produced by [json.loads]; a number keeps its literal. *)
Inductive json : Type :=
  | JNull
  | JBool (b : bool)
  | JNumber (literal : string)
  | JString (s : string)
  | JArray (elements : list json)
  | JObject (fields : list (string * json)).

(** [d.get(key)] on a dict: [None] when the key is absent. *)
Fixpoint dict_get (key : string) (fields : list (string * json)) : option json :=
  match fields with
  | [] => None
  | (k, v) :: rest => if String.eqb k key then Some v else dict_get key rest
  end.

(** The functions of the Python library that the broker applies to text.
    They are inputs of the embedding: [utf8_valid] tells whether bytes read
    from the file decode as UTF-8 ([UnicodeDecodeError] otherwise),
    [str_strip] is [str.strip], [json_loads] is [json.loads] with [None] for
    [json.JSONDecodeError], and [json_dumps] is
    [json.dumps(_, ensure_ascii=False)]. *)
Record pylib : Type := {
  utf8_valid : string -> bool;
  str_strip : string -> string;
  json_loads : string -> option json;
  json_dumps : json -> string
}.

Definition LF : ascii := "010"%char.
Definition CR : ascii := "013"%char.
Definition newline : string := String LF EmptyString.

(** Iterating over a file opened in text mode: the lines in order, each
    with its terminator ("\n", "\r" or "\r\n") turned into "\n"; the last
    line may lack one. [acc] holds the characters of the current line. *)
Fixpoint readlines (acc : string) (s : string) : list string :=
  match s with
  | EmptyString => if String.eqb acc EmptyString then [] else [acc]
  | String c rest =>
      if Ascii.eqb c LF then (acc ++ newline)%string :: readlines EmptyString rest
      else if Ascii.eqb c CR then
        match rest with
        | String c' rest' =>
            if Ascii.eqb c' LF
            then (acc ++ newline)%string :: readlines EmptyString rest'
            else (acc ++ newline)%string :: readlines EmptyString rest
        | EmptyString => [(acc ++ newline)%string]
        end
      else readlines (acc ++ String c EmptyString)%string rest
  end.

(** [f.seek(last_position)] followed by reading to the end of file. *)
Fixpoint seek (n : nat) (s : string) : string :=
  match n, s with
  | O, _ => s
  | S n', String _ rest => seek n' rest
  | S _, EmptyString => EmptyString
  end.

(** ** Queues ([queue.Queue]) *)

Record queue : Type := {
  maxsize : Z;
  items : list json       (* oldest first *)
}.

Definition full (q : queue) : bool :=
  (0 <? maxsize q) && (maxsize q <=? Z.of_nat (length (items q))).

Definition empty (q : queue) : bool :=
  match items q with [] => true | _ => false end.

(** [put_nowait]: [None] stands for [queue.Full]. *)
Definition put_nowait (q : queue) (m : json) : option queue :=
  if full q then None
  else Some {| maxsize := maxsize q; items := items q ++ [m] |}.


(** [while not callback_queue.empty(): callback_queue.get_nowait()]. *)
Fixpoint drain_items (l : list json) : list json :=
  match l with
  | [] => []
  | _ :: rest => drain_items rest
  end.

Definition drain (q : queue) : queue :=
  {| maxsize := maxsize q; items := drain_items (items q) |}.

(** The tailer's delivery of one message (the [try: put_nowait ... except
    queue.Full] block of [read_messages]). *)
Definition deliver (q : queue) (message : json) : queue :=
  match put_nowait q message with
  | Some q' => q'
  | None =>
      let drained := drain q in
      match put_nowait drained message with
      | Some q' => q'
      | None => drained
      end
  end.

(** ** The tailer ([read_messages]) *)

(** [message.get('topic') in topics]. *)
Definition topic_in (topics : list string) (v : option json) : bool :=
  match v with
  | Some (JString t) => existsb (String.eqb t) topics
  | _ => false
  end.

(** The tailer: its cursor and its queue; [delivered] records, oldest
    first, every message it has handed to the queue (a history kept for
    stating properties, the program has no such variable). *)
Record tailer : Type := {
  last_position : nat;
  callback_queue : queue;
  delivered : list json
}.

(** The loop over [new_lines]. The boolean tells whether an exception left
    the loop: a line that parses to something other than a dict has no
    [get] ([AttributeError], which the inner handlers do not catch). *)
Fixpoint process_lines (lib : pylib) (topics : list string)
    (new_lines : list string) (q : queue) (log : list json)
  : queue * list json * bool :=
  match new_lines with
  | [] => (q, log, false)
  | line :: rest =>
      match json_loads lib line with
      | None => process_lines lib topics rest q log
      | Some (JObject fields) =>
          if topic_in topics (dict_get "topic" fields)
          then process_lines lib topics rest
                 (deliver q (JObject fields)) (log ++ [JObject fields])
          else process_lines lib topics rest q log
      | Some _ => (q, log, true)
      end
  end.

(** The stripped, non-blank lines of the text read. *)
Definition stripped_lines (lib : pylib) (text : string) : list string :=
  List.filter (fun l => negb (String.eqb l EmptyString))
              (map (str_strip lib) (readlines EmptyString text)).

(** One cycle of [while self.running]; [file] is the content of the message
    file, [None] when it does not exist. An exception inside the cycle is
    caught by the outer handler: the cycle ends with the cursor as it then
    is. *)
Definition poll (lib : pylib) (topics : list string) (file : option string)
    (st : tailer) : tailer :=
  match file with
  | None => st
  | Some content =>
      let file_size := String.length content in
      let last_position :=
        if (file_size <? last_position st)%nat then O else last_position st in
      if (last_position <? file_size)%nat then
        let text := seek last_position content in
        if utf8_valid lib text then
          match process_lines lib topics (stripped_lines lib text)
                  (callback_queue st) (delivered st) with
          | (q, log, false) =>
              {| last_position := file_size; callback_queue := q;
                 delivered := log |}
          | (q, log, true) =>
              {| last_position := last_position; callback_queue := q;
                 delivered := log |}
          end
        else
          {| last_position := last_position;
             callback_queue := callback_queue st; delivered := delivered st |}
      else
        {| last_position := last_position;
           callback_queue := callback_queue st; delivered := delivered st |}
  end.

(** [read_messages(callback_queue, topics)] over the successive contents of
    the file seen by its cycles. *)
Definition read_messages (lib : pylib) (topics : list string)
    (callback_queue : queue) (snapshots : list (option string)) : tailer :=
  fold_left (fun st file => poll lib topics file st) snapshots
    {| last_position := O; callback_queue := callback_queue; delivered := [] |}.

(** ** The broker object and [publish] *)

(** The message file as the process finds it: its content ([None] when it
    does not exist) and whether opening it for writing succeeds. *)
Record storage : Type := {
  file : option string;
  writable : bool
}.

(** A broker instance: its subscriptions (topic to queue identifiers) and
    the queue objects of its process, shared by reference. *)
Record broker : Type := {
  subscriptions : gmap string (list nat);
  queues : gmap nat queue
}.

(** [__init__]: creates the message file when it does not exist; [None]
    when creating it raises. *)
Definition init (disk : storage) : option (broker * storage) :=
  let fresh := {| subscriptions := ∅; queues := ∅ |} in
  match file disk with
  | Some _ => Some (fresh, disk)
  | None =>
      if writable disk
      then Some (fresh, {| file := Some EmptyString; writable := true |})
      else None
  end.

(** [subscribe(topic, callback_queue)] for the queue object [qid]. *)
Definition subscribe (b : broker) (topic : string) (qid : nat) : broker :=
  let subs := default [] (subscriptions b !! topic) in
  if existsb (Nat.eqb qid) subs then
    {| subscriptions := <[topic := subs]> (subscriptions b); queues := queues b |}
  else
    {| subscriptions := <[topic := subs ++ [qid]]> (subscriptions b);
       queues := queues b |}.

(** The record [publish] builds. *)
Definition broker_message (topic payload timestamp : string) : json :=
  JObject [("topic", JString topic); ("payload", JString payload);
           ("timestamp", JString timestamp)].

(** The same-process notification at the end of [publish]. *)
Fixpoint notify (qs : gmap nat queue) (subs : list nat) (message : json)
  : gmap nat queue :=
  match subs with
  | [] => qs
  | qid :: rest =>
      match qs !! qid with
      | Some q =>
          match put_nowait q message with
          | Some q' => notify (<[qid := q']> qs) rest message
          | None => notify qs rest message
          end
      | None => notify qs rest message
      end
  end.

(** [publish(topic, payload)]; [timestamp] is [datetime.now().isoformat()].
    Returns the boolean of the method with the broker and the file after
    the call. *)
Definition publish (lib : pylib) (b : broker) (disk : storage)
    (topic payload timestamp : string) : bool * broker * storage :=
  let message := broker_message topic payload timestamp in
  if writable disk then
    let line := (json_dumps lib message ++ newline)%string in
    let disk' :=
      {| file := Some (default EmptyString (file disk) ++ line)%string;
         writable := true |} in
    let b' :=
      match subscriptions b !! topic with
      | Some subs =>
          {| subscriptions := subscriptions b;
             queues := notify (queues b) subs message |}
      | None => b
      end in
    (true, b', disk')
  else (false, b, disk).

End LocalMQTTBroker.

(** * What the tailer is expected to deliver

    Definitions that follow the words of the specification, to compare the
    loop of [read_messages] with. *)

Module TailerSpec.
Import LocalMQTTBroker.

(** The message a line stands for, if it is to be delivered: the line
    parses to an object whose [topic] is one of the subscribed topics. *)
Definition wanted_line (lib : pylib) (topics : list string) (line : string)
  : option json :=
  match json_loads lib line with
  | Some (JObject fields) =>
      if topic_in topics (dict_get "topic" fields)
      then Some (JObject fields) else None
  | _ => None
  end.

(** The messages to deliver for a list of lines, in line order. *)
Definition wanted (lib : pylib) (topics : list string) (lines : list string)
  : list json :=
  omap (wanted_line lib topics) lines.

(** A line of the log is either a JSON object or does not parse at all. *)
Definition log_line (lib : pylib) (line : string) : bool :=
  match json_loads lib line with
  | None | Some (JObject _) => true
  | Some _ => false
  end.

(** The bytes of [content] from [position] on decode, and hold log lines
    only. *)
Definition readable (lib : pylib) (content : string) (position : nat) : bool :=
  utf8_valid lib (seek position content) &&
  forallb (log_line lib) (stripped_lines lib (seek position content)).

(** The tailer with its cursor back at the start of the file. *)
Definition rewound (st : tailer) : tailer :=
  {| last_position := O; callback_queue := callback_queue st;
     delivered := delivered st |}.

(** The offsets stored after each of a series of cycles. *)
Fixpoint offsets (lib : pylib) (topics : list string) (st : tailer)
    (snapshots : list (option string)) : list nat :=
  match snapshots with
  | [] => []
  | file :: rest =>
      let st' := poll lib topics file st in
      last_position st' :: offsets lib topics st' rest
  end.

(** The file exists at every cycle and never gets shorter: [size] is the
    size seen by the previous cycle. *)
Fixpoint growing (size : nat) (snapshots : list (option string)) : Prop :=
  match snapshots with
  | [] => True
  | Some content :: rest =>
      (size <= String.length content)%nat /\ growing (String.length content) rest
  | None :: _ => False
  end.

End TailerSpec.

(** * A publisher and a tailer on one log

    The setting of the ordering property: a process that calls [publish]
    and another whose tailer polls the same message file. *)

Module Transport.
Import LocalMQTTBroker.

(** What happens next: a call of [publish] (with whether the file can be
    written at that moment) or one cycle of the tailer. *)
Inductive event : Type :=
  | Publish (writable_now : bool) (topic payload timestamp : string)
  | Poll.

Record system : Type := {
  publisher : broker;
  disk : option string;
  subscriber : tailer
}.

Definition start (b : broker) (q : queue) : system :=
  {| publisher := b; disk := None;
     subscriber := {| last_position := O; callback_queue := q;
                      delivered := [] |} |}.

Definition step (lib : pylib) (topics : list string) (s : system) (e : event)
  : system :=
  match e with
  | Publish writable_now topic payload timestamp =>
      match publish lib (publisher s)
              {| file := disk s; writable := writable_now |}
              topic payload timestamp with
      | (_, b, d) =>
          {| publisher := b; disk := file d; subscriber := subscriber s |}
      end
  | Poll =>
      {| publisher := publisher s; disk := disk s;
         subscriber := poll lib topics (disk s) (subscriber s) |}
  end.

Definition run (lib : pylib) (topics : list string) (s : system)
    (events : list event) : system :=
  fold_left (step lib topics) events s.

(** The messages of the calls of [publish] that returned [True], in call
    order. *)
Fixpoint published (events : list event) : list json :=
  match events with
  | [] => []
  | Publish true topic payload timestamp :: rest =>
      broker_message topic payload timestamp :: published rest
  | _ :: rest => published rest
  end.

(** Whether a message is on one of the subscribed topics. *)
Definition subscribed (topics : list string) (m : json) : bool :=
  match m with
  | JObject fields => topic_in topics (dict_get "topic" fields)
  | _ => false
  end.

Definition is_object (m : json) : bool :=
  match m with
  | JObject _ => true
  | _ => false
  end.

(** No line terminator occurs in the text. *)
Fixpoint no_newline (s : string) : bool :=
  match s with
  | EmptyString => true
  | String c rest =>
      negb (Ascii.eqb c LF) && negb (Ascii.eqb c CR) && no_newline rest
  end.

(** What the ordering property needs of the library for a message [m]:
    [json.dumps] prints it on one line, and stripping that line and parsing
    it gives [m] back. *)
Definition encodes (lib : pylib) (m : json) : Prop :=
  no_newline (json_dumps lib m) = true /\
  str_strip lib (json_dumps lib m ++ newline) <> EmptyString /\
  json_loads lib (str_strip lib (json_dumps lib m ++ newline)) = Some m.

(** The text of the log holding the given messages. *)
Fixpoint log_text (lib : pylib) (ms : list json) : string :=
  match ms with
  | [] => EmptyString
  | m :: rest => ((json_dumps lib m ++ newline) ++ log_text lib rest)%string
  end.

(** The state the two processes are in once the messages [pub] have been
    published and the tailer has seen [seen] of them. *)
Definition in_step (lib : pylib) (topics : list string) (q : queue)
    (pub seen : list json) (s : system) : Prop :=
  default EmptyString (disk s) = log_text lib pub /\
  last_position (subscriber s) = String.length (log_text lib seen) /\
  delivered (subscriber s) = List.filter (subscribed topics) seen /\
  callback_queue (subscriber s)
  = fold_left deliver (List.filter (subscribed topics) seen) q.

End Transport.

(** * mqtt_client.py *)

Module MQTTClient.
Import LocalMQTTBroker.

(** The module-level constants. *)
Record flags : Type := {
  USE_LOCAL_BROKER : bool;
  LOCAL_BROKER_AVAILABLE : bool
}.

(** The fields of an [MQTTClient]; [has_client] tells whether
    [self.client] is an object rather than [None]. *)
Record client : Type := {
  topic : string;
  has_client : bool;
  connected : bool
}.

(** What the network library does when asked to connect: the constructor
    [mqtt.Client()] raises, or [client.connect] raises, or the wait loop
    ends with [self.connected] at the given value. *)
Inductive connect_outcome : Type :=
  | ClientRaises
  | ConnectRaises
  | Waited (now_connected : bool).

(** What [self.client.publish] does: raises, or returns a result with the
    given [rc]. *)
Inductive publish_outcome : Type :=
  | PublishRaises
  | Rc (rc : Z).

Record network : Type := {
  on_connect : connect_outcome;
  on_publish : publish_outcome
}.

Definition MQTT_ERR_SUCCESS : Z := 0.

(** The state of the process outside the client object: the module global
    [_global_broker] of local_mqtt_broker.py and the message file. *)
Record process : Type := {
  _global_broker : option broker;
  disk : storage
}.

(** A hand-over of a payload to a transport, for counting attempts. *)
Inductive attempt : Type :=
  | ViaLocalBroker (payload : string)
  | ViaNetwork (payload : string).

(** [get_broker()]: [None] when constructing the broker raises. *)
Definition get_broker (p : process) : option (broker * process) :=
  match _global_broker p with
  | Some b => Some (b, p)
  | None =>
      match init (disk p) with
      | Some (b, d) => Some (b, {| _global_broker := Some b; disk := d |})
      | None => None
      end
  end.

(** [connect()]. *)
Definition connect (fl : flags) (net : network) (c : client) : bool * client :=
  if LOCAL_BROKER_AVAILABLE fl && USE_LOCAL_BROKER fl then
    (true, {| topic := topic c; has_client := has_client c; connected := true |})
  else
    let on_error (c' : client) :=
      if negb (USE_LOCAL_BROKER fl) && LOCAL_BROKER_AVAILABLE fl then
        (true, {| topic := topic c'; has_client := has_client c';
                  connected := true |})
      else (false, c') in
    match on_connect net with
    | ClientRaises => on_error c
    | ConnectRaises =>
        on_error {| topic := topic c; has_client := true;
                    connected := connected c |}
    | Waited b =>
        (b, {| topic := topic c; has_client := true; connected := b |})
    end.

(** The dict [send_command] serialises; a value that is [None] in Python
    becomes [null]. *)
Definition command_message (cmd : DeviceState.command) (timestamp : string)
  : json :=
  JObject [("type", match DeviceState.cmd_type cmd with
                    | Some t => JString t
                    | None => JNull
                    end);
           ("device", JString (default EmptyString (DeviceState.cmd_device cmd)));
           ("action", JString (default EmptyString (DeviceState.cmd_action cmd)));
           ("timestamp", JString timestamp)].

(** [send_command] once the connection check has passed: the message is
    built and handed to the local broker or to the network client.
    [timestamp] and [publish_time] are the two readings of
    [datetime.now().isoformat()], in [send_command] and in [publish]. The
    result holds the boolean returned, the client and the process
    afterwards, and the payloads handed to a transport. *)
Definition hand_over (lib : pylib) (fl : flags) (net : network)
    (c : client) (p : process) (cmd : DeviceState.command)
    (timestamp publish_time : string)
  : bool * client * process * list attempt :=
  let payload := json_dumps lib (command_message cmd timestamp) in
  if LOCAL_BROKER_AVAILABLE fl && (USE_LOCAL_BROKER fl || negb (has_client c))
  then
    match get_broker p with
    | None => (false, c, p, [])
    | Some (b, p1) =>
        match publish lib b (disk p1) (topic c) payload publish_time with
        | (_, b', d') =>
            (true, c, {| _global_broker := Some b'; disk := d' |},
             [ViaLocalBroker payload])
        end
    end
  else if has_client c then
    match on_publish net with
    | PublishRaises => (false, c, p, [ViaNetwork payload])
    | Rc rc => (rc =? MQTT_ERR_SUCCESS, c, p, [ViaNetwork payload])
    end
  else (false, c, p, []).

(** [send_command(command)]. *)
Definition send_command (lib : pylib) (fl : flags) (net : network)
    (c : client) (p : process) (cmd : DeviceState.command)
    (timestamp publish_time : string)
  : bool * client * process * list attempt :=
  if connected c then hand_over lib fl net c p cmd timestamp publish_time
  else
    match connect fl net c with
    | (true, c') => hand_over lib fl net c' p cmd timestamp publish_time
    | (false, c') => (false, c', p, [])
    end.

End MQTTClient.

(** * conversation_manager.py *)

Module ConversationManager.

Record message : Type := {
  role : string;
  content : string;
  timestamp : string;
  command : option DeviceState.command
}.

(** [deque(maxlen=max_history)] with its content, oldest first. *)
Record t : Type := {
  max_history : nat;
  conversation_history : list message
}.

(** [deque.append] on a bounded deque: the oldest entries leave when the
    bound is exceeded. *)
Definition deque_append {A : Type} (maxlen : nat) (d : list A) (x : A) : list A :=
  skipn (length (d ++ [x]) - maxlen) (d ++ [x]).

(** [add_message(role, content, command)]; [now] is
    [datetime.now().isoformat()]. *)
Definition add_message (cm : t) (role content : string)
    (command : option DeviceState.command) (now : string) : t :=
  {| max_history := max_history cm;
     conversation_history :=
       deque_append (max_history cm) (conversation_history cm)
         {| role := role; content := content; timestamp := now;
            command := command |} |}.

End ConversationManager.

(** * speech_handler.py and model_handler.py, as far as the loop sees them *)

Module Collaborators.

(** How a call into an external engine ends: normally, with an exception
    derived from [Exception], or with [KeyboardInterrupt]. *)
Inductive call_outcome : Type :=
  | Succeeds
  | Fails
  | Interrupted.

(** The result of a method of the program as its caller sees it: a value,
    or [KeyboardInterrupt] passing through. *)
Inductive result (A : Type) : Type :=
  | Returns (a : A)
  | Propagates.
Arguments Returns {A} a.
Arguments Propagates {A}.

(** [SpeechHandler.text_to_speech(text)]: [asyncio.run] inside
    [try ... except Exception: return None]. *)
Definition text_to_speech (synthesis : call_outcome) : result (option string) :=
  match synthesis with
  | Succeeds => Returns (Some "response.mp3"%string)
  | Fails => Returns None
  | Interrupted => Propagates
  end.

(** [SpeechHandler.play_audio_file(file_path)]: the whole body is inside
    [try ... except Exception]. *)
Definition play_audio_file (playback : call_outcome) : result unit :=
  match playback with
  | Succeeds => Returns tt
  | Fails => Returns tt
  | Interrupted => Propagates
  end.

(** [ModelHandler.format_command_message(command)]. *)
Definition format_command_message (cmd : DeviceState.command) : string :=
  let device := default EmptyString (DeviceState.cmd_device cmd) in
  let action := default EmptyString (DeviceState.cmd_action cmd) in
  let key := default EmptyString (DeviceState.cmd_type cmd) in
  let cmd_type :=
    if String.eqb key "light" then "灯"
    else if String.eqb key "ac" then "空调"
    else if String.eqb key "window" then "窗户"
    else if String.eqb key "temperature" then "温度检测"
    else "未知设备" in
  if String.eqb key "temperature" then ("执行" ++ cmd_type)%string
  else (action ++ (if String.eqb device EmptyString then cmd_type else device))%string.

(** The answer of [analyze_intent], as far as the loop reads it:
    [analysis.get("intent")] and [analysis.get("corrected_text")]. *)
Record analysis : Type := {
  intent_field : option string;
  corrected_text_field : option string
}.

(** The calls whose answers come from the language model or depend on
    formatted context. Each is a function of what the program passes in;
    where the program passes a summary string computed from the history or
    the device store, the function is given the history or the store. *)
Record models : Type := {
  resolve_pronoun :
    string -> list ConversationManager.message -> DeviceState.devices_t ->
    option string;
  analyze_intent : string -> list ConversationManager.message -> analysis;
  recognize_command :
    string -> list ConversationManager.message -> DeviceState.devices_t ->
    DeviceState.command;
  generate_chat_response :
    string -> list ConversationManager.message -> string
}.

End Collaborators.

(** * voice_assistant.py *)

Module VoiceAssistant.
Import Collaborators.

(** [ACTIVE_WINDOW = 30], in seconds. *)
Definition ACTIVE_WINDOW : Q := 30.

(** [len(s)] for a string held as UTF-8: the number of code points, that is
    of bytes that are not continuation bytes (10xxxxxx). *)
Fixpoint py_len (s : string) : nat :=
  match s with
  | EmptyString => O
  | String c rest =>
      if N.eqb (N.land (N_of_ascii c) 192) 128 then py_len rest
      else S (py_len rest)
  end.

(** What the main loop holds between two utterances. *)
Record state : Type := {
  last_interaction_time : Q;
  conversation_manager : ConversationManager.t;
  device_state : DeviceState.devices_t;
  audio_paused : bool;                 (* [audio._paused] *)
  mqtt : MQTTClient.client;
  proc : MQTTClient.process
}.

(** What one pass of the loop obtains from outside the program: the two
    readings of [time.time()], the readings of [datetime.now().isoformat()]
    in [send_command], [publish], [update_state] and the two calls of
    [add_message], the behaviour of the network, and how synthesis and
    playback end. *)
Record observations : Type := {
  check_time : Q;
  reply_time : Q;
  command_stamp : string;
  publish_stamp : string;
  update_stamp : string;
  user_stamp : string;
  assistant_stamp : string;
  net : MQTTClient.network;
  synthesis : call_outcome;
  playback : call_outcome
}.

(** The steps of the spoken reply, in the order they happen. *)
Inductive action : Type :=
  | SetLastInteraction (t : Q)      (* last_interaction_time = time.time() *)
  | Pause                           (* audio.pause() *)
  | Synthesize (text : string)      (* speech.text_to_speech *)
  | Play (file : string)            (* speech.play_audio_file *)
  | Remove (file : string)          (* os.remove, errors ignored *)
  | Resume.                         (* audio.resume() *)

(** The result of one pass: the state, the steps taken by the spoken
    reply, [response_text] when [should_reply] is set, and whether the loop
    goes on ([false]: [KeyboardInterrupt] ended it). *)
Record outcome : Type := {
  after : state;
  actions : list action;
  reply : option string;
  running : bool
}.

Definition with_time (st : state) (t : Q) : state :=
  {| last_interaction_time := t;
     conversation_manager := conversation_manager st;
     device_state := device_state st; audio_paused := audio_paused st;
     mqtt := mqtt st; proc := proc st |}.

Definition with_paused (st : state) (b : bool) : state :=
  {| last_interaction_time := last_interaction_time st;
     conversation_manager := conversation_manager st;
     device_state := device_state st; audio_paused := b;
     mqtt := mqtt st; proc := proc st |}.

Definition with_conversation (st : state) (cm : ConversationManager.t) : state :=
  {| last_interaction_time := last_interaction_time st;
     conversation_manager := cm;
     device_state := device_state st; audio_paused := audio_paused st;
     mqtt := mqtt st; proc := proc st |}.

(** Step 4 of the loop body, for a non-empty [response_text]. *)
Definition speak (obs : observations) (response_text : string) (st : state)
  : outcome :=
  let t := reply_time obs in
  let st1 := with_paused (with_time st t) true in
  match text_to_speech (synthesis obs) with
  | Propagates =>
      {| after := st1;
         actions := [SetLastInteraction t; Pause; Synthesize response_text];
         reply := Some response_text; running := false |}
  | Returns None =>
      {| after := with_paused st1 false;
         actions := [SetLastInteraction t; Pause; Synthesize response_text;
                     Resume];
         reply := Some response_text; running := true |}
  | Returns (Some tts_file) =>
      match play_audio_file (playback obs) with
      | Propagates =>
          {| after := st1;
             actions := [SetLastInteraction t; Pause;
                         Synthesize response_text; Play tts_file];
             reply := Some response_text; running := false |}
      | Returns _ =>
          {| after := with_paused st1 false;
             actions := [SetLastInteraction t; Pause;
                         Synthesize response_text; Play tts_file;
                         Remove tts_file; Resume];
             reply := Some response_text; running := true |}
      end
  end.

(** [if should_reply and response_text:] with [should_reply] set. *)
Definition answer (obs : observations) (response_text : string) (st : state)
  : outcome :=
  if String.eqb response_text EmptyString then
    {| after := st; actions := []; reply := Some response_text;
       running := true |}
  else speak obs response_text st.

(** The dispatch of an extracted command: [send_command], then
    [update_state] when it returned [True]. Gives [response_text] and the
    state afterwards. *)
Definition dispatch (lib : LocalMQTTBroker.pylib) (fl : MQTTClient.flags)
    (mqtt_available : bool) (obs : observations)
    (cmd_result : DeviceState.command) (st : state) : string * state :=
  let formatted_cmd := format_command_message cmd_result in
  if mqtt_available then
    match MQTTClient.send_command lib fl (net obs) (mqtt st) (proc st)
            cmd_result (command_stamp obs) (publish_stamp obs) with
    | (success, c, p, _) =>
        let devices :=
          if success
          then DeviceState.update_state (device_state st) cmd_result
                 (update_stamp obs)
          else device_state st in
        ((if success then "好的，" ++ formatted_cmd
          else "抱歉，" ++ formatted_cmd ++ "失败了")%string,
         {| last_interaction_time := last_interaction_time st;
            conversation_manager := conversation_manager st;
            device_state := devices; audio_paused := audio_paused st;
            mqtt := c; proc := p |})
    end
  else (("我明白了，" ++ formatted_cmd ++ "，但是MQTT未连接。")%string, st).

(** Steps 3 and 4 for an intent other than [ignore]. *)
Definition handle (lib : LocalMQTTBroker.pylib) (fl : MQTTClient.flags)
    (mqtt_available : bool) (m : models) (obs : observations)
    (intent resolved_text : string)
    (context : list ConversationManager.message) (st : state) : outcome :=
  if String.eqb intent "command" then
    let cmd_result := recognize_command m resolved_text context (device_state st) in
    if negb (bool_decide (DeviceState.cmd_type cmd_result = Some "none"%string))
    then
      match dispatch lib fl mqtt_available obs cmd_result st with
      | (response_text, st1) =>
          let cm1 :=
            ConversationManager.add_message (conversation_manager st1)
              "user" resolved_text None (user_stamp obs) in
          let cm2 :=
            ConversationManager.add_message cm1
              "assistant" response_text (Some cmd_result)
              (assistant_stamp obs) in
          answer obs response_text (with_conversation st1 cm2)
      end
    else answer obs "抱歉，我没听懂具体的指令。" st
  else if String.eqb intent "chat" then
    let cm1 :=
      ConversationManager.add_message (conversation_manager st)
        "user" resolved_text None (user_stamp obs) in
    let response_text := generate_chat_response m resolved_text context in
    let cm2 :=
      ConversationManager.add_message cm1
        "assistant" response_text None (assistant_stamp obs) in
    answer obs response_text (with_conversation st cm2)
  else
    {| after := st; actions := []; reply := None; running := true |}.

(** The steps of a reply bracketed as the specification asks: the time
    stamp first, then [pause()], synthesis, playback if there is a file,
    and [resume()] last. *)
Definition bracketed (t : Q) (text : string) (steps : list action) : Prop :=
  steps = [SetLastInteraction t; Pause; Synthesize text; Resume]
  \/ exists file,
       steps = [SetLastInteraction t; Pause; Synthesize text; Play file;
                Remove file; Resume].

(** Step 2 of the loop body: pronoun resolution, the activity window, the
    classification and the corrected text. *)
Definition resolved_input (m : models) (text : string) (st : state) : string :=
  match resolve_pronoun m text
          (ConversationManager.conversation_history (conversation_manager st))
          (device_state st) with
  | Some resolved => if String.eqb resolved EmptyString then text else resolved
  | None => text
  end.

Definition is_active (obs : observations) (st : state) : bool :=
  Qltb (check_time obs - last_interaction_time st) ACTIVE_WINDOW.

Definition classify (m : models) (text : string) (st : state) : analysis :=
  analyze_intent m (resolved_input m text st)
    (ConversationManager.conversation_history (conversation_manager st)).

(** [analysis.get("intent", "ignore")]. *)
Definition intent_of (a : analysis) : string :=
  default "ignore"%string (intent_field a).

(** [analysis.get("corrected_text", resolved_text)], which becomes
    [resolved_text]. *)
Definition corrected_input (m : models) (text : string) (st : state) : string :=
  default (resolved_input m text st) (corrected_text_field (classify m text st)).

(** The body of the main loop from the point where a non-blank [text] has
    been recognised (steps 2 to 4). *)
Definition process_utterance (lib : LocalMQTTBroker.pylib)
    (fl : MQTTClient.flags) (mqtt_available : bool) (m : models)
    (obs : observations) (text : string) (st : state) : outcome :=
  let context :=
    ConversationManager.conversation_history (conversation_manager st) in
  let intent := intent_of (classify m text st) in
  let resolved_text := corrected_input m text st in
  if String.eqb intent "ignore" then
    if is_active obs st && (3 <? py_len text)%nat then
      handle lib fl mqtt_available m obs "chat" resolved_text context st
    else
      {| after := st; actions := []; reply := None; running := true |}
  else handle lib fl mqtt_available m obs intent resolved_text context st.

End VoiceAssistant.

(** * More of audio_interface.py *)

Module AudioControl.
Import AudioInterface.

(** A pass whose read raised [IOError]. *)
Definition read_failed (t : tick) : bool :=
  match read t with
  | IOError => true
  | _ => false
  end.

(** A pass interrupted from the keyboard. *)
Definition interrupt (p : bool) (clock : Q) : tick :=
  {| read := KeyboardInterrupt; paused := p; now := clock |}.

(** A spoken segment as the segmenter sees it: passes above the threshold,
    [loud], then quiet passes [s0 :: mid ++ [trig]] of which [trig] is the
    first read more than [silence_limit] after [s0]. *)
Definition segment (cfg : config) (loud : list tick) (s0 : tick)
    (mid : list tick) (trig : tick) : Prop :=
  loud <> [] /\
  forallb (above cfg) loud = true /\
  below cfg s0 = true /\
  forallb (below cfg) mid = true /\
  Forall (fun t => (now t - now s0 <= silence_limit cfg)%Q) mid /\
  below cfg trig = true /\
  (silence_limit cfg < now trig - now s0)%Q.

Definition segment_ticks (loud : list tick) (s0 : tick) (mid : list tick)
    (trig : tick) : list tick :=
  loud ++ s0 :: mid ++ [trig].

(** A hesitation: quiet passes [g0 :: gap], none of them read more than
    [silence_limit] after [g0]. *)
Definition hesitation (cfg : config) (g0 : tick) (gap : list tick) : Prop :=
  below cfg g0 = true /\
  forallb (below cfg) gap = true /\
  Forall (fun t => (now t - now g0 <= silence_limit cfg)%Q) gap.

End AudioControl.

(** * More of conversation_manager.py *)

Module ConversationQueries.
Import LocalMQTTBroker ConversationManager.

(** The slice [l[-n:]] of Python for an integer [n]: the last [n] elements
    for a positive [n], the whole list for [n = 0] (since [-0] is [0]), and
    [l[k:]] for [n = -k] negative. *)
Definition last_slice {A : Type} (n : Z) (l : list A) : list A :=
  if n =? 0 then l
  else if 0 <? n then skipn (length l - Z.to_nat n) l
  else skipn (Z.to_nat (- n)) l.

(** [get_recent_history(n)]. *)
Definition get_recent_history (cm : t) (n : Z) : list message :=
  last_slice n (conversation_history cm).

(** A Python dict with string keys, and the value [d.get(key)] gives:
    [null] stands for [None]. *)
Definition pydict : Type := list (string * json).

Definition get (key : string) (d : pydict) : json :=
  default JNull (dict_get key d).

(** The outcome of a lookup that may call [.get] on something that is not
    a dict. *)
Inductive lookup : Type :=
  | Found (v : json)
  | AttributeError.

(** The two functions below read nothing of a message but its ["command"]
    entry, a dict or [None]; they are given that column of the history,
    oldest first. *)

(** [get_recent_commands()]. *)
Fixpoint get_recent_commands (commands : list (option pydict)) : list json :=
  match commands with
  | [] => []
  | None :: rest => get_recent_commands rest
  | Some [] :: rest => get_recent_commands rest
  | Some cmd_data :: rest =>
      match dict_get "commands" cmd_data with
      | Some (JArray cs) => cs ++ get_recent_commands rest
      | _ => JObject cmd_data :: get_recent_commands rest
      end
  end.

(** The loop of [get_last_device_mentioned] over the history, newest
    first. *)
Fixpoint last_device (newest_first : list (option pydict)) : lookup :=
  match newest_first with
  | [] => Found JNull
  | None :: rest => last_device rest
  | Some [] :: rest => last_device rest
  | Some cmd_data :: rest =>
      match dict_get "commands" cmd_data with
      | Some (JArray cs) =>
          match last cs with
          | None => last_device rest
          | Some (JObject fields) => Found (get "type" fields)
          | Some _ => AttributeError
          end
      | _ => Found (get "type" cmd_data)
      end
  end.

(** [get_last_device_mentioned()]. *)
Definition get_last_device_mentioned (commands : list (option pydict)) : lookup :=
  last_device (rev commands).

(** What [.get("type")] gives on the last of a list of commands. *)
Definition type_of_last (commands : list json) : lookup :=
  match last commands with
  | None => Found JNull
  | Some (JObject fields) => Found (get "type" fields)
  | Some _ => AttributeError
  end.

End ConversationQueries.

(** * More of device_state.py *)

Module DeviceQueries.
Import DeviceState.

(** The device types in the order [self.devices.items()] yields them: the
    insertion order of [__init__], which no method changes. *)
Definition device_order : list string :=
  ["light"; "ac"; "window"; "temperature"]%string.

(** The time stamp the loop of [get_recently_operated_device] reads for a
    device: [info.get("last_check")] for the temperature,
    [info.get("last_update")] for the others. *)
Definition stamp_of (devices : devices_t) (device_type : string) : value :=
  match devices !! device_type with
  | Some info =>
      if decide (device_type = "temperature"%string)
      then default None (info !! "last_check"%string)
      else default None (info !! "last_update"%string)
  | None => None
  end.

(** The loop of [get_recently_operated_device] over the remaining device
    types; strings compare as Python compares them, code point by code
    point, which on UTF-8 is byte by byte. *)
Fixpoint scan_devices (devices : devices_t) (keys : list string)
    (most_recent most_recent_time : option string) : option string :=
  match keys with
  | [] => most_recent
  | device_type :: rest =>
      match stamp_of devices device_type with
      | Some time =>
          if negb (String.eqb time EmptyString) &&
             match most_recent_time with
             | None => true
             | Some best => String.ltb best time
             end
          then scan_devices devices rest (Some device_type) (Some time)
          else scan_devices devices rest most_recent most_recent_time
      | None => scan_devices devices rest most_recent most_recent_time
      end
  end.

(** [get_recently_operated_device()]. *)
Definition get_recently_operated_device (devices : devices_t) : option string :=
  scan_devices devices device_order None None.

(** The values the [state] field of a device type may hold. *)
Definition state_allowed (device_type : string) (v : value) : Prop :=
  if decide (device_type = "window"%string)
  then v = Some "open"%string \/ v = Some "closed"%string
  else v = Some "on"%string \/ v = Some "off"%string.

(** The shape every device store built by the program has. *)
Definition switch_ok (device_type : string) (info : gmap string value) : Prop :=
  (exists v, info !! "state"%string = Some v /\ state_allowed device_type v) /\
  is_Some (info !! "last_action"%string) /\
  is_Some (info !! "last_update"%string).

Definition well_formed (devices : devices_t) : Prop :=
  dom devices = device_types /\
  (forall device_type info,
     devices !! device_type = Some info ->
     device_type <> "temperature"%string -> switch_ok device_type info) /\
  (forall info,
     devices !! "temperature"%string = Some info ->
     info !! "last_value"%string = Some None /\
     is_Some (info !! "last_check"%string)).

End DeviceQueries.

(** * More of local_mqtt_broker.py *)

Module BrokerFacts.
Import LocalMQTTBroker.

(** [put_nowait] with [queue.Full] ignored, as [publish] calls it. *)
Definition offered (message : json) (q : queue) : queue :=
  match put_nowait q message with
  | Some q' => q'
  | None => q
  end.

(** The queues subscribed to a topic. *)
Definition subscribers (b : broker) (topic : string) : list nat :=
  default [] (subscriptions b !! topic).

(** A bounded queue within its bound (a queue with [maxsize <= 0] has
    none). *)
Definition within_capacity (q : queue) : Prop :=
  maxsize q <= 0 \/ Z.of_nat (length (items q)) <= maxsize q.

(** No carriage return occurs in the text. *)
Fixpoint no_cr (s : string) : bool :=
  match s with
  | EmptyString => true
  | String c rest => negb (Ascii.eqb c CR) && no_cr rest
  end.

(** The offset the tailer reads from in a cycle over a file of the given
    size. *)
Definition read_from (st : tailer) (size : nat) : nat :=
  if (size <? last_position st)%nat then O else last_position st.

End BrokerFacts.

(** * More of mqtt_client.py *)

Module ClientStartup.
Import MQTTClient.

(** The two constants as the import of the module computes them: [use]
    tells whether the environment variable USE_LOCAL_BROKER (['true'] when
    unset), in lower case, is ['true']; [import_ok] whether importing
    local_mqtt_broker succeeds. *)
Definition module_flags (use import_ok : bool) : flags :=
  if use then
    {| USE_LOCAL_BROKER := true; LOCAL_BROKER_AVAILABLE := import_ok |}
  else
    {| USE_LOCAL_BROKER := false; LOCAL_BROKER_AVAILABLE := false |}.

(** The payload [send_command] serialises for a command. *)
Definition payload_of (lib : LocalMQTTBroker.pylib) (cmd : DeviceState.command)
    (timestamp : string) : string :=
  LocalMQTTBroker.json_dumps lib (command_message cmd timestamp).

End ClientStartup.

(** * Python values

    Operations of Python on the values [json.loads] produces, as the
    functions below apply them. *)

Module PyValues.
Import LocalMQTTBroker.

(** What Python itself decides about a value: the text [str(v)] of a value
    that is not a [str], and whether a number with the given literal is
    non-zero. Both depend on how Python reads and prints numbers and are
    inputs of the embedding. *)
Record builtins : Type := {
  py_str : json -> string;
  number_nonzero : string -> bool
}.

(** [f"{v}"]. *)
Definition format (bi : builtins) (v : json) : string :=
  match v with
  | JString s => s
  | _ => py_str bi v
  end.

(** The truth value of [v] in a condition. *)
Definition truth (bi : builtins) (v : json) : bool :=
  match v with
  | JNull => false
  | JBool b => b
  | JNumber literal => number_nonzero bi literal
  | JString s => negb (String.eqb s EmptyString)
  | JArray [] => false
  | JArray _ => true
  | JObject [] => false
  | JObject _ => true
  end.

(** [v == s] for a string literal [s]. *)
Definition str_eq (v : json) (s : string) : bool :=
  match v with
  | JString x => String.eqb x s
  | _ => false
  end.

(** [d.get(key, fallback)]. *)
Definition get_or (key : string) (fallback : json)
    (d : list (string * json)) : json :=
  default fallback (dict_get key d).

(** [key in d]. *)
Definition has_key (key : string) (d : list (string * json)) : bool :=
  match dict_get key d with
  | Some _ => true
  | None => false
  end.

(** [d[key] = v]: an existing key keeps its place, a new one goes last. *)
Fixpoint dict_set (key : string) (v : json) (d : list (string * json))
  : list (string * json) :=
  match d with
  | [] => [(key, v)]
  | (k, x) :: rest =>
      if String.eqb k key then (k, v) :: rest
      else (k, x) :: dict_set key v rest
  end.

End PyValues.

(** * mqtt_simulator.py *)

Module MQTTSimulator.
Import LocalMQTTBroker PyValues.

(** [_generate_feedback(cmd_type, action, device_name)]. *)
Definition _generate_feedback (bi : builtins) (cmd_type action device_name : json)
  : string :=
  let executed :=
    ("✅ 已执行：" ++ format bi action ++ format bi device_name)%string in
  if str_eq cmd_type "light" then
    if str_eq action "开" then "✅ 已经打开了灯"%string
    else if str_eq action "关" then "✅ 已经关闭了灯"%string
    else executed
  else if str_eq cmd_type "ac" then
    if str_eq action "开" then "✅ 已经打开了空调"%string
    else if str_eq action "关" then "✅ 已经关闭了空调"%string
    else executed
  else if str_eq cmd_type "window" then
    if str_eq action "开" then "✅ 已经打开了窗户"%string
    else if str_eq action "关" then "✅ 已经关闭了窗户"%string
    else executed
  else if str_eq cmd_type "temperature" then
    if str_eq action "检测" then "✅ 当前温度：25°C（模拟数据）"%string
    else executed
  else executed.

(** [type_map.get(cmd_type, '未知设备')]; [None] stands for the [TypeError]
    of a key that cannot be hashed. *)
Definition type_name (cmd_type : json) : option string :=
  match cmd_type with
  | JArray _ | JObject _ => None
  | JString s =>
      Some (if String.eqb s "light" then "灯"
            else if String.eqb s "ac" then "空调"
            else if String.eqb s "window" then "窗户"
            else if String.eqb s "temperature" then "温度检测"
            else "未知设备")%string
  | _ => Some "未知设备"%string
  end.

(** What [_process_message] reports: the feedback line, or one of its two
    error lines. *)
Inductive report : Type :=
  | Feedback (text : string)
  | JSONDecodeError
  | OtherError.

(** [_process_message(message_data)]. *)
Definition _process_message (lib : pylib) (bi : builtins)
    (message_data : list (string * json)) : report :=
  let message :=
    match dict_get "payload" message_data with
    | Some (JString payload) => json_loads lib payload
    | Some v => Some v
    | None => Some (JObject message_data)
    end in
  match message with
  | None => JSONDecodeError
  | Some (JObject fields) =>
      let cmd_type := get_or "type" (JString EmptyString) fields in
      let device := get_or "device" (JString EmptyString) fields in
      let action := get_or "action" (JString EmptyString) fields in
      match type_name cmd_type with
      | None => OtherError
      | Some name =>
          let device_name := if truth bi device then device else JString name in
          Feedback (_generate_feedback bi cmd_type action device_name)
      end
  | Some _ => OtherError
  end.

(** The loop of [start] with the local broker: each message taken from the
    queue goes through [_process_message]. *)
Definition reports (lib : pylib) (bi : builtins) (q : queue) : list report :=
  map (fun m => match m with
                | JObject message_data => _process_message lib bi message_data
                | _ => OtherError
                end) (items q).

End MQTTSimulator.

(** * calibrate_audio.py *)

Module CalibrateAudio.
Import AudioInterface.

Record levels : Type := {
  max_energy : Z;
  min_energy : Z
}.

Definition initial : levels := {| max_energy := 0; min_energy := 999999 |}.

(** [int(np.sqrt(mean_sq))] for a non-negative [mean_sq]: the integer
    part of the root, which is the integer root of the integer part. *)
Definition int_sqrt (mean_sq : Q) : Z :=
  Z.sqrt (Qnum mean_sq / Z.pos (Qden mean_sq)).

(** What one pass of the loop makes of the data read: nothing for an empty
    array, an energy, or the [ValueError] of [np.frombuffer]. *)
Inductive measured : Type :=
  | Skipped
  | Energy (value : Z)
  | ValueError.

Definition measure (data : list byte) : measured :=
  match frombuffer data with
  | None => ValueError
  | Some audio_data =>
      if (length audio_data =? 0)%nat then Skipped
      else
        let mean_sq := mean (square_int16 audio_data) in
        if Qltb mean_sq 0 then Energy 0 else Energy (int_sqrt mean_sq)
  end.

(** The threshold printed on [KeyboardInterrupt]; [0.8] is taken as the
    rational 4/5, and [int(max_energy * 0.5)] truncates towards zero. *)
Definition recommend (l : levels) : Z :=
  let recommended := Z.max (min_energy l * 2) 500 in
  if Qltb (inject_Z (max_energy l) * (4 # 5)) (inject_Z recommended)
  then Z.quot (max_energy l) 2
  else recommended.

(** How [calibrate] ends on the reads of its loop: with a recommendation
    when interrupted from the keyboard, without one when a read or the
    conversion raises; [Listening] when the reads listed are all there has
    been so far. *)
Inductive outcome : Type :=
  | Recommends (recommended : Z)
  | Fails
  | Listening.

Fixpoint calibrate_from (l : levels) (reads : list read_result) : outcome :=
  match reads with
  | [] => Listening
  | KeyboardInterrupt :: _ => Recommends (recommend l)
  | IOError :: _ => Fails
  | Data data :: rest =>
      match measure data with
      | ValueError => Fails
      | Skipped => calibrate_from l rest
      | Energy energy =>
          calibrate_from
            {| max_energy := Z.max (max_energy l) energy;
               min_energy := Z.min (min_energy l) energy |} rest
      end
  end.

Definition calibrate (reads : list read_result) : outcome :=
  calibrate_from initial reads.

(** The energies the loop measures, in order, up to the read that ends
    it. *)
Fixpoint measured_energies (reads : list read_result) : list Z :=
  match reads with
  | Data data :: rest =>
      match measure data with
      | Energy energy => energy :: measured_energies rest
      | Skipped => measured_energies rest
      | ValueError => []
      end
  | _ => []
  end.

(** The largest of them, 0 when there is none. *)
Definition peak (reads : list read_result) : Z :=
  fold_left Z.max (measured_energies reads) 0.

End CalibrateAudio.

(** * model_handler.py *)

Module ModelHandler.
Import LocalMQTTBroker PyValues.

Definition valid_types : list string :=
  ["light"; "ac"; "window"; "temperature"]%string.

(** [cmd.get('type') in valid_types]. *)
Definition has_valid_type (cmd : list (string * json)) : bool :=
  match dict_get "type" cmd with
  | Some (JString t) => existsb (String.eqb t) valid_types
  | _ => false
  end.

(** What a [for cmd in v] loop whose body calls [cmd.get] can visit:
    the elements of a list; nothing for an empty string or an empty dict.
    [None] stands for an exception: a value that cannot be iterated, or a
    non-empty string or dict, whose elements are strings and have no
    [get]. *)
Definition loop_over (v : json) : option (list json) :=
  match v with
  | JArray elements => Some elements
  | JString EmptyString => Some []
  | JObject [] => Some []
  | _ => None
  end.

(** The loop that keeps the commands of a valid type; [None] when an
    element is not a dict ([AttributeError]). *)
Fixpoint keep_valid (cmds : list json) : option (list json) :=
  match cmds with
  | [] => Some []
  | JObject cmd :: rest =>
      match keep_valid rest with
      | Some valid =>
          Some (if has_valid_type cmd then JObject cmd :: valid else valid)
      | None => None
      end
  | _ :: _ => None
  end.

(** The dict every exception handler of [recognize_command] returns. *)
Definition empty_result : list (string * json) :=
  [("commands"%string, JArray []); ("potential"%string, JArray [])].

(** [recognize_command] from the parsed reply of the model on: [reply] is
    what [json.loads(content)] gave, [None] when the request failed, the
    content was empty or it was not JSON. *)
Definition recognize_command (bi : builtins) (reply : option json)
  : list (string * json) :=
  match reply with
  | Some (JObject result) =>
      let result1 :=
        if has_key "potential" result then result
        else dict_set "potential" (JArray []) result in
      let result2 :=
        if has_key "commands" result1 then result1
        else
          let emptied := dict_set "commands" (JArray []) result1 in
          let type_ := get_or "type" JNull emptied in
          if truth bi type_ && negb (str_eq type_ "none") then
            dict_set "commands"
              (JArray
                 [JObject
                    [("type"%string, type_);
                     ("device"%string,
                      get_or "device" (JString EmptyString) emptied);
                     ("action"%string,
                      get_or "action" (JString EmptyString) emptied)]])
              emptied
          else emptied in
      match loop_over (get_or "commands" JNull result2) with
      | Some cmds =>
          match keep_valid cmds with
          | Some valid_commands =>
              dict_set "commands" (JArray valid_commands) result2
          | None => empty_result
          end
      | None => empty_result
      end
  | _ => empty_result
  end.

(** The reply has none of the keys of a single command at its top level. *)
Definition lacks_command_keys (reply : option json) : bool :=
  match reply with
  | Some (JObject result) =>
      negb (has_key "type" result) && negb (has_key "device" result)
      && negb (has_key "action" result)
  | _ => true
  end.

(** What [cmd.get("type")], [cmd.get("device")] and [cmd.get("action")]
    give on a dict in which each of the three, where present, is a
    string. *)
Definition text_field (key : string) (d : list (string * json)) : option string :=
  match dict_get key d with
  | Some (JString s) => Some s
  | _ => None
  end.

Definition command_of (d : list (string * json)) : DeviceState.command :=
  {| DeviceState.cmd_type := text_field "type" d;
     DeviceState.cmd_device := text_field "device" d;
     DeviceState.cmd_action := text_field "action" d |}.

End ModelHandler.

(** * server.py *)

Module Server.
Import LocalMQTTBroker MQTTClient.

(** What the handling of one command obtains from outside: the readings of
    [datetime.now().isoformat()] in [send_command], [publish] and
    [update_state], and the behaviour of the network. *)
Record observations : Type := {
  command_stamp : string;
  publish_stamp : string;
  update_stamp : string;
  net : network
}.

(** The module globals that [execute_commands] touches. *)
Record state : Type := {
  mqtt_client : client;
  proc : process;
  device_state : DeviceState.devices_t
}.

(** The loop of [execute_commands]. *)
Fixpoint execute_loop (lib : pylib) (fl : flags)
    (commands : list (DeviceState.command * observations)) (st : state)
    (response_texts : list string) : list string * state :=
  match commands with
  | [] => (response_texts, st)
  | (cmd, obs) :: rest =>
      match send_command lib fl (net obs) (mqtt_client st) (proc st) cmd
              (command_stamp obs) (publish_stamp obs) with
      | (true, c, p, _) =>
          execute_loop lib fl rest
            {| mqtt_client := c; proc := p;
               device_state :=
                 DeviceState.update_state (device_state st) cmd
                   (update_stamp obs) |}
            (response_texts ++ [Collaborators.format_command_message cmd])
      | (false, c, p, _) =>
          execute_loop lib fl rest
            {| mqtt_client := c; proc := p; device_state := device_state st |}
            response_texts
      end
  end.

(** [execute_commands(commands)]. *)
Definition execute_commands (lib : pylib) (fl : flags) (mqtt_available : bool)
    (commands : list (DeviceState.command * observations)) (st : state)
  : list string * state :=
  if mqtt_available then execute_loop lib fl commands st []
  else (["MQTT不可用 (模拟执行)"%string], st).

End Server.

(** * context_manager.py *)

Module ContextManager.

(** [needle in text] on strings. On UTF-8 an occurrence of one text in
    another starts at a character boundary, so bytes can stand for the
    characters Python compares. *)
Fixpoint contains (needle text : string) : bool :=
  String.prefix needle text ||
  match text with
  | EmptyString => false
  | String _ rest => contains needle rest
  end.

(** [text.replace(old, new)] for a non-empty [old]: the occurrences are
    taken from the left and do not overlap; [skip] counts the characters of
    an occurrence still to pass. *)
Fixpoint replace_from (skip : nat) (old new text : string) : string :=
  match text with
  | EmptyString => EmptyString
  | String c rest =>
      match skip with
      | S k => replace_from k old new rest
      | O =>
          if String.prefix old text
          then (new ++ replace_from (String.length old - 1) old new rest)%string
          else String c (replace_from O old new rest)
      end
  end.

Definition replace (old new text : string) : string :=
  replace_from O old new text.

Definition pronouns : list string :=
  ["它"; "那个"; "这个"; "上面"; "刚才"; "之前"; "刚才那个"]%string.

(** [device_names.get(device, device)]. *)
Definition device_name (device : string) : string :=
  if String.eqb device "light" then "灯"
  else if String.eqb device "ac" then "空调"
  else if String.eqb device "window" then "窗户"
  else if String.eqb device "temperature" then "温度"
  else device.

Definition is_in (s : string) (l : list string) : bool :=
  existsb (String.eqb s) l.

(** The loop over the pronouns when the device comes from the
    conversation; [None] when it ends without returning. *)
Fixpoint replace_by_history (name text : string) (remaining : list string)
  : option string :=
  match remaining with
  | [] => None
  | pronoun :: rest =>
      if contains pronoun text then
        Some (if String.eqb pronoun "它" then replace "它" name text
              else if is_in pronoun ["那个"; "这个"; "刚才那个"]%string
                   then replace pronoun name text
              else if is_in pronoun ["上面"; "刚才"; "之前"]%string
                   then replace pronoun (name ++ "的" ++ pronoun)%string text
              else text)
      else replace_by_history name text rest
  end.

(** The loop over the pronouns when the device comes from the device
    store. *)
Fixpoint replace_by_state (name text : string) (remaining : list string)
  : option string :=
  match remaining with
  | [] => None
  | pronoun :: rest =>
      if contains pronoun text then
        Some (if String.eqb pronoun "它" then replace "它" name text
              else if is_in pronoun ["那个"; "这个"; "刚才那个"]%string
                   then replace pronoun name text
              else text)
      else replace_by_state name text rest
  end.

(** A string or [None] that counts as true. *)
Definition named (device : option string) : option string :=
  match device with
  | Some d => if String.eqb d EmptyString then None else Some d
  | None => None
  end.

(** [resolve_pronoun(text)]; [last_device] and [recent_device] are what
    [get_last_device_mentioned()] and [get_recently_operated_device()]
    return, a string or [None]. *)
Definition resolve_pronoun (text : string)
    (last_device recent_device : option string) : option string :=
  if negb (existsb (fun pronoun => contains pronoun text) pronouns) then None
  else
    let from_state :=
      match named recent_device with
      | Some d => replace_by_state (device_name d) text pronouns
      | None => None
      end in
    match named last_device with
    | Some d =>
        match replace_by_history (device_name d) text pronouns with
        | Some resolved => Some resolved
        | None => from_state
        end
    | None => from_state
    end.

(** [get_recent_devices()] on the values of [cmd.get("type")] for the
    commands of [get_recent_commands()], each a string or [None]. *)
Fixpoint collect_devices (types : list (option string)) (devices : list string)
  : list string :=
  match types with
  | [] => devices
  | device_type :: rest =>
      match named device_type with
      | Some t =>
          if negb (is_in t devices)
          then collect_devices rest (devices ++ [t])
          else collect_devices rest devices
      | None => collect_devices rest devices
      end
  end.

Definition get_recent_devices (types : list (option string)) : list string :=
  collect_devices types [].

End ContextManager.

(** * Sample inputs

    Concrete values on which the properties below are exercised. *)

Module Samples.
Import AudioInterface.

(** The settings of voice_assistant.py:
    [AudioInterface(energy_threshold=30, silence_limit=1.0)]. *)
Definition assistant_cfg : config :=
  {| energy_threshold := 30; silence_limit := 1 |}.

(** One-sample frames: the sample 100 (energy 100) and the sample 0. *)
Definition loud_frame : list byte := [x64; x00].
Definition quiet_frame : list byte := [x00; x00].

Definition heard (data : list byte) (clock : Q) : tick :=
  {| read := Data data; paused := false; now := clock |}.

Definition muted (data : list byte) (clock : Q) : tick :=
  {| read := Data data; paused := true; now := clock |}.

(** A small stand-in for the library functions, enough for the messages
    the broker writes: objects whose values are strings, printed the way
    [json.dumps] prints them. *)

Definition quote : ascii := "034"%char.
Definition backslash : ascii := "092"%char.

Fixpoint escape (s : string) : string :=
  match s with
  | EmptyString => EmptyString
  | String c rest =>
      if Ascii.eqb c quote || Ascii.eqb c backslash
      then String backslash (String c (escape rest))
      else String c (escape rest)
  end.

Definition quoted (s : string) : string :=
  String quote (escape s ++ String quote EmptyString).

Fixpoint print_fields (fields : list (string * LocalMQTTBroker.json)) : string :=
  match fields with
  | [] => EmptyString
  | (k, v) :: rest =>
      let value := match v with
                   | LocalMQTTBroker.JString s => quoted s
                   | _ => "null"%string
                   end in
      let field := (quoted k ++ ": " ++ value)%string in
      match rest with
      | [] => field
      | _ => (field ++ ", " ++ print_fields rest)%string
      end
  end.

Definition sample_dumps (v : LocalMQTTBroker.json) : string :=
  match v with
  | LocalMQTTBroker.JObject fields => ("{" ++ print_fields fields ++ "}")%string
  | LocalMQTTBroker.JString s => quoted s
  | _ => "null"%string
  end.

(** The reader: a scanner over the characters of an object of strings. *)
Inductive scan : Type :=
  | AtStart | AtKey | InKey (k : string) | InKeyEsc (k : string)
  | AtColon (k : string) | AtGap (k : string) | AtValue (k : string)
  | InValue (k v : string) | InValueEsc (k v : string)
  | AfterValue | AfterComma | AtEnd | Stuck.

Definition snoc (s : string) (c : ascii) : string :=
  (s ++ String c EmptyString)%string.

Definition scan_step (st : scan * list (string * LocalMQTTBroker.json))
    (c : ascii) : scan * list (string * LocalMQTTBroker.json) :=
  let (state, fields) := st in
  match state with
  | AtStart => if Ascii.eqb c "{" then (AtKey, fields) else (Stuck, fields)
  | AtKey => if Ascii.eqb c quote then (InKey EmptyString, fields)
             else (Stuck, fields)
  | InKey k => if Ascii.eqb c quote then (AtColon k, fields)
               else if Ascii.eqb c backslash then (InKeyEsc k, fields)
               else (InKey (snoc k c), fields)
  | InKeyEsc k => (InKey (snoc k c), fields)
  | AtColon k => if Ascii.eqb c ":" then (AtGap k, fields) else (Stuck, fields)
  | AtGap k => if Ascii.eqb c " " then (AtValue k, fields) else (Stuck, fields)
  | AtValue k => if Ascii.eqb c quote then (InValue k EmptyString, fields)
                 else (Stuck, fields)
  | InValue k v =>
      if Ascii.eqb c quote
      then (AfterValue, fields ++ [(k, LocalMQTTBroker.JString v)])
      else if Ascii.eqb c backslash then (InValueEsc k v, fields)
      else (InValue k (snoc v c), fields)
  | InValueEsc k v => (InValue k (snoc v c), fields)
  | AfterValue => if Ascii.eqb c "," then (AfterComma, fields)
                  else if Ascii.eqb c "}" then (AtEnd, fields)
                  else (Stuck, fields)
  | AfterComma => if Ascii.eqb c " " then (AtKey, fields) else (Stuck, fields)
  | AtEnd => (Stuck, fields)
  | Stuck => (Stuck, fields)
  end.

(** Reads an object of strings; the text "7" stands for the JSON texts
    that parse to something other than an object. *)
Definition sample_loads (s : string) : option LocalMQTTBroker.json :=
  match fold_left scan_step (list_ascii_of_string s) (AtStart, []) with
  | (AtEnd, fields) => Some (LocalMQTTBroker.JObject fields)
  | _ =>
      if String.eqb s "7" then Some (LocalMQTTBroker.JNumber "7") else None
  end.

Definition is_space (c : ascii) : bool :=
  Ascii.eqb c " " || Ascii.eqb c "009" || Ascii.eqb c "010"
  || Ascii.eqb c "011" || Ascii.eqb c "012" || Ascii.eqb c "013".

Fixpoint lstrip (l : list ascii) : list ascii :=
  match l with
  | c :: rest => if is_space c then lstrip rest else l
  | [] => []
  end.

Definition sample_strip (s : string) : string :=
  string_of_list_ascii
    (rev (lstrip (rev (lstrip (list_ascii_of_string s))))).

Definition sample_lib : LocalMQTTBroker.pylib :=
  {| LocalMQTTBroker.utf8_valid := fun _ => true;
     LocalMQTTBroker.str_strip := sample_strip;
     LocalMQTTBroker.json_loads := sample_loads;
     LocalMQTTBroker.json_dumps := sample_dumps |}.

(** Two messages on the command topic and one on another topic. *)
Definition msg1 : LocalMQTTBroker.json :=
  LocalMQTTBroker.broker_message "smart_home/command" "light on" "t1".
Definition msg2 : LocalMQTTBroker.json :=
  LocalMQTTBroker.broker_message "smart_home/command" "ac off" "t2".
Definition msg3 : LocalMQTTBroker.json :=
  LocalMQTTBroker.broker_message "smart_home/status" "idle" "t3".

Definition line_of (m : LocalMQTTBroker.json) : string :=
  (sample_dumps m ++ LocalMQTTBroker.newline)%string.

(** A log with a line that is not JSON between two messages. *)
Definition sample_log : string :=
  (line_of msg1 ++ "not json" ++ LocalMQTTBroker.newline ++ line_of msg2)%string.

Definition full_queue : LocalMQTTBroker.queue :=
  {| LocalMQTTBroker.maxsize := 2; LocalMQTTBroker.items := [msg1; msg3] |}.

Definition empty_queue (maxsize : Z) : LocalMQTTBroker.queue :=
  {| LocalMQTTBroker.maxsize := maxsize; LocalMQTTBroker.items := [] |}.

Definition fresh_tailer (q : LocalMQTTBroker.queue) : LocalMQTTBroker.tailer :=
  {| LocalMQTTBroker.last_position := O;
     LocalMQTTBroker.callback_queue := q;
     LocalMQTTBroker.delivered := [] |}.

(** A publishing process with one same-process subscriber, and a history
    of calls and cycles; the third call of [publish] fails to write. *)
Definition sample_broker : LocalMQTTBroker.broker :=
  LocalMQTTBroker.subscribe
    {| LocalMQTTBroker.subscriptions := ∅;
       LocalMQTTBroker.queues := {[ O := empty_queue 1 ]} |}
    "smart_home/command" O.

Definition sample_events : list Transport.event :=
  [Transport.Publish true "smart_home/command" "light on" "t1";
   Transport.Poll;
   Transport.Publish true "smart_home/status" "idle" "t3";
   Transport.Publish false "smart_home/command" "lost" "t4";
   Transport.Publish true "smart_home/command" "ac off" "t2"].

(** The assistant with the local broker in use, as voice_assistant.py runs
    by default, and a message file that cannot be written. *)
Definition local_flags : MQTTClient.flags :=
  {| MQTTClient.USE_LOCAL_BROKER := true;
     MQTTClient.LOCAL_BROKER_AVAILABLE := true |}.

Definition remote_flags : MQTTClient.flags :=
  {| MQTTClient.USE_LOCAL_BROKER := false;
     MQTTClient.LOCAL_BROKER_AVAILABLE := false |}.

Definition sample_client : MQTTClient.client :=
  {| MQTTClient.topic := "smart_home/command";
     MQTTClient.has_client := false; MQTTClient.connected := true |}.

Definition broken_disk : LocalMQTTBroker.storage :=
  {| LocalMQTTBroker.file := Some EmptyString;
     LocalMQTTBroker.writable := false |}.

Definition broken_process : MQTTClient.process :=
  {| MQTTClient._global_broker := Some sample_broker;
     MQTTClient.disk := broken_disk |}.

Definition light_on : DeviceState.command :=
  {| DeviceState.cmd_type := Some "light"%string;
     DeviceState.cmd_device := Some "灯"%string;
     DeviceState.cmd_action := Some "开"%string |}.

Definition sample_net : MQTTClient.network :=
  {| MQTTClient.on_connect := MQTTClient.Waited true;
     MQTTClient.on_publish := MQTTClient.Rc 0 |}.

(** A model that takes "开灯" for a command and everything else for noise. *)
Definition sample_models : Collaborators.models :=
  {| Collaborators.resolve_pronoun := fun _ _ _ => None;
     Collaborators.analyze_intent := fun text _ =>
       {| Collaborators.intent_field :=
            Some (if String.eqb text "开灯" then "command" else "ignore")%string;
          Collaborators.corrected_text_field := None |};
     Collaborators.recognize_command := fun _ _ _ => light_on;
     Collaborators.generate_chat_response := fun _ _ => "你好"%string |}.

Definition sample_observations (synthesis playback : Collaborators.call_outcome)
  : VoiceAssistant.observations :=
  {| VoiceAssistant.check_time := 100;
     VoiceAssistant.reply_time := 105;
     VoiceAssistant.command_stamp := "s1";
     VoiceAssistant.publish_stamp := "s2";
     VoiceAssistant.update_stamp := "s3";
     VoiceAssistant.user_stamp := "s4";
     VoiceAssistant.assistant_stamp := "s5";
     VoiceAssistant.net := sample_net;
     VoiceAssistant.synthesis := synthesis;
     VoiceAssistant.playback := playback |}.

(** The loop state [last] seconds after the epoch of the last reply. *)
Definition sample_state (last : Q) : VoiceAssistant.state :=
  {| VoiceAssistant.last_interaction_time := last;
     VoiceAssistant.conversation_manager :=
       {| ConversationManager.max_history := 10;
          ConversationManager.conversation_history := [] |};
     VoiceAssistant.device_state := DeviceState.init;
     VoiceAssistant.audio_paused := false;
     VoiceAssistant.mqtt := sample_client;
     VoiceAssistant.proc := broken_process |}.

(** The settings an [AudioInterface()] built without arguments has. *)
Definition default_cfg : AudioInterface.config :=
  {| AudioInterface.energy_threshold := 1000;
     AudioInterface.silence_limit := 8 # 10 |}.

(** The loudest one-sample frame: the sample 32767. *)
Definition peak_frame : list byte := [xff; x7f].

(** A conversation of capacity 2 that is full. *)
Definition said (who what stamp : string) : ConversationManager.message :=
  {| ConversationManager.role := who; ConversationManager.content := what;
     ConversationManager.timestamp := stamp;
     ConversationManager.command := None |}.

Definition full_conversation : ConversationManager.t :=
  {| ConversationManager.max_history := 2;
     ConversationManager.conversation_history :=
       [said "user" "你好" "t1"; said "assistant" "你好" "t2"] |}.

(** Python's own decisions on the values of the samples: only strings and
    the number 0 occur. *)
Definition sample_builtins : PyValues.builtins :=
  {| PyValues.py_str := fun _ => "None"%string;
     PyValues.number_nonzero := fun literal => negb (String.eqb literal "0") |}.

(** A reply of the model in the format with a list of commands, and a
    model handler that got it. *)
Definition listed_reply : LocalMQTTBroker.json :=
  LocalMQTTBroker.JObject
    [("commands"%string,
      LocalMQTTBroker.JArray
        [LocalMQTTBroker.JObject
           [("type"%string, LocalMQTTBroker.JString "light");
            ("device"%string, LocalMQTTBroker.JString "灯");
            ("action"%string, LocalMQTTBroker.JString "开")]]);
     ("potential"%string, LocalMQTTBroker.JArray [])].

Definition listing_models : Collaborators.models :=
  {| Collaborators.resolve_pronoun := fun _ _ _ => None;
     Collaborators.analyze_intent := fun _ _ =>
       {| Collaborators.intent_field := Some "command"%string;
          Collaborators.corrected_text_field := None |};
     Collaborators.recognize_command := fun _ _ _ =>
       ModelHandler.command_of
         (ModelHandler.recognize_command sample_builtins (Some listed_reply));
     Collaborators.generate_chat_response := fun _ _ => "你好"%string |}.

(** What the server observes while handling a command. *)
Definition server_observations : Server.observations :=
  {| Server.command_stamp := "s1"; Server.publish_stamp := "s2";
     Server.update_stamp := "s3"; Server.net := sample_net |}.

(** The server with the local broker and a message file that cannot be
    written. *)
Definition server_state : Server.state :=
  {| Server.mqtt_client := sample_client; Server.proc := broken_process;
     Server.device_state := DeviceState.init |}.

(** A network on which every publish fails. *)
Definition failing_net : MQTTClient.network :=
  {| MQTTClient.on_connect := MQTTClient.Waited true;
     MQTTClient.on_publish := MQTTClient.Rc 4 |}.

(** The server connected to a network broker that refuses every message. *)
Definition refused_observations : Server.observations :=
  {| Server.command_stamp := "s1"; Server.publish_stamp := "s2";
     Server.update_stamp := "s3"; Server.net := failing_net |}.

Definition remote_state : Server.state :=
  {| Server.mqtt_client :=
       {| MQTTClient.topic := "smart_home/command";
          MQTTClient.has_client := true; MQTTClient.connected := true |};
     Server.proc := broken_process;
     Server.device_state := DeviceState.init |}.


(** A log whose second line is JSON but not an object, and the same log
    with a second line that is not JSON at all. *)
Definition wedging_log : string :=
  (line_of msg1 ++ "7" ++ LocalMQTTBroker.newline ++ line_of msg2)%string.

Definition garbled_log : string :=
  (line_of msg1 ++ "x7" ++ LocalMQTTBroker.newline ++ line_of msg2)%string.

End Samples.

(** * Properties *)

(** ** Rational comparisons *)

Lemma Qltb_lt (x y : Q) : Qltb x y = true <-> (x < y)%Q.
Proof.
  unfold Qltb. rewrite negb_true_iff. split.
  - intros H. apply Qnot_le_lt. intros Hle.
    apply Qle_bool_iff in Hle. congruence.
  - intros H. destruct (Qle_bool y x) eqn:E; [|reflexivity].
    apply Qle_bool_iff in E. exfalso. apply (Qlt_not_le _ _ H E).
Qed.

Lemma Qltb_ge (x y : Q) : Qltb x y = false <-> (y <= x)%Q.
Proof.
  unfold Qltb. rewrite negb_false_iff. apply Qle_bool_iff.
Qed.


(** ** Frame energy *)

Section Energy.
Import AudioInterface.

Lemma to_int16_range (u : Z) :
  0 <= u < 65536 -> -32768 <= to_int16 u <= 32767.
Proof.
  intros Hu. unfold to_int16. destruct (u <? 32768) eqn:E.
  - apply Z.ltb_lt in E. lia.
  - apply Z.ltb_ge in E. lia.
Qed.

Lemma wrap16_range (z : Z) : -32768 <= wrap16 z <= 32767.
Proof.
  unfold wrap16. apply to_int16_range. apply Z.mod_pos_bound. lia.
Qed.

Lemma wrap16_small (z : Z) : 0 <= z < 32768 -> wrap16 z = z.
Proof.
  intros Hz. unfold wrap16, to_int16.
  rewrite Z.mod_small by lia.
  destruct (z <? 32768) eqn:E; [reflexivity|].
  apply Z.ltb_ge in E. lia.
Qed.

Lemma sumZ_upper (bound : Z) (l : list Z) :
  Forall (fun z => z <= bound) l -> sumZ l <= bound * Z.of_nat (length l).
Proof.
  induction 1 as [|z l Hz _ IH]; simpl sumZ; simpl length; lia.
Qed.

Lemma sumZ_squares_nonneg (l : list Z) :
  0 <= sumZ (map (fun s => s * s) l).
Proof.
  induction l as [|z l IH]; simpl; [lia|]. nia.
Qed.

Lemma mean_nonneg (l : list Z) : 0 <= sumZ l -> (0 <= mean l)%Q.
Proof.
  intros H. unfold mean, Qle. cbn [Qnum Qden]. lia.
Qed.

Lemma square_int16_small (samples : list Z) :
  Forall (fun s => Z.abs s <= 181) samples ->
  square_int16 samples = map (fun s => s * s) samples.
Proof.
  unfold square_int16.
  induction 1 as [|s l Hs _ IH]; simpl; [reflexivity|].
  rewrite IH. f_equal. apply wrap16_small. nia.
Qed.

(** Where no square leaves the int16 range (samples of magnitude at most
    181) the energy is the root mean square of the samples. *)
Lemma calculate_energy_small (data : list byte) (samples : list Z) :
  frombuffer data = Some samples ->
  samples <> [] ->
  Forall (fun s => Z.abs s <= 181) samples ->
  _calculate_energy data = Some (ESqrt (rms_sq samples)).
Proof.
  intros Hbuf Hne Hsmall. unfold _calculate_energy. rewrite Hbuf.
  destruct samples as [|s l]; [congruence|]. simpl Nat.eqb.
  rewrite square_int16_small by assumption. fold (rms_sq (s :: l)).
  assert (Hnn : (0 <= rms_sq (s :: l))%Q).
  { apply mean_nonneg, sumZ_squares_nonneg. }
  apply Qltb_ge in Hnn. rewrite Hnn. reflexivity.
Qed.

(** An empty frame has energy 0. *)
Lemma calculate_energy_empty : _calculate_energy [] = Some EZero.
Proof. reflexivity. Qed.

(** Whatever the frame, the radicand is a mean of int16 values, so the
    energy never exceeds a threshold of 182 or more. *)
Lemma calculate_energy_bounded (data : list byte) (e : energy) (thr : Z) :
  _calculate_energy data = Some e -> 182 <= thr -> energy_gt e thr = false.
Proof.
  unfold _calculate_energy. intros He Hthr.
  destruct (frombuffer data) as [samples|]; [|discriminate].
  destruct (length samples =? 0)%nat eqn:Elen.
  { inversion He; subst. simpl. apply Z.ltb_ge. lia. }
  destruct (Qltb (mean (square_int16 samples)) 0).
  { inversion He; subst. simpl. apply Z.ltb_ge. lia. }
  inversion He; subst; clear He. simpl.
  replace (thr <? 0) with false by (symmetry; apply Z.ltb_ge; lia).
  simpl. apply Qltb_ge.
  assert (Hsum : sumZ (square_int16 samples)
                 <= 32767 * Z.of_nat (length (square_int16 samples))).
  { apply sumZ_upper. unfold square_int16. apply Forall_map.
    apply Forall_forall. intros x _. apply wrap16_range. }
  apply Nat.eqb_neq in Elen.
  unfold mean, Qle. simpl Qnum. simpl Qden.
  unfold square_int16 in *. rewrite length_map in *.
  rewrite Z.mul_1_r.
  assert (Hpos : Z.pos (Pos.of_nat (length samples)) = Z.of_nat (length samples)).
  { destruct (length samples) as [|n]; [congruence|].
    rewrite <- Pos.of_nat_succ. lia. }
  rewrite Hpos.
  assert (32767 <= thr * thr) by nia.
  etransitivity; [exact Hsum|].
  apply Z.mul_le_mono_nonneg_r; lia.
Qed.

(** C9 (code defect). For the frame holding the single sample 200 the
    squares are taken in int16: 200 * 200 = 40000 wraps to -25536, the mean
    is negative and [_calculate_energy] returns 0, while the root mean
    square of the frame is 200. *)
Theorem calculate_energy_overflow :
  frombuffer [xc8; x00] = Some [200] /\
  square_int16 [200] = [-25536] /\
  _calculate_energy [xc8; x00] = Some EZero /\
  Qeq (rms_sq [200]) (inject_Z (200 * 200)) /\
  ~ Qeq (energy_sq EZero) (rms_sq [200]).
Proof.
  repeat split; try reflexivity.
  intros H. vm_compute in H. discriminate.
Qed.

End Energy.

(** ** The segmenter *)

Section Segmenter.
Import AudioInterface.

Variable cfg : config.

Lemma above_inv (t : tick) :
  above cfg t = true ->
  exists data e, read t = Data data /\ paused t = false /\
    _calculate_energy data = Some e /\
    energy_gt e (energy_threshold cfg) = true.
Proof.
  unfold above. destruct (read t) as [data| |]; try discriminate.
  destruct (paused t); simpl; try discriminate.
  destruct (_calculate_energy data) as [e|] eqn:He; try discriminate.
  intros H. exists data, e. repeat split; assumption || reflexivity.
Qed.

Lemma below_inv (t : tick) :
  below cfg t = true ->
  exists data e, read t = Data data /\ paused t = false /\
    _calculate_energy data = Some e /\
    energy_gt e (energy_threshold cfg) = false.
Proof.
  unfold below. destruct (read t) as [data| |]; try discriminate.
  destruct (paused t); simpl; try discriminate.
  destruct (_calculate_energy data) as [e|] eqn:He; try discriminate.
  intros H. apply negb_true_iff in H. exists data, e.
  repeat split; assumption || reflexivity.
Qed.

Ltac pass_inv H :=
  first [apply above_inv in H | apply below_inv in H];
  destruct H as (?data & ?e & ?Hread & ?Hpaused & ?Henergy & ?Hgt).

Ltac run_body :=
  unfold body, frame_of;
  repeat match goal with
         | H : read _ = _ |- _ => rewrite H
         | H : paused _ = _ |- _ => rewrite H
         | H : _calculate_energy _ = _ |- _ => rewrite H
         | H : energy_gt _ _ = _ |- _ => rewrite H
         end; simpl.

Lemma body_idle_below (s : locals) (t : tick) :
  is_speaking s = false -> below cfg t = true -> body cfg s t = Next s None.
Proof.
  intros Hs Ht. pass_inv Ht. run_body. rewrite Hs. reflexivity.
Qed.

Lemma body_idle_above (s : locals) (t : tick) :
  is_speaking s = false -> above cfg t = true ->
  body cfg s t = Next (speaking [frame_of t] None) None.
Proof.
  intros Hs Ht. pass_inv Ht. run_body. rewrite Hs. reflexivity.
Qed.

Lemma body_speaking_above fs start (t : tick) :
  above cfg t = true ->
  body cfg (speaking fs start) t = Next (speaking (fs ++ [frame_of t]) None) None.
Proof.
  intros Ht. pass_inv Ht. run_body. reflexivity.
Qed.

Lemma body_speaking_below_arm fs (t : tick) :
  below cfg t = true ->
  body cfg (speaking fs None) t
  = Next (speaking (fs ++ [frame_of t]) (Some (now t))) None.
Proof.
  intros Ht. pass_inv Ht. run_body. reflexivity.
Qed.

Lemma body_speaking_below_wait fs start (t : tick) :
  below cfg t = true ->
  (now t - start <= silence_limit cfg)%Q ->
  body cfg (speaking fs (Some start)) t
  = Next (speaking (fs ++ [frame_of t]) (Some start)) None.
Proof.
  intros Ht Hlim. pass_inv Ht. run_body.
  apply Qltb_ge in Hlim. rewrite Hlim. reflexivity.
Qed.

Lemma body_speaking_below_fire fs start (t : tick) :
  below cfg t = true ->
  (silence_limit cfg < now t - start)%Q ->
  body cfg (speaking fs (Some start)) t
  = Next idle (Some (concat (fs ++ [frame_of t]))).
Proof.
  intros Ht Hlim. pass_inv Ht. run_body.
  apply Qltb_lt in Hlim. rewrite Hlim. reflexivity.
Qed.

(** Runs compose. *)
Lemma listen_from_app (s s' : locals) (a b : list tick) ys :
  listen_from cfg s a = (ys, Listening s') ->
  listen_from cfg s (a ++ b)
  = (ys ++ fst (listen_from cfg s' b), snd (listen_from cfg s' b)).
Proof.
  revert s ys. induction a as [|t a IH]; intros s ys H; simpl in *.
  - inversion H; subst. simpl. destruct (listen_from cfg s' b); reflexivity.
  - destruct (body cfg s t) as [s1 out| |]; try discriminate.
    destruct (listen_from cfg s1 a) as [ya ea] eqn:Ea. simpl in H.
    inversion H; subst; clear H.
    rewrite (IH s1 ya Ea). simpl.
    destruct out; reflexivity.
Qed.

Lemma listen_idle_below (s : locals) (ticks : list tick) :
  is_speaking s = false ->
  forallb (below cfg) ticks = true ->
  listen_from cfg s ticks = ([], Listening s).
Proof.
  intros Hs. induction ticks as [|t ts IH]; simpl; [reflexivity|].
  intros H. apply andb_true_iff in H as [Ht Hts].
  rewrite (body_idle_below s t Hs Ht), (IH Hts). reflexivity.
Qed.

Lemma listen_speaking_above fs (ticks : list tick) :
  forallb (above cfg) ticks = true ->
  listen_from cfg (speaking fs None) ticks
  = ([], Listening (speaking (fs ++ map frame_of ticks) None)).
Proof.
  revert fs. induction ticks as [|t ts IH]; intros fs; simpl.
  - rewrite app_nil_r. reflexivity.
  - intros H. apply andb_true_iff in H as [Ht Hts].
    rewrite (body_speaking_above fs None t Ht), (IH _ Hts). simpl.
    rewrite <- app_assoc. reflexivity.
Qed.

Lemma listen_speaking_wait fs start (ticks : list tick) :
  forallb (below cfg) ticks = true ->
  Forall (fun t => (now t - start <= silence_limit cfg)%Q) ticks ->
  listen_from cfg (speaking fs (Some start)) ticks
  = ([], Listening (speaking (fs ++ map frame_of ticks) (Some start))).
Proof.
  revert fs. induction ticks as [|t ts IH]; intros fs; simpl.
  - rewrite app_nil_r. reflexivity.
  - intros H Hw. apply andb_true_iff in H as [Ht Hts].
    inversion Hw as [|? ? Hwt Hwts]; subst.
    rewrite (body_speaking_below_wait fs start t Ht Hwt), (IH _ Hts Hwts).
    simpl. rewrite <- app_assoc. reflexivity.
Qed.

Lemma skip_idle_below (s : locals) (lead rest : list tick) :
  is_speaking s = false ->
  forallb (below cfg) lead = true ->
  listen_from cfg s (lead ++ rest) = listen_from cfg s rest.
Proof.
  intros Hs Hlead.
  rewrite (listen_from_app s s lead rest [] (listen_idle_below s lead Hs Hlead)).
  simpl. destruct (listen_from cfg s rest); reflexivity.
Qed.

Lemma skip_speaking_above fs (loud rest : list tick) :
  forallb (above cfg) loud = true ->
  listen_from cfg (speaking fs None) (loud ++ rest)
  = listen_from cfg (speaking (fs ++ map frame_of loud) None) rest.
Proof.
  intros Hloud.
  rewrite (listen_from_app _ _ loud rest [] (listen_speaking_above fs loud Hloud)).
  simpl. destruct (listen_from cfg _ rest); reflexivity.
Qed.

Lemma skip_speaking_wait fs start (mid rest : list tick) :
  forallb (below cfg) mid = true ->
  Forall (fun t => (now t - start <= silence_limit cfg)%Q) mid ->
  listen_from cfg (speaking fs (Some start)) (mid ++ rest)
  = listen_from cfg (speaking (fs ++ map frame_of mid) (Some start)) rest.
Proof.
  intros Hmid Hwait.
  rewrite (listen_from_app _ _ mid rest []
             (listen_speaking_wait fs start mid Hmid Hwait)).
  simpl. destruct (listen_from cfg _ rest); reflexivity.
Qed.

Lemma frames_length_concat (ticks : list tick) :
  length (concat (map frame_of ticks)) = frames_length ticks.
Proof.
  unfold frames_length. induction ticks as [|t ts IH]; simpl; [reflexivity|].
  rewrite length_app, IH. reflexivity.
Qed.

End Segmenter.

Section Segmentation.
Import AudioInterface Samples.

(** C1 (amended). Quiet passes, then one or more passes above the threshold,
    then quiet passes the last of which, [trig], is the first to be read
    more than [silence_limit] after the first quiet one, [s0]: the segmenter
    yields exactly one utterance, made of every frame from the first one
    above the threshold up to and including [trig]. The quiet frames read
    while the silence timer runs are part of the utterance; whatever quiet
    passes follow yield nothing. *)
Theorem segmentation_emits_once
    (cfg : config) (lead loud mid tail : list tick) (l0 s0 trig : tick) :
  forallb (below cfg) lead = true ->
  above cfg l0 = true ->
  forallb (above cfg) loud = true ->
  below cfg s0 = true ->
  forallb (below cfg) mid = true ->
  Forall (fun t => (now t - now s0 <= silence_limit cfg)%Q) mid ->
  below cfg trig = true ->
  (silence_limit cfg < now trig - now s0)%Q ->
  forallb (below cfg) tail = true ->
  listen_for_speech cfg (lead ++ l0 :: loud ++ s0 :: mid ++ trig :: tail)
  = ([concat (map frame_of (l0 :: loud ++ s0 :: mid ++ [trig]))],
     Listening idle)
  /\ length (concat (map frame_of (l0 :: loud ++ s0 :: mid ++ [trig])))
     = frames_length (l0 :: loud ++ s0 :: mid ++ [trig]).
Proof.
  intros Hlead Hl0 Hloud Hs0 Hmid Hwait Htrig Hfire Htail.
  split; [|apply frames_length_concat].
  unfold listen_for_speech.
  rewrite (skip_idle_below cfg idle lead _ eq_refl Hlead).
  cbn [listen_from]. rewrite (body_idle_above cfg idle l0 eq_refl Hl0).
  rewrite (skip_speaking_above cfg _ loud _ Hloud).
  cbn [listen_from]. rewrite (body_speaking_below_arm cfg _ s0 Hs0).
  rewrite (skip_speaking_wait cfg _ (now s0) mid _ Hmid Hwait).
  cbn [listen_from].
  rewrite (body_speaking_below_fire cfg _ (now s0) trig Htrig Hfire).
  rewrite (listen_idle_below cfg idle tail eq_refl Htail).
  cbn [fst snd]. do 3 f_equal.
  cbn [map]. rewrite map_app. cbn [map]. rewrite map_app. cbn [map].
  rewrite <- !app_assoc. reflexivity.
Qed.

Lemma segmentation_emits_once_witness :
  above assistant_cfg (heard loud_frame 0) = true /\
  below assistant_cfg (heard quiet_frame 1) = true /\
  (silence_limit assistant_cfg < 3 - 1)%Q /\
  listen_for_speech assistant_cfg
    [heard quiet_frame (-1); heard loud_frame 0; heard loud_frame (1 # 2);
     heard quiet_frame 1; heard quiet_frame 2; heard quiet_frame 3;
     heard quiet_frame 4]
  = ([loud_frame ++ loud_frame ++ quiet_frame ++ quiet_frame ++ quiet_frame],
     Listening idle).
Proof.
  split; [reflexivity|]. split; [reflexivity|]. split; [reflexivity|].
  apply (segmentation_emits_once assistant_cfg
           [heard quiet_frame (-1)] [heard loud_frame (1 # 2)]
           [heard quiet_frame 2] [heard quiet_frame 4]
           (heard loud_frame 0) (heard quiet_frame 1) (heard quiet_frame 3));
    try reflexivity.
  - repeat constructor. vm_compute. discriminate.
Defined.

(** C1 as stated fails: with a threshold of 30 and a silence limit of one
    second, a single frame above the threshold followed by quiet frames at
    seconds 1, 2 and 3 yields one utterance of 8 bytes, the loud frame and
    all three quiet ones, while the frames before the silence hold 2 bytes. *)
Lemma segmentation_keeps_silence :
  above assistant_cfg (heard loud_frame 0) = true /\
  forallb (below assistant_cfg)
    [heard quiet_frame 1; heard quiet_frame 2; heard quiet_frame 3] = true /\
  (silence_limit assistant_cfg < 3 - 1)%Q /\
  exists u,
    fst (listen_for_speech assistant_cfg
           [heard loud_frame 0; heard quiet_frame 1; heard quiet_frame 2;
            heard quiet_frame 3]) = [u] /\
    length u = 8%nat /\
    frames_length [heard loud_frame 0] = 2%nat /\
    length u <> frames_length [heard loud_frame 0].
Proof.
  split; [reflexivity|]. split; [reflexivity|]. split; [reflexivity|].
  exists (loud_frame ++ quiet_frame ++ quiet_frame ++ quiet_frame).
  repeat split; try reflexivity. vm_compute. discriminate.
Qed.

End Segmentation.

Section Pause.
Import AudioInterface Samples.






(** A pause in the middle of an utterance: the two loud frames recorded
    before it are never yielded, although the silence that follows the
    pause lasts longer than the limit. *)
Example pause_mid_utterance :
  listen_for_speech assistant_cfg
    [heard loud_frame 0; heard loud_frame (1 # 10); muted loud_frame (2 # 10);
     heard quiet_frame 1; heard quiet_frame 2; heard quiet_frame 4]
  = ([], Listening idle).
Proof. reflexivity. Qed.

End Pause.

(** ** Device state *)

Section DeviceStateFacts.
Import DeviceState.

Lemma update_state_dom (d : devices_t) (cmd : command) (now : string) :
  dom (update_state d cmd now) = dom d.
Proof.
  unfold update_state.
  destruct (cmd_type cmd) as [ty|]; [|reflexivity].
  destruct (d !! ty) as [info|] eqn:E; [|reflexivity].
  assert (Hin : ty ∈ dom d) by (apply elem_of_dom; eauto).
  destruct (decide (ty = "temperature")); cbv zeta; rewrite dom_insert_L;
    set_solver.
Qed.

Lemma init_dom : dom init = device_types.
Proof.
  unfold init, device_types. rewrite !dom_insert_L, dom_empty_L. set_solver.
Qed.

(** Every store reached from [__init__] has exactly the four device keys. *)
Lemma after_updates_dom (calls : list (command * string)) :
  dom (after_updates calls) = device_types.
Proof.
  unfold after_updates. rewrite <- init_dom. generalize init.
  induction calls as [|c calls IH]; intros d; simpl; [reflexivity|].
  rewrite IH. apply update_state_dom.
Qed.

(** C10. On a store with the four device keys: a command whose type is
    none of them leaves the store as it is; a command for light, ac or
    window whose action is neither "开" nor "关" overwrites [last_action] and
    [last_update] of that device and nothing else, so its [state] field is
    kept; and no call changes the set of device keys. *)
Theorem update_state_frame (d : devices_t) (cmd : command) (now : string) :
  dom d = device_types ->
  ((forall ty, cmd_type cmd = Some ty -> ty ∉ device_types) ->
   update_state d cmd now = d)
  /\ (forall ty, cmd_type cmd = Some ty -> ty ∈ device_types ->
      ty <> "temperature" ->
      cmd_action cmd <> Some "开" -> cmd_action cmd <> Some "关" ->
      exists info,
        d !! ty = Some info /\
        update_state d cmd now
        = <[ty := <["last_update" := Some now]>
                    (<["last_action" := cmd_action cmd]> info)]> d /\
        (<["last_update" := Some now]>
           (<["last_action" := cmd_action cmd]> info) : gmap string value)
          !! "state" = info !! "state")
  /\ dom (update_state d cmd now) = dom d.
Proof.
  intros Hdom. split; [|split].
  - intros Hty. unfold update_state.
    destruct (cmd_type cmd) as [ty|]; [|reflexivity].
    destruct (d !! ty) as [info|] eqn:E; [|reflexivity].
    exfalso. apply (Hty ty eq_refl). rewrite <- Hdom.
    apply elem_of_dom. eauto.
  - intros ty Hty Hin Hne Hon Hoff.
    rewrite <- Hdom in Hin. apply elem_of_dom in Hin as [info Hinfo].
    exists info. split; [exact Hinfo|]. split.
    + unfold update_state. rewrite Hty, Hinfo.
      destruct (decide (ty = "temperature")); [contradiction|].
      destruct (decide (cmd_action cmd = Some "开")); [contradiction|].
      destruct (decide (cmd_action cmd = Some "关")); [contradiction|].
      reflexivity.
    + rewrite !lookup_insert_ne by discriminate. reflexivity.
  - apply update_state_dom.
Qed.

Lemma update_state_frame_witness :
  dom init = device_types /\
  update_state init
    {| cmd_type := Some "tv"; cmd_device := None; cmd_action := Some "开" |}
    "2025-01-01T00:00:00" = init.
Proof.
  split; [exact init_dom|].
  apply (update_state_frame init
           {| cmd_type := Some "tv"; cmd_device := None;
              cmd_action := Some "开" |} "2025-01-01T00:00:00" init_dom).
  intros ty Hty. inversion Hty; subst. unfold device_types. set_solver.
Defined.

End DeviceStateFacts.

(** ** Broker queues *)

Section Queues.
Import LocalMQTTBroker.

Lemma drain_items_nil (l : list json) : drain_items l = [].
Proof. induction l as [|m l IH]; simpl; auto. Qed.

Lemma full_spec (q : queue) :
  full q = true <-> 0 < maxsize q <= Z.of_nat (length (items q)).
Proof.
  unfold full. rewrite andb_true_iff, Z.ltb_lt, Z.leb_le. reflexivity.
Qed.

Lemma full_drain (q : queue) : full (drain q) = false.
Proof.
  destruct (full (drain q)) eqn:E; [|reflexivity].
  apply full_spec in E. unfold drain in E. cbn [maxsize items] in E.
  rewrite drain_items_nil in E. simpl in E. lia.
Qed.

Lemma deliver_room (q : queue) (m : json) :
  full q = false ->
  deliver q m = {| maxsize := maxsize q; items := items q ++ [m] |}.
Proof.
  intros H. unfold deliver, put_nowait. rewrite H. reflexivity.
Qed.

Lemma deliver_full (q : queue) (m : json) :
  full q = true ->
  deliver q m = {| maxsize := maxsize q; items := [m] |}.
Proof.
  intros H. unfold deliver, put_nowait. rewrite H, full_drain.
  unfold drain. cbn [maxsize items]. rewrite drain_items_nil. reflexivity.
Qed.

(** Whatever the state of the queue, the message delivered is its newest
    item afterwards. *)
Lemma deliver_last (q : queue) (m : json) :
  last (items (deliver q m)) = Some m.
Proof.
  destruct (full q) eqn:E.
  - rewrite deliver_full by exact E. reflexivity.
  - rewrite deliver_room by exact E. simpl. apply last_snoc.
Qed.

Lemma deliver_maxsize (q : queue) (m : json) :
  maxsize (deliver q m) = maxsize q.
Proof.
  destruct (full q) eqn:E.
  - rewrite deliver_full by exact E. reflexivity.
  - rewrite deliver_room by exact E. reflexivity.
Qed.


End Queues.

(** ** The tailer *)

Section Tailer.
Import LocalMQTTBroker TailerSpec.

Variable lib : pylib.
Variable topics : list string.

Lemma wanted_cons (line : string) (lines : list string) :
  wanted lib topics (line :: lines)
  = match wanted_line lib topics line with
    | Some m => m :: wanted lib topics lines
    | None => wanted lib topics lines
    end.
Proof. reflexivity. Qed.

Lemma process_lines_wanted (lines : list string) (q : queue) (log : list json) :
  forallb (log_line lib) lines = true ->
  process_lines lib topics lines q log
  = (fold_left deliver (wanted lib topics lines) q,
     log ++ wanted lib topics lines, false).
Proof.
  revert q log. induction lines as [|line lines IH]; intros q log H.
  - simpl. rewrite app_nil_r. reflexivity.
  - simpl in H. apply andb_true_iff in H as [Hline Hrest].
    rewrite wanted_cons. cbn [process_lines]. unfold wanted_line.
    unfold log_line in Hline.
    destruct (json_loads lib line) as [[| | | | |fields]|];
      try discriminate; try (apply IH; assumption).
    destruct (topic_in topics (dict_get "topic" fields)).
    + rewrite IH by assumption. cbn [fold_left].
      rewrite <- app_assoc. reflexivity.
    + apply IH; assumption.
Qed.

(** A line that does not parse is passed over: the loop goes on with the
    lines after it as if it were not there. *)
Lemma process_lines_skip (before after : list string) (bad : string)
    (q : queue) (log : list json) :
  json_loads lib bad = None ->
  process_lines lib topics (before ++ bad :: after) q log
  = process_lines lib topics (before ++ after) q log.
Proof.
  intros Hbad. revert q log.
  induction before as [|line before IH]; intros q log; simpl.
  - rewrite Hbad. reflexivity.
  - destruct (json_loads lib line) as [[| | | | |fields]|]; auto.
    destruct (topic_in topics (dict_get "topic" fields)); auto.
Qed.

Lemma poll_missing (st : tailer) : poll lib topics None st = st.
Proof. reflexivity. Qed.

Lemma poll_nothing_new (content : string) (st : tailer) :
  last_position st = String.length content ->
  poll lib topics (Some content) st = st.
Proof.
  intros H. unfold poll. cbv zeta. rewrite <- H, Nat.ltb_irrefl.
  cbv iota. rewrite Nat.ltb_irrefl. destruct st; reflexivity.
Qed.

Lemma poll_offset_cases (content : string) (st : tailer) :
  let start := if (String.length content <? last_position st)%nat
               then O else last_position st in
  last_position (poll lib topics (Some content) st) = start
  \/ last_position (poll lib topics (Some content) st) = String.length content.
Proof.
  unfold poll. cbv zeta.
  destruct (_ <? String.length content)%nat; [|left; reflexivity].
  destruct (utf8_valid lib _); [|left; reflexivity].
  destruct (process_lines _ _ _ _ _) as [[q log] [|]]; [left|right]; reflexivity.
Qed.

Lemma poll_advance (content : string) (st : tailer) :
  (last_position st < String.length content)%nat ->
  readable lib content (last_position st) = true ->
  poll lib topics (Some content) st
  = {| last_position := String.length content;
       callback_queue :=
         fold_left deliver
           (wanted lib topics
              (stripped_lines lib (seek (last_position st) content)))
           (callback_queue st);
       delivered :=
         delivered st ++
         wanted lib topics
           (stripped_lines lib (seek (last_position st) content)) |}.
Proof.
  intros Hlt Hread. unfold readable in Hread.
  apply andb_true_iff in Hread as [Hutf Hlines].
  unfold poll. cbv zeta.
  replace (String.length content <? last_position st)%nat with false
    by (symmetry; apply Nat.ltb_ge; lia).
  replace (last_position st <? String.length content)%nat with true
    by (symmetry; apply Nat.ltb_lt; lia).
  rewrite Hutf, (process_lines_wanted _ _ _ Hlines). reflexivity.
Qed.

Lemma poll_truncated (content : string) (st : tailer) :
  (String.length content < last_position st)%nat ->
  poll lib topics (Some content) st = poll lib topics (Some content) (rewound st).
Proof.
  intros Hlt. unfold poll, rewound. cbv zeta. cbn [last_position callback_queue delivered].
  replace (String.length content <? last_position st)%nat with true
    by (symmetry; apply Nat.ltb_lt; lia).
  replace (String.length content <? 0)%nat with false
    by (symmetry; apply Nat.ltb_ge; lia).
  reflexivity.
Qed.

(** Over a file that only grows, the offsets stored cycle after cycle
    never decrease. *)
Lemma offsets_sorted (snapshots : list (option string)) (st : tailer)
    (size : nat) :
  (last_position st <= size)%nat ->
  growing size snapshots ->
  Sorted le (last_position st :: offsets lib topics st snapshots).
Proof.
  revert st size. induction snapshots as [|[content|] rest IH];
    intros st size Hst Hgrow; cbn [offsets growing] in *.
  - repeat constructor.
  - destruct Hgrow as [Hsize Hrest].
    pose proof (poll_offset_cases content st) as Hcases. cbv zeta in Hcases.
    replace (String.length content <? last_position st)%nat with false
      in Hcases by (symmetry; apply Nat.ltb_ge; lia).
    constructor.
    + apply (IH _ (String.length content)); [|exact Hrest].
      destruct Hcases as [-> | ->]; lia.
    + constructor. destruct Hcases as [-> | ->]; lia.
  - contradiction.
Qed.

(** After the loop over the new lines, the message delivered last, if any
    was, is the newest item of the queue. *)
Lemma process_lines_newest (lines : list string) (q : queue) (log : list json) :
  last (items q) = last log ->
  last (items (fst (fst (process_lines lib topics lines q log))))
  = last (snd (fst (process_lines lib topics lines q log))).
Proof.
  revert q log. induction lines as [|line lines IH]; intros q log H; simpl.
  - exact H.
  - destruct (json_loads lib line) as [[| | | | |fields]|]; simpl; auto.
    destruct (topic_in topics (dict_get "topic" fields)); auto.
    apply IH. rewrite deliver_last, last_snoc. reflexivity.
Qed.

Lemma process_lines_app (a b : list string) (q : queue) (log : list json) :
  process_lines lib topics (a ++ b) q log
  = match process_lines lib topics a q log with
    | (q1, log1, false) => process_lines lib topics b q1 log1
    | failed => failed
    end.
Proof.
  revert q log. induction a as [|line a IH]; intros q log; simpl.
  - reflexivity.
  - destruct (json_loads lib line) as [[| | | | |fields]|]; auto.
    destruct (topic_in topics (dict_get "topic" fields)); auto.
Qed.

(** When the queue is at capacity as the last new line comes up for
    delivery, the cycle leaves the queue holding the message of that line,
    the most recently published one, alone. *)
Lemma process_lines_overflow (before : list string) (line : string)
    (fields : list (string * json)) (q q1 : queue) (log log1 : list json) :
  json_loads lib line = Some (JObject fields) ->
  topic_in topics (dict_get "topic" fields) = true ->
  process_lines lib topics before q log = (q1, log1, false) ->
  full q1 = true ->
  process_lines lib topics (before ++ [line]) q log
  = ({| maxsize := maxsize q1; items := [JObject fields] |},
     log1 ++ [JObject fields], false).
Proof.
  intros Hline Htopic Hbefore Hfull.
  rewrite process_lines_app, Hbefore. simpl.
  rewrite Hline, Htopic, (deliver_full q1 _ Hfull). reflexivity.
Qed.

End Tailer.

Section TailerOffset.
Import LocalMQTTBroker TailerSpec Samples.

Lemma seek_0 (s : string) : seek 0 s = s.
Proof. destruct s; reflexivity. Qed.

(** One poll cycle of a tailer, whatever its state and the content of
    the log: (1) unless the file is shorter than the stored offset, the
    offset does not decrease; (2) when the file is shorter, the cycle is
    that of a tailer whose offset is 0, and (3) if what the file then holds
    is readable it is delivered whole and the offset becomes the file size;
    (4) when the file is longer than the offset and the new part is
    readable, the cycle hands the queue the messages of the new lines that
    parse and match, in order, and sets the offset to the file size;
    (5) a line that does not parse is skipped without stopping the loop. *)
Theorem tail_offset (lib : pylib) (topics : list string) (st : tailer)
    (content : string) :
  ((last_position st <= String.length content)%nat ->
   (last_position st <= last_position (poll lib topics (Some content) st))%nat)
  /\ ((String.length content < last_position st)%nat ->
      poll lib topics (Some content) st
      = poll lib topics (Some content) (rewound st))
  /\ ((String.length content < last_position st)%nat ->
      (0 < String.length content)%nat ->
      readable lib content 0 = true ->
      poll lib topics (Some content) st
      = {| last_position := String.length content;
           callback_queue :=
             fold_left deliver (wanted lib topics (stripped_lines lib content))
               (callback_queue st);
           delivered :=
             delivered st ++ wanted lib topics (stripped_lines lib content) |})
  /\ ((last_position st < String.length content)%nat ->
      readable lib content (last_position st) = true ->
      poll lib topics (Some content) st
      = {| last_position := String.length content;
           callback_queue :=
             fold_left deliver
               (wanted lib topics
                  (stripped_lines lib (seek (last_position st) content)))
               (callback_queue st);
           delivered :=
             delivered st ++
             wanted lib topics
               (stripped_lines lib (seek (last_position st) content)) |})
  /\ (forall before bad after q log,
        json_loads lib bad = None ->
        process_lines lib topics (before ++ bad :: after) q log
        = process_lines lib topics (before ++ after) q log).
Proof.
  split; [|split; [|split; [|split]]].
  - intros Hle.
    pose proof (poll_offset_cases lib topics content st) as H. cbv zeta in H.
    replace (String.length content <? last_position st)%nat with false in H
      by (symmetry; apply Nat.ltb_ge; lia).
    destruct H as [-> | ->]; lia.
  - apply poll_truncated.
  - intros Hlt Hpos Hread.
    rewrite poll_truncated by exact Hlt.
    rewrite (poll_advance lib topics content (rewound st)) by assumption.
    cbn [rewound last_position callback_queue delivered].
    rewrite seek_0. reflexivity.
  - apply poll_advance.
  - intros before bad after q log. apply process_lines_skip.
Qed.

Lemma tail_offset_witness :
  (0 < String.length sample_log)%nat /\
  readable sample_lib sample_log 0 = true /\
  poll sample_lib ["smart_home/command"%string] (Some sample_log)
    (fresh_tailer (empty_queue 100))
  = {| last_position := String.length sample_log;
       callback_queue := {| maxsize := 100; items := [msg1; msg2] |};
       delivered := [msg1; msg2] |}.
Proof.
  split; [vm_compute; lia|]. split; [reflexivity|].
  destruct (tail_offset sample_lib ["smart_home/command"%string]
              (fresh_tailer (empty_queue 100)) sample_log)
    as (_ & _ & _ & Hadvance & _).
  rewrite Hadvance; [reflexivity| vm_compute; lia | reflexivity].
Defined.

(** A line that parses to something other than an object is not skipped:
    the cycle ends in the outer handler with the offset where it was, so
    every later cycle reads the same lines again. *)
Lemma poll_stuck_on_non_object :
  let log := (line_of msg1 ++ "7" ++ newline)%string in
  let st := poll sample_lib ["smart_home/command"%string] (Some log)
              (fresh_tailer (empty_queue 100)) in
  last_position st = O /\ delivered st = [msg1] /\
  delivered (poll sample_lib ["smart_home/command"%string] (Some log) st)
  = [msg1; msg1].
Proof. repeat split. Qed.

Lemma read_messages_snoc (lib : pylib) (topics : list string) (q : queue)
    (snapshots : list (option string)) (file : option string) :
  read_messages lib topics q (snapshots ++ [file])
  = poll lib topics file (read_messages lib topics q snapshots).
Proof. unfold read_messages. rewrite fold_left_app. reflexivity. Qed.

(** One cycle over [wedging_log] from offset 0: the first line is
    delivered, the second raises, the offset stays 0. *)
Lemma poll_wedging_log (q : queue) (log : list json) :
  poll sample_lib ["smart_home/command"%string] (Some wedging_log)
    {| last_position := O; callback_queue := q; delivered := log |}
  = {| last_position := O; callback_queue := deliver q msg1;
       delivered := log ++ [msg1] |}.
Proof. reflexivity. Qed.

(** C6 (code defect). [read_messages] over a log whose second line is the
    JSON text 7, between two messages on the subscribed topic. The line
    parses, [message.get] raises [AttributeError], which only the outer
    handler catches, and the offset is not stored: after any number of
    cycles over the unchanged file the offset is still 0, below the file
    size, the first message has been delivered once per cycle and the
    message after the line never. With a line that does not parse in the
    same place, every cycle count leaves the offset at the file size and
    both messages delivered once. *)
Theorem read_messages_wedged (n : nat) :
  let topics := ["smart_home/command"%string] in
  let stuck :=
    read_messages sample_lib topics (empty_queue 100)
      (repeat (Some wedging_log) (S n)) in
  let passed :=
    read_messages sample_lib topics (empty_queue 100)
      (repeat (Some garbled_log) (S n)) in
  json_loads sample_lib "7" = Some (JNumber "7") /\
  json_loads sample_lib "x7" = None /\
  (0 < String.length wedging_log)%nat /\
  last_position stuck = O /\
  delivered stuck = repeat msg1 (S n) /\
  last_position passed = String.length garbled_log /\
  delivered passed = [msg1; msg2].
Proof.
  cbv zeta.
  split; [reflexivity|]. split; [reflexivity|]. split; [vm_compute; lia|].
  assert (Hstuck : forall k,
            exists q,
              read_messages sample_lib ["smart_home/command"%string]
                (empty_queue 100) (repeat (Some wedging_log) k)
              = {| last_position := O; callback_queue := q;
                   delivered := repeat msg1 k |}).
  { induction k as [|k [q IH]]; [eexists; reflexivity|].
    replace (S k) with (k + 1)%nat by lia. rewrite !repeat_app.
    cbn [repeat].
    rewrite read_messages_snoc, IH, poll_wedging_log.
    eexists. reflexivity. }
  assert (Hpassed : forall k,
            read_messages sample_lib ["smart_home/command"%string]
              (empty_queue 100) (repeat (Some garbled_log) (S k))
            = {| last_position := String.length garbled_log;
                 callback_queue := {| maxsize := 100; items := [msg1; msg2] |};
                 delivered := [msg1; msg2] |}).
  { induction k as [|k IH]; [reflexivity|].
    change (repeat (Some garbled_log) (S (S k)))
      with (Some garbled_log :: repeat (Some garbled_log) (S k)).
    rewrite repeat_cons, read_messages_snoc, IH.
    apply poll_nothing_new. reflexivity. }
  destruct (Hstuck (S n)) as [q ->]. rewrite (Hpassed n).
  repeat split.
Qed.


End TailerOffset.

(** ** Publishing and tailing one log *)

Section LogText.
Import LocalMQTTBroker TailerSpec Transport.

Lemma str_app_cons (c : ascii) (a b : string) :
  (String c a ++ b)%string = String c (a ++ b).
Proof. reflexivity. Qed.

Lemma str_length_app (a b : string) :
  String.length (a ++ b) = (String.length a + String.length b)%nat.
Proof.
  induction a as [|c a IH]; [reflexivity|].
  rewrite str_app_cons. cbn [String.length plus]. f_equal. exact IH.
Qed.

Lemma str_app_assoc (a b c : string) : ((a ++ b) ++ c = a ++ (b ++ c))%string.
Proof.
  induction a as [|x a IH]; [reflexivity|].
  rewrite !str_app_cons. f_equal. exact IH.
Qed.

Lemma str_app_nil_r (a : string) : (a ++ EmptyString)%string = a.
Proof.
  induction a as [|x a IH]; [reflexivity|].
  rewrite str_app_cons. f_equal. exact IH.
Qed.

Lemma seek_app (a b : string) : seek (String.length a) (a ++ b) = b.
Proof.
  induction a as [|c a IH]; [apply seek_0|].
  rewrite str_app_cons. exact IH.
Qed.

Lemma readlines_line (l rest acc : string) :
  no_newline l = true ->
  readlines acc ((l ++ newline) ++ rest)
  = (acc ++ l ++ newline)%string :: readlines EmptyString rest.
Proof.
  revert acc. induction l as [|c l IH]; intros acc Hl.
  - reflexivity.
  - simpl in Hl. apply andb_true_iff in Hl as [Hc Hl].
    apply andb_true_iff in Hc as [Hlf Hcr].
    apply negb_true_iff in Hlf, Hcr.
    change (((String c l ++ newline) ++ rest)%string)
      with (String c ((l ++ newline) ++ rest)%string).
    cbn [readlines]. rewrite Hlf, Hcr, (IH _ Hl).
    rewrite str_app_assoc. reflexivity.
Qed.

Variable lib : pylib.

Lemma log_text_app (a b : list json) :
  log_text lib (a ++ b) = (log_text lib a ++ log_text lib b)%string.
Proof.
  induction a as [|m a IH]; simpl; [reflexivity|].
  rewrite IH, !str_app_assoc. reflexivity.
Qed.

Lemma log_text_empty (ms : list json) :
  String.length (log_text lib ms) = O -> ms = [].
Proof.
  destruct ms as [|m ms]; [reflexivity|]. simpl.
  rewrite !str_length_app. simpl. lia.
Qed.

Lemma readlines_log_text (ms : list json) :
  Forall (encodes lib) ms ->
  readlines EmptyString (log_text lib ms)
  = map (fun m => (json_dumps lib m ++ newline)%string) ms.
Proof.
  induction 1 as [|m ms (Hnl & _ & _) _ IH]; simpl; [reflexivity|].
  rewrite (readlines_line _ _ _ Hnl), IH. reflexivity.
Qed.

Lemma stripped_lines_log_text (ms : list json) :
  Forall (encodes lib) ms ->
  stripped_lines lib (log_text lib ms)
  = map (fun m => str_strip lib (json_dumps lib m ++ newline)) ms.
Proof.
  intros H. unfold stripped_lines. rewrite (readlines_log_text ms H).
  induction H as [|m ms (_ & Hne & _) _ IH]; simpl; [reflexivity|].
  apply String.eqb_neq in Hne. rewrite Hne. simpl. rewrite IH. reflexivity.
Qed.

Variable topics : list string.

Lemma wanted_log_text (ms : list json) :
  Forall (encodes lib) ms ->
  Forall (fun m => is_object m = true) ms ->
  wanted lib topics (stripped_lines lib (log_text lib ms))
  = List.filter (subscribed topics) ms
  /\ forallb (log_line lib) (stripped_lines lib (log_text lib ms)) = true.
Proof.
  intros H Hobj. rewrite (stripped_lines_log_text ms H).
  induction H as [|m ms (_ & _ & Hload) _ IH]; [auto|].
  inversion Hobj as [|? ? Hm Hms]; subst.
  destruct (IH Hms) as [IHw IHl].
  cbn [map forallb List.filter].
  rewrite wanted_cons. unfold wanted_line, log_line. rewrite Hload.
  destruct m as [| | | | |fields]; try discriminate.
  cbn [subscribed andb].
  destruct (topic_in topics (dict_get "topic" fields)).
  - rewrite IHw. auto.
  - auto.
Qed.

End LogText.

Section Ordering.
Import LocalMQTTBroker TailerSpec Transport.

Variable lib : pylib.
Variable topics : list string.

Lemma published_app (a b : list event) :
  published (a ++ b) = published a ++ published b.
Proof.
  induction a as [|[[|] t p ts|] a IH]; simpl; rewrite ?IH; reflexivity.
Qed.

Lemma published_objects (events : list event) :
  Forall (fun m => is_object m = true) (published events).
Proof.
  induction events as [|[[|] t p ts|] events IH]; simpl; auto.
Qed.

Lemma filter_sublist (f : json -> bool) (l : list json) :
  sublist (List.filter f l) l.
Proof.
  induction l as [|x l IH]; simpl; [constructor|].
  destruct (f x); [apply sublist_skip|apply sublist_cons]; exact IH.
Qed.

Lemma fold_deliver_room (ms : list json) (q : queue) :
  maxsize q <= 0 \/ Z.of_nat (length (items q) + length ms) <= maxsize q ->
  fold_left deliver ms q = {| maxsize := maxsize q; items := items q ++ ms |}.
Proof.
  revert q. induction ms as [|m ms IH]; intros q Hroom.
  - simpl. rewrite app_nil_r. destruct q; reflexivity.
  - cbn [fold_left].
    assert (Hfull : full q = false).
    { destruct (full q) eqn:E; [|reflexivity].
      apply full_spec in E. simpl in Hroom. lia. }
    rewrite (deliver_room q m Hfull), IH.
    + cbn [maxsize items]. rewrite <- app_assoc. reflexivity.
    + cbn [maxsize items]. rewrite length_app. simpl in *. lia.
Qed.

Variable q : queue.

Lemma step_publish (pub seen : list json) (s : system)
    (w : bool) (t p ts : string) :
  in_step lib topics q pub seen s ->
  in_step lib topics q (pub ++ published [Publish w t p ts]) seen
    (step lib topics s (Publish w t p ts)).
Proof.
  intros (Hdisk & Hpos & Hdel & Hq).
  unfold step, publish. cbn [writable file].
  destruct w; cbn [published].
  - repeat split; try assumption.
    cbn [disk file]. rewrite log_text_app.
    cbn [log_text]. rewrite str_app_nil_r.
    change (default EmptyString (Some ?x)) with x.
    rewrite Hdisk. reflexivity.
  - rewrite app_nil_r. unfold in_step. cbn [disk file subscriber]. auto.
Qed.

Lemma step_poll (seen later : list json) (s : system) :
  utf8_valid lib (log_text lib later) = true ->
  Forall (encodes lib) later ->
  Forall (fun m => is_object m = true) later ->
  in_step lib topics q (seen ++ later) seen s ->
  in_step lib topics q (seen ++ later) (seen ++ later) (step lib topics s Poll).
Proof.
  intros Hutf Henc Hobj (Hdisk & Hpos & Hdel & Hq).
  destruct (wanted_log_text lib topics later Henc Hobj) as [Hwanted Hlines].
  unfold step. cbn [disk subscriber].
  split; [exact Hdisk|].
  destruct (disk s) as [content|] eqn:Edisk;
    [change (default EmptyString (Some content)) with content in Hdisk
    |change (default EmptyString None) with EmptyString in Hdisk].
  - rewrite log_text_app in Hdisk.
    destruct later as [|m later'].
    + (* nothing new: the file ends where the cursor is *)
      rewrite app_nil_r in *. cbn [log_text] in Hdisk.
      rewrite str_app_nil_r in Hdisk.
      rewrite poll_nothing_new by congruence.
      repeat split; assumption.
    + assert (Hlt : (last_position (subscriber s) < String.length content)%nat).
      { rewrite Hpos, Hdisk, str_length_app. cbn [log_text].
        rewrite !str_length_app. simpl. lia. }
      assert (Hseek : seek (last_position (subscriber s)) content
                      = log_text lib (m :: later')).
      { rewrite Hpos, Hdisk. apply seek_app. }
      rewrite poll_advance; [|exact Hlt|].
      * cbn [last_position callback_queue delivered].
        rewrite Hseek, Hwanted, Hdel, Hq, Hdisk.
        rewrite log_text_app, List.filter_app, fold_left_app.
        repeat split; reflexivity.
      * unfold readable. rewrite Hseek, Hutf, Hlines. reflexivity.
  - (* no file yet: nothing was published *)
    assert (Hnil : seen ++ later = []).
    { apply (log_text_empty lib). rewrite <- Hdisk. reflexivity. }
    apply app_eq_nil in Hnil as [-> ->].
    rewrite poll_missing. repeat split; assumption.
Qed.

End Ordering.

Section BrokerOrdering.
Import LocalMQTTBroker TailerSpec Transport Samples.

Lemma run_snoc (lib : pylib) (topics : list string) (s : system)
    (events : list event) (e : event) :
  run lib topics s (events ++ [e]) = step lib topics (run lib topics s events) e.
Proof. unfold run. rewrite fold_left_app. reflexivity. Qed.

Lemma start_in_step (lib : pylib) (topics : list string) (b : broker) (q : queue) :
  in_step lib topics q [] [] (start b q).
Proof. repeat split. Qed.

(** At every moment the file holds the messages published so far and the
    tailer has delivered those of a prefix of them. *)
Lemma run_in_step (lib : pylib) (topics : list string) (b : broker) (q : queue)
    (events : list event) :
  (forall ms, Forall (fun m => m ∈ published events) ms ->
              utf8_valid lib (log_text lib ms) = true) ->
  Forall (encodes lib) (published events) ->
  exists seen later,
    published events = seen ++ later /\
    in_step lib topics q (published events) seen
      (run lib topics (start b q) events).
Proof.
  induction events as [|e events IH] using rev_ind; intros Hutf Henc.
  - exists [], []. split; [reflexivity|apply start_in_step].
  - rewrite published_app in *. apply Forall_app in Henc as [Henc He].
    destruct IH as (seen & later & Hpub & Hstep); [|exact Henc|].
    { intros ms Hms. apply Hutf. eapply Forall_impl; [exact Hms|].
      intros m Hm. apply elem_of_app. left. exact Hm. }
    rewrite run_snoc. destruct e as [w t p ts|].
    + exists seen, (later ++ published [Publish w t p ts]). split.
      * rewrite Hpub, app_assoc. reflexivity.
      * apply step_publish. exact Hstep.
    + cbn [published]. rewrite app_nil_r in *.
      exists (published events), []. split; [rewrite app_nil_r; reflexivity|].
      rewrite Hpub in *. apply Forall_app in Henc as [_ Hlater].
      apply step_poll; try assumption.
      * apply Hutf. apply Forall_forall. intros m Hm.
        apply elem_of_app. right. exact Hm.
      * pose proof (published_objects events) as Hobj. rewrite Hpub in Hobj.
        apply Forall_app in Hobj as [_ Hobj]. exact Hobj.
Qed.

(** C8. A publisher and a tailer share a log, their calls and cycles
    interleaved in any way; the library prints each published message on
    one line that parses back to it. Then what the tailer has handed to its
    queue is, in publish order, the matching messages among a prefix of
    those published, hence a subsequence of the published sequence; a queue
    that does not overflow holds them in that order behind what it held;
    and one more cycle delivers the matching messages of all those
    published. *)
Theorem broker_ordering (lib : pylib) (topics : list string) (b : broker)
    (q : queue) (events : list event) :
  (forall ms, Forall (fun m => m ∈ published events) ms ->
              utf8_valid lib (log_text lib ms) = true) ->
  Forall (encodes lib) (published events) ->
  exists seen later,
    published events = seen ++ later
    /\ delivered (subscriber (run lib topics (start b q) events))
       = List.filter (subscribed topics) seen
    /\ sublist (delivered (subscriber (run lib topics (start b q) events)))
         (published events)
    /\ (maxsize q <= 0
        \/ Z.of_nat (length (items q) + length (published events)) <= maxsize q ->
        items (callback_queue (subscriber (run lib topics (start b q) events)))
        = items q
          ++ delivered (subscriber (run lib topics (start b q) events)))
    /\ delivered (subscriber (run lib topics (start b q) (events ++ [Poll])))
       = List.filter (subscribed topics) (published events).
Proof.
  intros Hutf Henc.
  destruct (run_in_step lib topics b q events Hutf Henc)
    as (seen & later & Hpub & (Hdisk & Hpos & Hdel & Hq)).
  exists seen, later. split; [exact Hpub|]. split; [exact Hdel|].
  split; [|split].
  - rewrite Hdel, Hpub. apply sublist_inserts_r, filter_sublist.
  - intros Hroom. rewrite Hq, Hdel. rewrite fold_deliver_room; [reflexivity|].
    destruct Hroom as [Hroom|Hroom]; [left; exact Hroom|right].
    pose proof (sublist_length _ _ (filter_sublist (subscribed topics) seen)).
    rewrite Hpub, length_app in Hroom. lia.
  - rewrite run_snoc.
    destruct (step_poll lib topics q seen later
                (run lib topics (start b q) events))
      as (_ & _ & Hdel' & _).
    + apply Hutf. rewrite Hpub. apply Forall_forall. intros m Hm.
      apply elem_of_app. right. exact Hm.
    + rewrite Hpub in Henc. apply Forall_app in Henc as [_ H]. exact H.
    + pose proof (published_objects events) as Hobj. rewrite Hpub in Hobj.
      apply Forall_app in Hobj as [_ Hobj]. exact Hobj.
    + rewrite <- Hpub. repeat split; assumption.
    + rewrite Hpub. exact Hdel'.
Qed.

Lemma sample_encodes (m : json) :
  m ∈ [msg1; msg3; msg2] -> encodes sample_lib m.
Proof.
  intros Hm. repeat (apply elem_of_cons in Hm as [-> | Hm]);
    [| | |inversion Hm]; (split; [reflexivity|split; [discriminate|reflexivity]]).
Qed.

Lemma broker_ordering_witness :
  Forall (encodes sample_lib) (published sample_events) /\
  exists seen later,
    published sample_events = seen ++ later /\
    delivered (subscriber (run sample_lib ["smart_home/command"%string]
                             (start sample_broker (empty_queue 100))
                             sample_events))
    = List.filter (subscribed ["smart_home/command"%string]) seen /\
    delivered (subscriber (run sample_lib ["smart_home/command"%string]
                             (start sample_broker (empty_queue 100))
                             (sample_events ++ [Poll])))
    = [msg1; msg2].
Proof.
  assert (Henc : Forall (encodes sample_lib) (published sample_events)).
  { apply Forall_forall. intros m Hm. apply sample_encodes. exact Hm. }
  split; [exact Henc|].
  destruct (broker_ordering sample_lib ["smart_home/command"%string]
              sample_broker (empty_queue 100) sample_events)
    as (seen & later & Hpub & Hdel & _ & _ & Hall).
  - intros ms _. reflexivity.
  - exact Henc.
  - exists seen, later. split; [exact Hpub|]. split; [exact Hdel|].
    rewrite Hall. reflexivity.
Defined.

End BrokerOrdering.

(** ** Command dispatch *)

Section Dispatch.
Import LocalMQTTBroker MQTTClient VoiceAssistant Samples.

Variable lib : pylib.
Variable fl : flags.

Lemma hand_over_single_attempt (net : network) (c : client) (p : process)
    (cmd : DeviceState.command) (t1 t2 : string) :
  (length (snd (hand_over lib fl net c p cmd t1 t2)) <= 1)%nat.
Proof.
  unfold hand_over.
  destruct (LOCAL_BROKER_AVAILABLE fl && _).
  - destruct (get_broker p) as [[b p1]|]; [|simpl; lia].
    destruct (publish _ _ _ _ _ _) as [[ok b'] d']. simpl. lia.
  - destruct (has_client c); [|simpl; lia].
    destruct (on_publish net); simpl; lia.
Qed.

(** A call hands the payload to a transport at most once. *)
Lemma send_command_single_attempt (net : network) (c : client) (p : process)
    (cmd : DeviceState.command) (t1 t2 : string) :
  (length (snd (send_command lib fl net c p cmd t1 t2)) <= 1)%nat.
Proof.
  unfold send_command.
  destruct (connected c); [apply hand_over_single_attempt|].
  destruct (connect fl net c) as [[|] c'];
    [apply hand_over_single_attempt|simpl; lia].
Qed.

(** With a real broker, the boolean returned is the success of the
    publish. *)
Lemma send_command_remote (net : network) (c : client) (p : process)
    (cmd : DeviceState.command) (t1 t2 : string) :
  LOCAL_BROKER_AVAILABLE fl = false ->
  connected c = true -> has_client c = true ->
  fst (fst (fst (send_command lib fl net c p cmd t1 t2)))
  = match on_publish net with
    | PublishRaises => false
    | Rc rc => rc =? MQTT_ERR_SUCCESS
    end
  /\ snd (fst (send_command lib fl net c p cmd t1 t2)) = p.
Proof.
  intros Hav Hc Hcl. unfold send_command, hand_over.
  rewrite Hc, Hav, Hcl. simpl.
  destruct (on_publish net); auto.
Qed.

(** The caller updates the device store exactly when [send_command]
    returned [True]. *)
Lemma dispatch_device_state (obs : observations) (cmd : DeviceState.command)
    (st : state) :
  device_state (snd (dispatch lib fl true obs cmd st))
  = if fst (fst (fst (send_command lib fl (net obs) (mqtt st) (proc st) cmd
                        (command_stamp obs) (publish_stamp obs))))
    then DeviceState.update_state (device_state st) cmd (update_stamp obs)
    else device_state st.
Proof.
  unfold dispatch.
  destruct (send_command _ _ _ _ _ _ _ _) as [[[ok c] p] att]. reflexivity.
Qed.

(** With the local broker in use, the boolean that [publish] returns does
    not reach the caller of [send_command]. *)
Lemma send_command_local (net : network) (c : client) (b : broker)
    (d : storage) (cmd : DeviceState.command) (t1 t2 : string) :
  LOCAL_BROKER_AVAILABLE fl = true -> USE_LOCAL_BROKER fl = true ->
  connected c = true ->
  fst (fst (fst (send_command lib fl net c
                   {| _global_broker := Some b; disk := d |} cmd t1 t2)))
  = true.
Proof.
  intros Hav Huse Hc. unfold send_command, hand_over, get_broker.
  rewrite Hc, Hav, Huse.
  simpl. destruct (publish _ _ _ _ _ _) as [[ok b'] d']. reflexivity.
Qed.

End Dispatch.

Section DispatchDefect.
Import LocalMQTTBroker MQTTClient VoiceAssistant Samples.

(** C2 (code defect). The local broker is in use and the message file
    cannot be written: [publish] returns [False] and writes nothing, yet
    [send_command] returns [True], having tried once, and the caller goes on
    to [update_state], which turns the light on in the device store, and to
    the confirmation reply. *)
Theorem send_command_hides_failure :
  let payload := json_dumps sample_lib (command_message light_on "s1") in
  let obs := sample_observations Collaborators.Succeeds Collaborators.Succeeds in
  publish sample_lib sample_broker broken_disk "smart_home/command" payload "s2"
  = (false, sample_broker, broken_disk)
  /\ send_command sample_lib local_flags sample_net sample_client
       broken_process light_on "s1" "s2"
     = (true, sample_client, broken_process, [ViaLocalBroker payload])
  /\ (DeviceState.init !! "light"%string) ≫= (fun info => info !! "state"%string)
     = Some (Some "off"%string)
  /\ (device_state (snd (dispatch sample_lib local_flags true obs light_on
                           (sample_state 0))) !! "light"%string)
       ≫= (fun info => info !! "state"%string)
     = Some (Some "on"%string)
  /\ fst (dispatch sample_lib local_flags true obs light_on (sample_state 0))
     = "好的，开灯"%string.
Proof.
  cbv zeta. repeat split; vm_compute; reflexivity.
Qed.

End DispatchDefect.

(** ** The spoken reply and the arbiter *)

Section Reply.
Import Collaborators VoiceAssistant Samples.

Lemma speak_bracketed (obs : observations) (text : string) (st : state) :
  synthesis obs <> Interrupted -> playback obs <> Interrupted ->
  bracketed (reply_time obs) text (actions (speak obs text st))
  /\ audio_paused (after (speak obs text st)) = false
  /\ last_interaction_time (after (speak obs text st)) = reply_time obs
  /\ running (speak obs text st) = true.
Proof.
  intros Hs Hp. unfold speak, bracketed.
  destruct (synthesis obs); try contradiction; simpl.
  - destruct (playback obs); try contradiction; simpl; eauto 10.
  - auto.
Qed.

Lemma answer_conversation (obs : observations) (text : string) (st : state) :
  conversation_manager (after (answer obs text st)) = conversation_manager st
  /\ device_state (after (answer obs text st)) = device_state st
  /\ reply (answer obs text st) = Some text.
Proof.
  unfold answer. destruct (String.eqb text EmptyString); [auto|].
  unfold speak. destruct (text_to_speech (synthesis obs)) as [[f|]|];
    [destruct (play_audio_file (playback obs))| |]; auto.
Qed.

Variable lib : LocalMQTTBroker.pylib.
Variable fl : MQTTClient.flags.
Variable mqtt_available : bool.
Variable m : models.

(** Every pass either takes no step of a spoken reply or runs [answer]. *)
Lemma handle_cases (obs : observations) (intent text : string)
    (context : list ConversationManager.message) (st : state) :
  (handle lib fl mqtt_available m obs intent text context st
   = {| after := st; actions := []; reply := None; running := true |})
  \/ exists r st',
       handle lib fl mqtt_available m obs intent text context st
       = answer obs r st'.
Proof.
  unfold handle.
  destruct (String.eqb intent "command").
  - right. destruct (negb _); [|eauto].
    destruct (dispatch _ _ _ _ _ _) as [r st1]. eauto.
  - destruct (String.eqb intent "chat"); [right; eauto|left; reflexivity].
Qed.

Lemma process_utterance_cases (obs : observations) (text : string) (st : state) :
  (process_utterance lib fl mqtt_available m obs text st
   = {| after := st; actions := []; reply := None; running := true |})
  \/ exists r st',
       process_utterance lib fl mqtt_available m obs text st = answer obs r st'.
Proof.
  unfold process_utterance.
  destruct (String.eqb _ "ignore"); [destruct (_ && _)|];
    auto using handle_cases.
Qed.

(** C4. In a pass that produces a non-empty reply, with synthesis and
    playback ending normally or with an error: the first step sets
    [last_interaction_time] to the current time, then comes [pause()], then
    synthesis, then playback if synthesis gave a file, and the last step is
    [resume()]; afterwards the segmenter is not paused. *)
Theorem reply_bracketed (obs : observations) (text r : string) (st : state) :
  synthesis obs <> Interrupted ->
  playback obs <> Interrupted ->
  reply (process_utterance lib fl mqtt_available m obs text st) = Some r ->
  r <> EmptyString ->
  bracketed (reply_time obs) r
    (actions (process_utterance lib fl mqtt_available m obs text st))
  /\ audio_paused (after (process_utterance lib fl mqtt_available m obs text st))
     = false
  /\ last_interaction_time
       (after (process_utterance lib fl mqtt_available m obs text st))
     = reply_time obs
  /\ running (process_utterance lib fl mqtt_available m obs text st) = true.
Proof.
  intros Hs Hp Hr Hne.
  destruct (process_utterance_cases obs text st) as [E | (r' & st' & E)];
    rewrite E in *; [discriminate|].
  destruct (answer_conversation obs r' st') as (_ & _ & Hreply).
  rewrite Hreply in Hr. inversion Hr; subst r'.
  unfold answer. apply String.eqb_neq in Hne. rewrite Hne.
  apply speak_bracketed; assumption.
Qed.

(** When [KeyboardInterrupt] passes through synthesis or playback the loop
    ends with the segmenter still paused: [resume()] is not among the
    steps. *)
Lemma speak_interrupted (obs : observations) (text : string) (st : state) :
  synthesis obs = Interrupted
  \/ (synthesis obs = Succeeds /\ playback obs = Interrupted) ->
  running (speak obs text st) = false
  /\ audio_paused (after (speak obs text st)) = true
  /\ ~ In Resume (actions (speak obs text st)).
Proof.
  unfold speak. intros [Hs | [Hs Hp]]; rewrite Hs; simpl.
  - intuition discriminate.
  - rewrite Hp. simpl. intuition discriminate.
Qed.

End Reply.

Section Arbiter.
Import Collaborators VoiceAssistant Samples.

Lemma reply_bracketed_witness :
  let obs := sample_observations Fails Succeeds in
  let out := process_utterance sample_lib local_flags true sample_models obs
               "今天天气" (sample_state 90) in
  synthesis obs <> Interrupted /\
  reply out = Some "你好"%string /\
  bracketed 105 "你好" (actions out) /\
  audio_paused (after out) = false.
Proof.
  cbv zeta. split; [discriminate|]. split; [reflexivity|].
  destruct (reply_bracketed sample_lib local_flags true sample_models
              (sample_observations Fails Succeeds) "今天天气" "你好"
              (sample_state 90)) as (Hb & Hpaused & _ & _).
  - discriminate.
  - discriminate.
  - reflexivity.
  - discriminate.
  - split; [exact Hb|exact Hpaused].
Defined.

Variable lib : LocalMQTTBroker.pylib.
Variable fl : MQTTClient.flags.
Variable mqtt_available : bool.
Variable m : models.

(** The pass of an utterance classified as [chat]. *)
Lemma chat_pass (obs : observations) (text : string) (st : state) :
  intent_of (classify m text st) = "chat"%string ->
  process_utterance lib fl mqtt_available m obs text st
  = handle lib fl mqtt_available m obs "chat" (corrected_input m text st)
      (ConversationManager.conversation_history (conversation_manager st)) st.
Proof.
  intros Hchat. unfold process_utterance. rewrite Hchat. reflexivity.
Qed.




End Arbiter.

Section ArbiterWitness.
Import Collaborators VoiceAssistant Samples.



End ArbiterWitness.

(** * Further properties *)

(** ** The segmenter beyond single utterances *)

Section SegmenterMore.
Import AudioInterface AudioControl Samples.

Variable cfg : config.

Lemma body_deaf (s : locals) (t : tick) :
  182 <= energy_threshold cfg ->
  is_speaking s = false ->
  body cfg s t = Next s None \/ body cfg s t = Break \/ body cfg s t = Raised.
Proof.
  intros Hthr Hs. unfold body.
  destruct (read t) as [data| |]; auto.
  destruct (paused t); [rewrite Hs; auto|].
  destruct (_calculate_energy data) as [e|] eqn:He; auto.
  rewrite Hs. simpl.
  rewrite (calculate_energy_bounded data e _ He Hthr). auto.
Qed.

Lemma listen_deaf (ticks : list tick) (s : locals) :
  182 <= energy_threshold cfg ->
  is_speaking s = false ->
  fst (listen_from cfg s ticks) = [].
Proof.
  intros Hthr Hs. induction ticks as [|t ticks IH]; [reflexivity|].
  cbn [listen_from].
  destruct (body_deaf s t Hthr Hs) as [-> | [-> | ->]]; auto.
Qed.

(** X1. With a threshold of 182 or more, such as the default of 1000, the
    segmenter never yields an utterance, whatever it hears: no frame has
    an energy above the threshold. *)
Theorem high_threshold_never_yields (ticks : list tick) :
  182 <= energy_threshold cfg ->
  fst (listen_for_speech cfg ticks) = [].
Proof.
  intros Hthr. apply listen_deaf; [exact Hthr|reflexivity].
Qed.

(** X2. Passes whose read raised [IOError] leave no trace: the run yields
    the same utterances and ends the same way as the run without them. *)
Theorem read_errors_skipped (s : locals) (ticks : list tick) :
  listen_from cfg s ticks
  = listen_from cfg s (List.filter (fun t => negb (read_failed t)) ticks).
Proof.
  revert s. induction ticks as [|t ticks IH]; intros s; [reflexivity|].
  cbn [List.filter]. unfold read_failed at 1.
  destruct (read t) as [data| |] eqn:Hread; cbn [negb].
  - cbn [listen_from]. destruct (body cfg s t) as [s' out| |]; auto.
    rewrite IH. reflexivity.
  - cbn [listen_from]. unfold body at 1. rewrite Hread.
    rewrite IH. destruct (listen_from cfg s _); reflexivity.
  - cbn [listen_from]. destruct (body cfg s t) as [s' out| |]; auto.
    rewrite IH. reflexivity.
Qed.

(** X3. A keyboard interrupt ends the generator: what was yielded before
    it stands, the frames buffered for an utterance in progress are lost,
    and nothing read afterwards is yielded. *)
Theorem interrupt_ends_run (s : locals) (before rest : list tick)
    (p : bool) (clock : Q) :
  fst (listen_from cfg s (before ++ interrupt p clock :: rest))
  = fst (listen_from cfg s before)
  /\ forall s', snd (listen_from cfg s (before ++ interrupt p clock :: rest))
                <> Listening s'.
Proof.
  revert s. induction before as [|t before IH]; intros s.
  - simpl. split; [reflexivity|discriminate].
  - cbn [app listen_from].
    destruct (body cfg s t) as [s1 out| |]; cbn [fst snd].
    + destruct (IH s1) as [Hy He]. rewrite Hy. split; [reflexivity|exact He].
    + split; [reflexivity|discriminate].
    + split; [reflexivity|discriminate].
Qed.

End SegmenterMore.

Section SegmenterWitnesses.
Import AudioInterface AudioControl Samples.

Lemma high_threshold_never_yields_witness :
  182 <= energy_threshold default_cfg /\
  fst (listen_for_speech default_cfg
         [heard peak_frame 0; heard peak_frame 1; heard quiet_frame 2;
          heard quiet_frame 3; heard quiet_frame 4]) = [].
Proof.
  split; [vm_compute; discriminate|].
  apply (high_threshold_never_yields default_cfg). vm_compute. discriminate.
Defined.

End SegmenterWitnesses.

Section Segments.
Import AudioInterface AudioControl Samples.

Variable cfg : config.

(** From the Idle state, a segment yields its frames as one utterance and
    leaves the segmenter Idle for what follows. *)
Lemma segment_run (loud mid rest : list tick) (s0 trig : tick) :
  segment cfg loud s0 mid trig ->
  listen_from cfg idle (segment_ticks loud s0 mid trig ++ rest)
  = (concat (map frame_of (segment_ticks loud s0 mid trig))
       :: fst (listen_from cfg idle rest),
     snd (listen_from cfg idle rest)).
Proof.
  intros (Hne & Hloud & Hs0 & Hmid & Hwait & Htrig & Hfire).
  destruct loud as [|l0 loud]; [congruence|].
  cbn [forallb] in Hloud. apply andb_true_iff in Hloud as [Hl0 Hloud].
  unfold segment_ticks. rewrite <- !app_assoc. cbn [app].
  rewrite <- !app_assoc. cbn [app].
  cbn [listen_from]. rewrite (body_idle_above cfg idle l0 eq_refl Hl0).
  rewrite (skip_speaking_above cfg _ loud _ Hloud).
  cbn [listen_from]. rewrite (body_speaking_below_arm cfg _ s0 Hs0).
  rewrite (skip_speaking_wait cfg _ (now s0) mid _ Hmid Hwait).
  cbn [listen_from].
  rewrite (body_speaking_below_fire cfg _ (now s0) trig Htrig Hfire).
  cbn [fst snd]. do 3 f_equal.
  repeat (rewrite ?map_app; cbn [map]).
  rewrite <- !app_assoc. reflexivity.
Qed.

(** X4. Two spoken segments, separated by any number of quiet passes,
    give two utterances, in the order spoken, each made of the frames of
    its own segment; the segmenter ends Idle. *)
Theorem two_segments_two_utterances
    (loud1 mid1 gap loud2 mid2 : list tick) (s1 trig1 s2 trig2 : tick) :
  segment cfg loud1 s1 mid1 trig1 ->
  forallb (below cfg) gap = true ->
  segment cfg loud2 s2 mid2 trig2 ->
  listen_for_speech cfg
    (segment_ticks loud1 s1 mid1 trig1 ++ gap
       ++ segment_ticks loud2 s2 mid2 trig2)
  = ([concat (map frame_of (segment_ticks loud1 s1 mid1 trig1));
      concat (map frame_of (segment_ticks loud2 s2 mid2 trig2))],
     Listening idle).
Proof.
  intros H1 Hgap H2. unfold listen_for_speech.
  rewrite (segment_run _ _ _ _ _ H1).
  rewrite (skip_idle_below cfg idle gap _ eq_refl Hgap).
  pose proof (segment_run loud2 mid2 [] s2 trig2 H2) as Hsecond.
  rewrite app_nil_r in Hsecond. rewrite Hsecond. reflexivity.
Qed.

(** X5. A hesitation inside a segment, quiet passes that end before the
    silence limit because speech resumes, does not split the utterance:
    the frames before, during and after the hesitation are yielded as one
    utterance when the closing silence times out. *)
Theorem hesitation_does_not_split
    (loud1 gap loud2 mid : list tick) (g0 s0 trig : tick) :
  loud1 <> [] ->
  forallb (above cfg) loud1 = true ->
  hesitation cfg g0 gap ->
  segment cfg loud2 s0 mid trig ->
  listen_for_speech cfg
    (loud1 ++ g0 :: gap ++ segment_ticks loud2 s0 mid trig)
  = ([concat (map frame_of
                (loud1 ++ g0 :: gap ++ segment_ticks loud2 s0 mid trig))],
     Listening idle).
Proof.
  intros Hne Hloud1 (Hg0 & Hgap & Hwithin)
         (Hne2 & Hloud2 & Hs0 & Hmid & Hwait & Htrig & Hfire).
  destruct loud1 as [|l0 loud1]; [congruence|].
  destruct loud2 as [|r0 loud2]; [congruence|].
  cbn [forallb] in Hloud1, Hloud2.
  apply andb_true_iff in Hloud1 as [Hl0 Hloud1].
  apply andb_true_iff in Hloud2 as [Hr0 Hloud2].
  unfold listen_for_speech, segment_ticks. cbn [app].
  cbn [listen_from]. rewrite (body_idle_above cfg idle l0 eq_refl Hl0).
  rewrite (skip_speaking_above cfg _ loud1 _ Hloud1).
  cbn [listen_from]. rewrite (body_speaking_below_arm cfg _ g0 Hg0).
  rewrite (skip_speaking_wait cfg _ (now g0) gap _ Hgap Hwithin).
  cbn [listen_from]. rewrite (body_speaking_above cfg _ _ r0 Hr0).
  rewrite (skip_speaking_above cfg _ loud2 _ Hloud2).
  cbn [listen_from]. rewrite (body_speaking_below_arm cfg _ s0 Hs0).
  rewrite (skip_speaking_wait cfg _ (now s0) mid _ Hmid Hwait).
  cbn [listen_from].
  rewrite (body_speaking_below_fire cfg _ (now s0) trig Htrig Hfire).
  cbn [fst snd]. do 3 f_equal.
  repeat (rewrite ?map_app; cbn [map]).
  rewrite <- !app_assoc. reflexivity.
Qed.

(** Every utterance under way, and so every utterance yielded, begins
    with a frame that was above the threshold. *)
Lemma body_starts_loud (pool : list tick) (s s' : locals) (t : tick)
    (out : option (list byte)) :
  (is_speaking s = true ->
   exists t0 fs, In t0 pool /\ above cfg t0 = true /\
                 frames s = frame_of t0 :: fs) ->
  body cfg s t = Next s' out ->
  (is_speaking s' = true ->
   exists t0 fs, In t0 (t :: pool) /\ above cfg t0 = true /\
                 frames s' = frame_of t0 :: fs)
  /\ (forall u, out = Some u ->
      exists t0 rest, In t0 (t :: pool) /\ above cfg t0 = true /\
                      u = frame_of t0 ++ rest).
Proof.
  intros Hinv. unfold body.
  destruct (read t) as [data| |] eqn:Hread; try discriminate.
  - destruct (paused t) eqn:Hp.
    + destruct (is_speaking s) eqn:Hs; intros H; inversion H; subst.
      * split; [discriminate|discriminate].
      * split; [congruence|discriminate].
    + destruct (_calculate_energy data) as [e|] eqn:He; [|discriminate].
      assert (Habove : energy_gt e (energy_threshold cfg) = true ->
                       above cfg t = true).
      { intros Hgt. unfold above. rewrite Hread, Hp, He, Hgt. reflexivity. }
      destruct (is_speaking s) eqn:Hs; cbn [negb].
      * destruct (Hinv eq_refl) as (t0 & fs & Hin & Ht0 & Hfs).
        assert (Hkeep : exists t1 fs1, In t1 (t :: pool) /\ above cfg t1 = true
                        /\ frames s ++ [data] = frame_of t1 :: fs1).
        { exists t0. eexists. rewrite Hfs. simpl.
          split; [right; exact Hin|split; [exact Ht0|reflexivity]]. }
        destruct (energy_gt e (energy_threshold cfg)).
        { intros H; inversion H; subst. split; [auto|discriminate]. }
        destruct (silence_start s) as [start|].
        { destruct (Qltb _ _); intros H; inversion H; subst.
          - split; [discriminate|]. intros u Hu. inversion Hu; subst.
            exists t0. eexists. rewrite Hfs. simpl.
            split; [right; exact Hin|split; [exact Ht0|reflexivity]].
          - split; [auto|discriminate]. }
        { intros H; inversion H; subst. split; [auto|discriminate]. }
      * destruct (energy_gt e (energy_threshold cfg)) eqn:Hgt;
          intros H; inversion H; subst.
        { split; [|discriminate]. intros _. exists t. eexists. simpl.
          split; [left; reflexivity|split; [auto|]].
          unfold frame_of. rewrite Hread. reflexivity. }
        { split; [congruence|discriminate]. }
  - intros H; inversion H; subst. split; [|discriminate].
    intros Hs. destruct (Hinv Hs) as (t0 & fs & Hin & Ht0 & Hfs).
    exists t0, fs. simpl. auto.
Qed.

Lemma listen_starts_loud (ticks pool : list tick) (s : locals) :
  (is_speaking s = true ->
   exists t0 fs, In t0 pool /\ above cfg t0 = true /\
                 frames s = frame_of t0 :: fs) ->
  forall u, In u (fst (listen_from cfg s ticks)) ->
  exists t0 rest, In t0 (pool ++ ticks) /\ above cfg t0 = true /\
                  u = frame_of t0 ++ rest.
Proof.
  revert pool s. induction ticks as [|t ticks IH]; intros pool s Hinv u Hu.
  - destruct Hu.
  - cbn [listen_from] in Hu.
    destruct (body cfg s t) as [s' out| |] eqn:Hbody; try destruct Hu.
    destruct (body_starts_loud pool s s' t out Hinv Hbody) as [Hinv' Hout].
    assert (Hwiden : forall t0, In t0 (t :: pool) -> In t0 (pool ++ t :: ticks)).
    { intros t0 [-> | Hin]; apply in_or_app; [right; left; reflexivity|].
      left. exact Hin. }
    assert (Hlater : In u (fst (listen_from cfg s' ticks)) ->
            exists t0 rest, In t0 (pool ++ t :: ticks) /\ above cfg t0 = true /\
                            u = frame_of t0 ++ rest).
    { intros Hin. destruct (IH (t :: pool) s' Hinv' u Hin)
        as (t0 & rest & Hin0 & Ht0 & Hu0).
      exists t0, rest. split; [|auto].
      apply in_app_or in Hin0 as [Hin0 | Hin0];
        [apply Hwiden; exact Hin0|].
      apply in_or_app. right. right. exact Hin0. }
    cbn [fst] in Hu. destruct out as [u0|]; [|auto].
    destruct Hu as [<- | Hu]; [|auto].
    destruct (Hout u0 eq_refl) as (t0 & rest & Hin0 & Ht0 & Hu0).
    exists t0, rest. auto.
Qed.

(** X6. Every utterance the segmenter yields begins with the bytes of a
    frame that was read above the threshold: no utterance is made of
    silence alone. *)
Theorem utterance_starts_loud (ticks : list tick) (u : list byte) :
  In u (fst (listen_for_speech cfg ticks)) ->
  exists t rest, In t ticks /\ above cfg t = true /\ u = frame_of t ++ rest.
Proof.
  intros Hu. apply (listen_starts_loud ticks [] idle); [discriminate|exact Hu].
Qed.

End Segments.

Section SegmentWitnesses.
Import AudioInterface AudioControl Samples.

Ltac check_segment :=
  unfold segment, hesitation;
  repeat split; try discriminate; try reflexivity;
  repeat constructor; vm_compute; discriminate.

Lemma sample_segment_0 :
  segment assistant_cfg [heard loud_frame 0]
    (heard quiet_frame 1) [heard quiet_frame 2] (heard quiet_frame 3).
Proof. check_segment. Qed.

Lemma sample_segment_10 :
  segment assistant_cfg [heard loud_frame 10]
    (heard quiet_frame 11) [heard quiet_frame 12] (heard quiet_frame 13).
Proof. check_segment. Qed.

Lemma two_segments_two_utterances_witness :
  segment assistant_cfg [heard loud_frame 0] (heard quiet_frame 1)
    [heard quiet_frame 2] (heard quiet_frame 3) /\
  fst (listen_for_speech assistant_cfg
         (segment_ticks [heard loud_frame 0] (heard quiet_frame 1)
            [heard quiet_frame 2] (heard quiet_frame 3)
          ++ [heard quiet_frame 5]
          ++ segment_ticks [heard loud_frame 10] (heard quiet_frame 11)
               [heard quiet_frame 12] (heard quiet_frame 13)))
  = [loud_frame ++ quiet_frame ++ quiet_frame ++ quiet_frame;
     loud_frame ++ quiet_frame ++ quiet_frame ++ quiet_frame].
Proof.
  split; [exact sample_segment_0|].
  rewrite (two_segments_two_utterances assistant_cfg
             [heard loud_frame 0] [heard quiet_frame 2]
             [heard quiet_frame 5]
             [heard loud_frame 10] [heard quiet_frame 12]
             (heard quiet_frame 1) (heard quiet_frame 3)
             (heard quiet_frame 11) (heard quiet_frame 13)).
  - reflexivity.
  - exact sample_segment_0.
  - reflexivity.
  - exact sample_segment_10.
Defined.

Lemma hesitation_does_not_split_witness :
  hesitation assistant_cfg (heard quiet_frame 1) [heard quiet_frame 2] /\
  fst (listen_for_speech assistant_cfg
         ([heard loud_frame 0] ++ heard quiet_frame 1 :: [heard quiet_frame 2]
          ++ segment_ticks [heard loud_frame 10] (heard quiet_frame 11)
               [heard quiet_frame 12] (heard quiet_frame 13)))
  = [loud_frame ++ quiet_frame ++ quiet_frame
     ++ loud_frame ++ quiet_frame ++ quiet_frame ++ quiet_frame].
Proof.
  assert (Hhes : hesitation assistant_cfg (heard quiet_frame 1)
                   [heard quiet_frame 2]).
  { split; [reflexivity|]. split; [reflexivity|].
    repeat constructor. vm_compute. discriminate. }
  split; [exact Hhes|].
  rewrite (hesitation_does_not_split assistant_cfg [heard loud_frame 0]
             [heard quiet_frame 2] [heard loud_frame 10]
             [heard quiet_frame 12] (heard quiet_frame 1)
             (heard quiet_frame 11) (heard quiet_frame 13)).
  - reflexivity.
  - discriminate.
  - reflexivity.
  - exact Hhes.
  - exact sample_segment_10.
Defined.

Lemma utterance_starts_loud_witness :
  In (loud_frame ++ quiet_frame ++ quiet_frame ++ quiet_frame)
     (fst (listen_for_speech assistant_cfg
             [heard quiet_frame 0; heard loud_frame 1; heard quiet_frame 2;
              heard quiet_frame 3; heard quiet_frame 4])) /\
  exists t rest,
    In t [heard quiet_frame 0; heard loud_frame 1; heard quiet_frame 2;
          heard quiet_frame 3; heard quiet_frame 4] /\
    above assistant_cfg t = true /\
    loud_frame ++ quiet_frame ++ quiet_frame ++ quiet_frame
    = frame_of t ++ rest.
Proof.
  assert (Hin : In (loud_frame ++ quiet_frame ++ quiet_frame ++ quiet_frame)
     (fst (listen_for_speech assistant_cfg
             [heard quiet_frame 0; heard loud_frame 1; heard quiet_frame 2;
              heard quiet_frame 3; heard quiet_frame 4]))).
  { left. reflexivity. }
  split; [exact Hin|].
  exact (utterance_starts_loud assistant_cfg _ _ Hin).
Defined.

End SegmentWitnesses.

(** ** The conversation history *)

Section Conversation.
Import LocalMQTTBroker ConversationManager ConversationQueries Samples.

Lemma deque_append_length {A : Type} (maxlen : nat) (d : list A) (x : A) :
  length (deque_append maxlen d x) = Nat.min (S (length d)) maxlen.
Proof.
  unfold deque_append. rewrite length_skipn, length_app.
  cbn [length]. lia.
Qed.

Lemma deque_append_suffix {A : Type} (maxlen : nat) (d : list A) (x : A) :
  d ++ [x]
  = firstn (length (d ++ [x]) - maxlen) (d ++ [x]) ++ deque_append maxlen d x.
Proof. unfold deque_append. symmetry. apply firstn_skipn. Qed.

(** X7. The history never holds more than [max_history] messages: after
    [add_message] its length is the smaller of the old length plus one and
    [max_history]; with [max_history = 0] it stays empty. *)
Theorem add_message_bounded (cm : t) (role content : string)
    (command : option DeviceState.command) (now : string) :
  length (conversation_history (add_message cm role content command now))
  = Nat.min (S (length (conversation_history cm))) (max_history cm)
  /\ (length (conversation_history (add_message cm role content command now))
      <= max_history cm)%nat.
Proof.
  unfold add_message. cbn [conversation_history].
  rewrite deque_append_length. split; lia.
Qed.

(** X8. With room for at least one message, [add_message] leaves the new
    message as the newest entry; the entries kept are the newest ones in
    their order, only the oldest are dropped, and none is dropped while
    the history is below [max_history]. *)
Theorem add_message_keeps_newest (cm : t) (role content : string)
    (command : option DeviceState.command) (now : string) :
  (0 < max_history cm)%nat ->
  let msg := {| role := role; content := content; timestamp := now;
                ConversationManager.command := command |} in
  let history' :=
    conversation_history (add_message cm role content command now) in
  last history' = Some msg
  /\ (exists dropped, conversation_history cm ++ [msg] = dropped ++ history')
  /\ ((length (conversation_history cm) < max_history cm)%nat ->
      history' = conversation_history cm ++ [msg]).
Proof.
  intros Hroom. cbv zeta. unfold add_message. cbn [conversation_history].
  set (msg := {| role := role; content := content; timestamp := now;
                 ConversationManager.command := command |}).
  split; [|split].
  - unfold deque_append.
    assert (Hlen : (length (conversation_history cm ++ [msg])
                    - max_history cm <= length (conversation_history cm))%nat)
      by (rewrite length_app; simpl; lia).
    rewrite skipn_app.
    replace (length (conversation_history cm ++ [msg]) - max_history cm
             - length (conversation_history cm))%nat with O by lia.
    simpl. apply last_snoc.
  - eexists. apply deque_append_suffix.
  - intros Hbelow. unfold deque_append.
    replace (length (conversation_history cm ++ [msg]) - max_history cm)%nat
      with O by (rewrite length_app; simpl; lia).
    reflexivity.
Qed.

Lemma add_message_keeps_newest_witness :
  (0 < max_history full_conversation)%nat /\
  conversation_history
    (add_message full_conversation "user" "开灯" None "t3")
  = [said "assistant" "你好" "t2"; said "user" "开灯" "t3"].
Proof.
  split; [vm_compute; lia|].
  destruct (add_message_keeps_newest full_conversation "user" "开灯" None "t3")
    as (_ & _ & _); [vm_compute; lia|].
  reflexivity.
Defined.

(** X9. [get_recent_history(n)] gives the last [n] messages, all of them
    when there are fewer, for a positive [n]; for [n = 0] it gives the
    whole history, not the empty list. *)
Theorem get_recent_history_slice (cm : t) :
  get_recent_history cm 0 = conversation_history cm
  /\ forall n, 0 < n ->
       length (get_recent_history cm n)
       = Nat.min (Z.to_nat n) (length (conversation_history cm))
       /\ exists older,
            conversation_history cm = older ++ get_recent_history cm n.
Proof.
  split; [reflexivity|]. intros n Hn.
  unfold get_recent_history, last_slice.
  replace (n =? 0) with false by (symmetry; apply Z.eqb_neq; lia).
  replace (0 <? n) with true by (symmetry; apply Z.ltb_lt; lia).
  split.
  - rewrite length_skipn. lia.
  - eexists. symmetry. apply firstn_skipn.
Qed.

Lemma get_recent_history_slice_witness :
  0 < 1 /\
  get_recent_history full_conversation 1 = [said "assistant" "你好" "t2"] /\
  get_recent_history full_conversation 0
  = conversation_history full_conversation.
Proof.
  split; [lia|]. split; [reflexivity|].
  apply (get_recent_history_slice full_conversation).
Defined.

Lemma get_recent_commands_app (a b : list (option pydict)) :
  get_recent_commands (a ++ b) = get_recent_commands a ++ get_recent_commands b.
Proof.
  induction a as [|[[|kv d]|] a IH]; cbn [app get_recent_commands]; auto.
  destruct (dict_get "commands" (kv :: d)) as [[| | | |cs|]|];
    rewrite IH; try reflexivity.
  rewrite app_assoc. reflexivity.
Qed.

(** X10. The two queries agree: the device last mentioned is the type of
    the last of the recent commands. Messages without a command, with an
    empty dict or with an empty list of commands are passed over; a last
    command that is not a dict makes the lookup fail. *)
Theorem last_device_is_last_command (commands : list (option pydict)) :
  get_last_device_mentioned commands
  = type_of_last (get_recent_commands commands).
Proof.
  unfold get_last_device_mentioned.
  induction commands as [|x commands IH] using rev_ind; [reflexivity|].
  rewrite rev_app_distr, get_recent_commands_app. cbn [rev app].
  unfold type_of_last in *.
  destruct x as [[|kv d]|]; cbn [last_device get_recent_commands].
  - rewrite app_nil_r. exact IH.
  - destruct (dict_get "commands" (kv :: d)) as [[| | | |cs|]|];
      try (rewrite last_snoc; reflexivity).
    rewrite app_nil_r, last_app.
    destruct (last cs) as [[| | | | |fields]|]; auto.
  - rewrite app_nil_r. exact IH.
Qed.

End Conversation.

(** ** The device store *)

Section DeviceStore.
Import DeviceState DeviceQueries Samples.

Lemma init_well_formed : well_formed init.
Proof.
  split; [exact init_dom|]. split.
  - intros ty info Hty Hne. unfold init in Hty.
    repeat (apply lookup_insert_Some in Hty as [[<- <-] | [? Hty]]);
      try congruence; try (rewrite lookup_empty in Hty; discriminate);
      (split; [eexists; split; [reflexivity|unfold state_allowed; simpl; auto]
              |split; eexists; reflexivity]).
  - intros info Hty. unfold init in Hty.
    repeat (apply lookup_insert_Some in Hty as [[Hk <-] | [? Hty]]);
      try discriminate; try congruence;
      try (rewrite lookup_empty in Hty; discriminate).
    split; [reflexivity|eexists; reflexivity].
Qed.

Lemma update_state_well_formed (d : devices_t) (cmd : command) (now : string) :
  well_formed d -> well_formed (update_state d cmd now).
Proof.
  intros (Hdom & Hswitch & Htemp).
  split; [rewrite update_state_dom; exact Hdom|].
  unfold update_state.
  destruct (cmd_type cmd) as [ty|]; [|split; assumption].
  destruct (d !! ty) as [info|] eqn:Hinfo; [|split; assumption].
  destruct (decide (ty = "temperature"%string)) as [-> | Hne].
  - destruct (Htemp info Hinfo) as [Hvalue Hcheck]. split.
    + intros ty' info' Hty' Hne'.
      rewrite lookup_insert_ne in Hty' by congruence. eauto.
    + intros info' Hinfo'. rewrite lookup_insert_eq in Hinfo'.
      inversion Hinfo'; subst.
      rewrite lookup_insert_ne by discriminate. split; [exact Hvalue|].
      rewrite lookup_insert_eq. eauto.
  - destruct (Hswitch ty info Hinfo Hne) as ((v & Hv & Hallowed) & Haction & Hupdate).
    cbv zeta. split.
    + intros ty' info' Hty' Hne'.
      destruct (decide (ty = ty')) as [<- | Hother].
      * rewrite lookup_insert_eq in Hty'. inversion Hty'; subst. clear Hty'.
        split; [|split; [rewrite lookup_insert_ne by discriminate;
                         rewrite lookup_insert_eq; eauto
                        |rewrite lookup_insert_eq; eauto]].
        rewrite !lookup_insert_ne by discriminate.
        unfold state_allowed in *.
        destruct (decide (cmd_action cmd = Some "开"%string));
          [|destruct (decide (cmd_action cmd = Some "关"%string))];
          destruct (decide (ty = "window"%string));
          try (rewrite lookup_insert_eq; eexists; split; [reflexivity|auto]);
          eauto.
      * rewrite lookup_insert_ne in Hty' by exact Hother. eauto.
    + intros info' Hinfo'.
      rewrite lookup_insert_ne in Hinfo' by exact Hne. eauto.
Qed.

(** X11. In every device store reached from a new [DeviceState] by calls
    of [update_state], whatever the commands: the four devices are there,
    the state of the light and of the air conditioner is "on" or "off",
    the state of the window is "open" or "closed", and the temperature
    record never gets a [last_value]. *)
Theorem reachable_store_well_formed (calls : list (command * string)) :
  well_formed (after_updates calls).
Proof.
  unfold after_updates. generalize init_well_formed. generalize init.
  induction calls as [|c calls IH]; intros d Hd; simpl; [exact Hd|].
  apply IH, update_state_well_formed, Hd.
Qed.

(** X12. Applying the same command again changes nothing but the time
    stamp: two applications at times [t1] and [t2] leave the store that
    one application at [t2] leaves. *)
Theorem update_state_twice (d : devices_t) (cmd : command) (t1 t2 : string) :
  update_state (update_state d cmd t1) cmd t2 = update_state d cmd t2.
Proof.
  unfold update_state.
  destruct (cmd_type cmd) as [ty|] eqn:Hty; [|rewrite ?Hty; reflexivity].
  destruct (d !! ty) as [info|] eqn:Hinfo; [|rewrite Hinfo; reflexivity].
  destruct (decide (ty = "temperature"%string)) as [-> | Hne].
  - rewrite lookup_insert_eq. rewrite insert_insert_eq.
    f_equal. rewrite insert_insert_eq. reflexivity.
  - cbv zeta. rewrite lookup_insert_eq, insert_insert_eq. f_equal.
    apply map_eq. intros k.
    destruct (decide (cmd_action cmd = Some "开"%string));
      [|destruct (decide (cmd_action cmd = Some "关"%string))];
      destruct (decide (ty = "window"%string));
      rewrite ?lookup_insert; repeat case_decide; subst;
      try reflexivity; try congruence.
Qed.

Lemma ltb_asym (a b : string) : String.ltb a b = true -> String.ltb b a = false.
Proof.
  unfold String.ltb. rewrite (String.compare_antisym b a).
  destruct (String.compare a b); simpl; congruence.
Qed.

(** Once the scan holds a device whose stamp no later device exceeds, it
    returns that device. *)
Lemma scan_keeps (d : devices_t) (keys : list string) (ty now : string) :
  Forall (fun k => forall s, stamp_of d k = Some s -> String.ltb now s = false)
         keys ->
  scan_devices d keys (Some ty) (Some now) = Some ty.
Proof.
  induction 1 as [|k keys Hk _ IH]; [reflexivity|].
  cbn [scan_devices]. destruct (stamp_of d k) as [s|]; [|exact IH].
  rewrite (Hk s eq_refl), andb_false_r. exact IH.
Qed.

Lemma scan_picks (d : devices_t) (keys : list string) (ty now : string)
    (best : option string) (best_time : option string) :
  NoDup keys -> In ty keys ->
  stamp_of d ty = Some now -> now <> EmptyString ->
  (forall k s, k <> ty -> stamp_of d k = Some s -> String.ltb s now = true) ->
  (forall b, best_time = Some b -> String.ltb b now = true) ->
  scan_devices d keys best best_time = Some ty.
Proof.
  intros Hnodup. revert best best_time.
  induction Hnodup as [|k keys Hnotin Hnodup IH];
    intros best best_time Hin Hstamp Hnow Hothers Hbest; [destruct Hin|].
  cbn [scan_devices]. destruct Hin as [-> | Hin].
  - rewrite Hstamp. apply String.eqb_neq in Hnow. rewrite Hnow. cbn [negb andb].
    assert (Hgt : match best_time with
                  | Some b => String.ltb b now
                  | None => true
                  end = true)
      by (destruct best_time as [b|]; [apply Hbest; reflexivity|reflexivity]).
    rewrite Hgt. apply scan_keeps. apply Forall_forall. intros k Hk s Hs.
    apply ltb_asym, (Hothers k); [|exact Hs].
    intros ->. apply Hnotin. exact Hk.
  - assert (Hne : k <> ty).
    { intros ->. apply Hnotin. apply list_elem_of_In. exact Hin. }
    destruct (stamp_of d k) as [s|] eqn:Hs; [|apply IH; assumption].
    destruct (negb (String.eqb s EmptyString) && _).
    + apply IH; try assumption.
      intros b Hb. inversion Hb; subst. apply (Hothers k); assumption.
    + apply IH; assumption.
Qed.

(** X13. After [update_state] for one of the four devices at a time
    [now] that is later than every time stamp in the store,
    [get_recently_operated_device] names that device. *)
Theorem recently_operated_after_update (d : devices_t) (cmd : command)
    (ty now : string) :
  dom d = device_types ->
  cmd_type cmd = Some ty -> ty ∈ device_types ->
  now <> EmptyString ->
  (forall k s, stamp_of d k = Some s -> String.ltb s now = true) ->
  get_recently_operated_device (update_state d cmd now) = Some ty.
Proof.
  intros Hdom Hty Hin Hnow Hearlier.
  assert (Hinfo : is_Some (d !! ty)) by (apply elem_of_dom; rewrite Hdom; exact Hin).
  destruct Hinfo as [info Hinfo].
  unfold get_recently_operated_device.
  apply (scan_picks _ _ ty now).
  - unfold device_order. repeat constructor; set_solver.
  - unfold device_types, device_order in *.
    apply list_elem_of_In. set_solver.
  - unfold stamp_of, update_state. rewrite Hty, Hinfo.
    destruct (decide (ty = "temperature"%string)) as [Heq | Hne];
      cbv zeta; rewrite !lookup_insert_eq; reflexivity.
  - exact Hnow.
  - intros k s Hk Hs. apply (Hearlier k).
    unfold stamp_of, update_state in Hs. rewrite Hty, Hinfo in Hs.
    unfold stamp_of.
    destruct (decide (ty = "temperature"%string));
      cbv zeta in Hs; rewrite lookup_insert_ne in Hs by congruence; exact Hs.
  - discriminate.
Qed.

End DeviceStore.

Section DeviceStoreWitnesses.
Import DeviceState DeviceQueries Samples.

Lemma init_no_stamps (k : string) : stamp_of init k = None.
Proof.
  unfold stamp_of. destruct (init !! k) as [info|] eqn:E; [|reflexivity].
  unfold init in E.
  repeat (apply lookup_insert_Some in E as [[<- <-] | [? E]]);
    try reflexivity.
  rewrite lookup_empty in E. discriminate.
Qed.

Lemma recently_operated_after_update_witness :
  dom init = device_types /\
  cmd_type light_on = Some "light"%string /\
  get_recently_operated_device
    (update_state init light_on "2025-01-01T08:00:00")
  = Some "light"%string.
Proof.
  split; [exact init_dom|]. split; [reflexivity|].
  apply (recently_operated_after_update init light_on "light"
           "2025-01-01T08:00:00" init_dom eq_refl).
  - unfold device_types. set_solver.
  - discriminate.
  - intros k s Hs. rewrite init_no_stamps in Hs. discriminate.
Defined.

End DeviceStoreWitnesses.

(** ** The broker: subscriptions, same-process delivery, reading *)

Section BrokerMore.
Import LocalMQTTBroker TailerSpec BrokerFacts Samples.

Lemma existsb_eqb_In (qid : nat) (subs : list nat) :
  existsb (Nat.eqb qid) subs = true <-> qid ∈ subs.
Proof.
  rewrite existsb_exists. split.
  - intros (x & Hin & Heq). apply Nat.eqb_eq in Heq. subst.
    apply list_elem_of_In. exact Hin.
  - intros Hin. exists qid. split; [apply list_elem_of_In; exact Hin|].
    apply Nat.eqb_refl.
Qed.

(** X14. [subscribe] lists the queue under the topic, leaves the other
    topics and the queues themselves alone, never lists a queue twice, and
    subscribing the same queue again changes nothing. *)
Theorem subscribe_once (b : broker) (topic : string) (qid : nat) :
  qid ∈ subscribers (subscribe b topic qid) topic
  /\ (forall other, other <> topic ->
        subscriptions (subscribe b topic qid) !! other
        = subscriptions b !! other)
  /\ queues (subscribe b topic qid) = queues b
  /\ (NoDup (subscribers b topic) ->
      NoDup (subscribers (subscribe b topic qid) topic))
  /\ subscribe (subscribe b topic qid) topic qid = subscribe b topic qid.
Proof.
  assert (Hsubs : subscribers (subscribe b topic qid) topic
                  = if existsb (Nat.eqb qid) (subscribers b topic)
                    then subscribers b topic
                    else subscribers b topic ++ [qid]).
  { unfold subscribers, subscribe.
    destruct (existsb _ _); cbn [subscriptions];
      rewrite lookup_insert_eq; reflexivity. }
  split; [|split; [|split; [|split]]].
  - rewrite Hsubs. destruct (existsb _ _) eqn:E.
    + apply existsb_eqb_In. exact E.
    + apply elem_of_app. right. apply list_elem_of_singleton. reflexivity.
  - intros other Hother. unfold subscribe.
    destruct (existsb _ _); cbn [subscriptions];
      rewrite lookup_insert_ne by congruence; reflexivity.
  - unfold subscribe. destruct (existsb _ _); reflexivity.
  - intros Hnodup. rewrite Hsubs. destruct (existsb _ _) eqn:E; [exact Hnodup|].
    apply NoDup_app. split; [exact Hnodup|]. split; [|apply NoDup_singleton].
    intros x Hx Hx'. apply list_elem_of_singleton in Hx'. subst.
    apply existsb_eqb_In in Hx. congruence.
  - assert (Hin : existsb (Nat.eqb qid)
                    (subscribers (subscribe b topic qid) topic) = true).
    { rewrite Hsubs. destruct (existsb _ _) eqn:E; [exact E|].
      apply existsb_eqb_In. apply elem_of_app. right.
      apply list_elem_of_singleton. reflexivity. }
    unfold subscribe at 1. fold (subscribers (subscribe b topic qid) topic).
    rewrite Hin. rewrite Hsubs.
    unfold subscribe. fold (subscribers b topic).
    destruct (existsb _ _); cbn [subscriptions queues];
      rewrite insert_insert_eq; reflexivity.
Qed.

Lemma notify_other (qs : gmap nat queue) (subs : list nat) (m : json) (qid : nat) :
  qid ∉ subs -> notify qs subs m !! qid = qs !! qid.
Proof.
  revert qs. induction subs as [|x subs IH]; intros qs Hnotin; [reflexivity|].
  apply not_elem_of_cons in Hnotin as [Hne Hnotin].
  cbn [notify]. destruct (qs !! x) as [q|]; [|apply IH; exact Hnotin].
  destruct (put_nowait q m) as [q'|]; [|apply IH; exact Hnotin].
  rewrite IH by exact Hnotin. apply lookup_insert_ne. congruence.
Qed.

Lemma notify_listed (qs : gmap nat queue) (subs : list nat) (m : json) (qid : nat) :
  NoDup subs -> qid ∈ subs ->
  notify qs subs m !! qid = offered m <$> (qs !! qid).
Proof.
  intros Hnodup. revert qs.
  induction Hnodup as [|x subs Hnotin Hnodup IH]; intros qs Hin.
  - inversion Hin.
  - cbn [notify]. apply elem_of_cons in Hin as [-> | Hin].
    + unfold offered. destruct (qs !! x) as [q|] eqn:Hq.
      * destruct (put_nowait q m) as [q'|] eqn:Hput.
        -- rewrite notify_other by exact Hnotin.
           rewrite lookup_insert_eq. simpl. rewrite Hput. reflexivity.
        -- rewrite notify_other by exact Hnotin. rewrite Hq. simpl.
           rewrite Hput. reflexivity.
      * rewrite notify_other by exact Hnotin. rewrite Hq. reflexivity.
    + assert (Hne : x <> qid) by (intros ->; contradiction).
      destruct (qs !! x) as [q|]; [|apply IH; exact Hin].
      destruct (put_nowait q m) as [q'|]; [|apply IH; exact Hin].
      rewrite IH by exact Hin. rewrite lookup_insert_ne by exact Hne.
      reflexivity.
Qed.

(** X15. The same-process delivery of [publish]: when the write succeeds,
    every queue subscribed to the topic is offered the message once, which
    puts it behind the queued ones if there is room and is dropped
    otherwise, the queued messages staying (unlike the tailer's delivery,
    nothing is evicted); queues not subscribed to the topic are untouched;
    and when the write fails no queue is offered anything. *)
Theorem publish_notifies (lib : pylib) (b : broker) (disk : storage)
    (topic payload timestamp : string) (qid : nat) :
  NoDup (subscribers b topic) ->
  queues (snd (fst (publish lib b disk topic payload timestamp))) !! qid
  = if writable disk && bool_decide (qid ∈ subscribers b topic)
    then offered (broker_message topic payload timestamp) <$> (queues b !! qid)
    else queues b !! qid.
Proof.
  intros Hnodup. unfold publish, subscribers in *.
  destruct (writable disk); cbn [fst snd andb]; [|reflexivity].
  destruct (subscriptions b !! topic) as [subs|] eqn:Hsubs; cbn [default] in *.
  - cbn [queues]. case_bool_decide as Hin.
    + apply notify_listed; assumption.
    + apply notify_other; assumption.
  - case_bool_decide as Hin; [inversion Hin|reflexivity].
Qed.

Lemma offered_room (m : json) (q : queue) :
  full q = false ->
  offered m q = {| maxsize := maxsize q; items := items q ++ [m] |}.
Proof. intros H. unfold offered, put_nowait. rewrite H. reflexivity. Qed.

Lemma offered_full (m : json) (q : queue) : full q = true -> offered m q = q.
Proof. intros H. unfold offered, put_nowait. rewrite H. reflexivity. Qed.

End BrokerMore.

Section BrokerMoreWitnesses.
Import LocalMQTTBroker TailerSpec BrokerFacts Samples.

Lemma subscribe_once_witness :
  NoDup (subscribers sample_broker "smart_home/command") /\
  NoDup (subscribers (subscribe sample_broker "smart_home/command" 7)
           "smart_home/command").
Proof.
  assert (H : NoDup (subscribers sample_broker "smart_home/command")).
  { vm_compute. repeat constructor; set_solver. }
  split; [exact H|].
  destruct (subscribe_once sample_broker "smart_home/command" 7)
    as (_ & _ & _ & Hnodup & _).
  exact (Hnodup H).
Defined.

Lemma publish_notifies_witness :
  NoDup (subscribers sample_broker "smart_home/command") /\
  queues (snd (fst (publish sample_lib sample_broker
                      {| file := None; writable := true |}
                      "smart_home/command" "light on" "t1"))) !! O
  = Some {| maxsize := 1; items := [msg1] |}.
Proof.
  assert (H : NoDup (subscribers sample_broker "smart_home/command")).
  { vm_compute. repeat constructor; set_solver. }
  split; [exact H|].
  rewrite (publish_notifies sample_lib sample_broker
             {| file := None; writable := true |}
             "smart_home/command" "light on" "t1" O H).
  reflexivity.
Defined.

End BrokerMoreWitnesses.

Section Reading.
Import LocalMQTTBroker TailerSpec BrokerFacts Samples.

Lemma concat_lines_cons (l : string) (ls : list string) :
  String.concat EmptyString (l :: ls)
  = (l ++ String.concat EmptyString ls)%string.
Proof.
  destruct ls as [|l' ls]; cbn [String.concat].
  - rewrite str_app_nil_r. reflexivity.
  - reflexivity.
Qed.

Lemma readlines_concat (s acc : string) :
  no_cr s = true ->
  String.concat EmptyString (readlines acc s) = (acc ++ s)%string.
Proof.
  revert acc. induction s as [|c s IH]; intros acc Hs.
  - cbn [readlines]. destruct (String.eqb acc EmptyString) eqn:E.
    + apply String.eqb_eq in E. subst. reflexivity.
    + cbn [String.concat]. rewrite str_app_nil_r. reflexivity.
  - cbn [no_cr] in Hs. apply andb_true_iff in Hs as [Hc Hs].
    apply negb_true_iff in Hc. cbn [readlines]. rewrite Hc.
    destruct (Ascii.eqb c LF) eqn:Hlf.
    + apply Ascii.eqb_eq in Hlf. subst c.
      rewrite concat_lines_cons, (IH EmptyString Hs).
      unfold newline. rewrite str_app_assoc. reflexivity.
    + rewrite (IH _ Hs), str_app_assoc. reflexivity.
Qed.

(** X16. Reading a text without carriage returns line by line loses
    nothing: the lines, joined, are the text. *)
Theorem readlines_round_trip (s : string) :
  no_cr s = true ->
  String.concat EmptyString (readlines EmptyString s) = s.
Proof. intros Hs. apply (readlines_concat s EmptyString Hs). Qed.

Lemma readlines_round_trip_witness :
  no_cr sample_log = true /\
  String.concat EmptyString (readlines EmptyString sample_log) = sample_log.
Proof.
  split; [reflexivity|]. apply (readlines_round_trip sample_log). reflexivity.
Defined.

(** X17. A cycle over a file that has not changed since the previous
    cycle delivers nothing and leaves the tailer as it is, provided the
    previous cycle could read what it had to read. *)
Theorem poll_unchanged_file (lib : pylib) (topics : list string)
    (content : string) (st : tailer) :
  ((read_from st (String.length content) < String.length content)%nat ->
   readable lib content (read_from st (String.length content)) = true) ->
  poll lib topics (Some content) (poll lib topics (Some content) st)
  = poll lib topics (Some content) st.
Proof.
  intros Hread. apply poll_nothing_new.
  unfold read_from in Hread.
  destruct (String.length content <? last_position st)%nat eqn:Etrunc.
  - apply Nat.ltb_lt in Etrunc. rewrite poll_truncated by exact Etrunc.
    destruct (Nat.eq_dec (String.length content) O) as [Hz | Hnz].
    + rewrite poll_nothing_new; [|simpl; lia]. simpl. lia.
    + rewrite (poll_advance lib topics content (rewound st));
        [reflexivity|simpl; lia|apply Hread; lia].
  - apply Nat.ltb_ge in Etrunc.
    destruct (Nat.eq_dec (last_position st) (String.length content)) as [He|Hne].
    + rewrite poll_nothing_new by exact He. exact He.
    + rewrite (poll_advance lib topics content st);
        [reflexivity|lia|apply Hread; lia].
Qed.

Lemma poll_unchanged_file_witness :
  readable sample_lib sample_log 0 = true /\
  poll sample_lib ["smart_home/command"%string] (Some sample_log)
    (poll sample_lib ["smart_home/command"%string] (Some sample_log)
       (fresh_tailer (empty_queue 100)))
  = poll sample_lib ["smart_home/command"%string] (Some sample_log)
      (fresh_tailer (empty_queue 100)).
Proof.
  split; [reflexivity|].
  apply (poll_unchanged_file sample_lib ["smart_home/command"%string]
           sample_log (fresh_tailer (empty_queue 100))).
  intros _. reflexivity.
Defined.

Lemma deliver_within (q : queue) (m : json) :
  within_capacity q -> within_capacity (deliver q m).
Proof.
  intros Hq. destruct (full q) eqn:E.
  - rewrite (deliver_full q m E). apply full_spec in E.
    right. simpl. lia.
  - rewrite (deliver_room q m E). unfold within_capacity in *. simpl.
    destruct (Z_le_gt_dec (maxsize q) 0) as [Hle|Hgt]; [left; exact Hle|right].
    rewrite length_app. simpl.
    destruct (Z_le_gt_dec (maxsize q) (Z.of_nat (length (items q)))) as [Hfull|?];
      [|lia].
    assert (full q = true) by (apply full_spec; lia). congruence.
Qed.

Lemma process_lines_within (lib : pylib) (topics : list string)
    (lines : list string) (q : queue) (log : list json) :
  within_capacity q ->
  within_capacity (fst (fst (process_lines lib topics lines q log)))
  /\ maxsize (fst (fst (process_lines lib topics lines q log))) = maxsize q.
Proof.
  revert q log. induction lines as [|line lines IH]; intros q log Hq;
    cbn [process_lines]; [auto|].
  destruct (json_loads lib line) as [[| | | | |fields]|]; auto.
  destruct (topic_in topics (dict_get "topic" fields)); auto.
  destruct (IH (deliver q (JObject fields)) (log ++ [JObject fields])
              (deliver_within q _ Hq)) as [Hw Hm].
  split; [exact Hw|]. rewrite Hm. apply deliver_maxsize.
Qed.

(** X18. The tailer keeps a bounded queue within its bound: after a cycle,
    whatever the file holds, the queue has the same [maxsize] and, if it
    held at most [maxsize] messages before, holds at most [maxsize]. *)
Theorem poll_within_capacity (lib : pylib) (topics : list string)
    (file : option string) (st : tailer) :
  within_capacity (callback_queue st) ->
  within_capacity (callback_queue (poll lib topics file st))
  /\ maxsize (callback_queue (poll lib topics file st))
     = maxsize (callback_queue st).
Proof.
  intros Hq. unfold poll. destruct file as [content|]; [|auto].
  cbv zeta. destruct (_ <? String.length content)%nat; [|auto].
  destruct (utf8_valid lib _); [|auto].
  pose proof (process_lines_within lib topics
                (stripped_lines lib
                   (seek (if (String.length content <? last_position st)%nat
                          then O else last_position st) content))
                (callback_queue st) (delivered st) Hq) as H.
  destruct (process_lines _ _ _ _ _) as [[q log] [|]]; exact H.
Qed.

Lemma poll_within_capacity_witness :
  within_capacity full_queue /\
  within_capacity
    (callback_queue (poll sample_lib ["smart_home/command"%string]
                       (Some sample_log) (fresh_tailer full_queue))).
Proof.
  assert (H : within_capacity full_queue) by (right; vm_compute; discriminate).
  split; [exact H|].
  apply (poll_within_capacity sample_lib ["smart_home/command"%string]
           (Some sample_log) (fresh_tailer full_queue) H).
Defined.

End Reading.

Section ClientMore.
Import LocalMQTTBroker MQTTClient ClientStartup Samples.

(** X19. With the two constants as the module computes them, the local
    broker is available only when it is also the one to use, so the
    fall-back in the exception handler of [connect] is never taken:
    [connect] returns [True] exactly when the local broker is in use or the
    wait for the network connection ended connected. *)
Theorem connect_without_fallback (use import_ok : bool) (net : network)
    (c : client) :
  fst (connect (module_flags use import_ok) net c)
  = (use && import_ok)
    || match on_connect net with
       | Waited now_connected => now_connected
       | _ => false
       end.
Proof.
  unfold connect, module_flags.
  destruct use, import_ok; cbn; destruct (on_connect net); reflexivity.
Qed.

Lemma connect_true_connected (fl : flags) (net : network) (c c' : client) :
  connect fl net c = (true, c') -> connected c' = true.
Proof.
  unfold connect.
  destruct (LOCAL_BROKER_AVAILABLE fl && USE_LOCAL_BROKER fl).
  - intros H. inversion H. reflexivity.
  - destruct (on_connect net) as [| |b];
      try destruct (negb (USE_LOCAL_BROKER fl) && LOCAL_BROKER_AVAILABLE fl);
      intros H; inversion H; subst; reflexivity.
Qed.

Lemma hand_over_success (lib : pylib) (fl : flags) (net : network)
    (c : client) (p : process) (cmd : DeviceState.command) (t1 t2 : string) :
  fst (fst (fst (hand_over lib fl net c p cmd t1 t2))) = true ->
  snd (fst (fst (hand_over lib fl net c p cmd t1 t2))) = c /\
  ((snd (hand_over lib fl net c p cmd t1 t2)
    = [ViaLocalBroker (payload_of lib cmd t1)]
    /\ is_Some (_global_broker (snd (fst (hand_over lib fl net c p cmd t1 t2)))))
   \/ (snd (hand_over lib fl net c p cmd t1 t2)
       = [ViaNetwork (payload_of lib cmd t1)]
       /\ snd (fst (hand_over lib fl net c p cmd t1 t2)) = p)).
Proof.
  unfold hand_over, payload_of.
  destruct (LOCAL_BROKER_AVAILABLE fl && _).
  - destruct (get_broker p) as [[b p1]|]; [|discriminate].
    destruct (publish _ _ _ _ _ _) as [[ok b'] d']. cbn.
    intros _. split; [reflexivity|]. left. split; [reflexivity|eauto].
  - destruct (has_client c); [|discriminate].
    destruct (on_publish net); [discriminate|]. cbn.
    intros _. split; [reflexivity|]. right. split; reflexivity.
Qed.

(** X20. A call of [send_command] that returns [True] has handed the
    serialised message to exactly one transport, the local broker or the
    network client, and leaves the client connected; through the network
    client the process state is untouched, through the local broker the
    process has a broker instance afterwards. *)
Theorem send_command_success (lib : pylib) (fl : flags) (net : network)
    (c : client) (p : process) (cmd : DeviceState.command) (t1 t2 : string) :
  fst (fst (fst (send_command lib fl net c p cmd t1 t2))) = true ->
  connected (snd (fst (fst (send_command lib fl net c p cmd t1 t2)))) = true /\
  ((snd (send_command lib fl net c p cmd t1 t2)
    = [ViaLocalBroker (payload_of lib cmd t1)]
    /\ is_Some (_global_broker
                  (snd (fst (send_command lib fl net c p cmd t1 t2)))))
   \/ (snd (send_command lib fl net c p cmd t1 t2)
       = [ViaNetwork (payload_of lib cmd t1)]
       /\ snd (fst (send_command lib fl net c p cmd t1 t2)) = p)).
Proof.
  unfold send_command. destruct (connected c) eqn:Hc.
  - intros H. destruct (hand_over_success lib fl net c p cmd t1 t2 H) as [Hcl Hatt].
    rewrite Hcl. split; [exact Hc|exact Hatt].
  - destruct (connect fl net c) as [[|] c'] eqn:Hconn; [|discriminate].
    intros H.
    destruct (hand_over_success lib fl net c' p cmd t1 t2 H) as [Hcl Hatt].
    rewrite Hcl. split; [|exact Hatt].
    exact (connect_true_connected fl net c c' Hconn).
Qed.

Lemma send_command_success_witness :
  fst (fst (fst (send_command sample_lib remote_flags sample_net
                   {| topic := "smart_home/command"; has_client := false;
                      connected := false |}
                   broken_process light_on "s1" "s2"))) = true /\
  snd (send_command sample_lib remote_flags sample_net
         {| topic := "smart_home/command"; has_client := false;
            connected := false |}
         broken_process light_on "s1" "s2")
  = [ViaNetwork (payload_of sample_lib light_on "s1")].
Proof.
  split; [reflexivity|].
  destruct (send_command_success sample_lib remote_flags sample_net
              {| topic := "smart_home/command"; has_client := false;
                 connected := false |}
              broken_process light_on "s1" "s2" eq_refl)
    as [_ [[Hlocal _]|[Hnet _]]].
  - vm_compute in Hlocal. discriminate.
  - exact Hnet.
Defined.

End ClientMore.

Section Simulator.
Import LocalMQTTBroker TailerSpec Transport MQTTClient ClientStartup.
Import PyValues MQTTSimulator Samples.

(** A cycle of a tailer that had read the whole file, after one line has
    been appended. *)
Lemma poll_appended (lib : pylib) (topics : list string) (content : string)
    (m : json) (st : tailer) :
  encodes lib m -> is_object m = true ->
  utf8_valid lib (json_dumps lib m ++ newline) = true ->
  last_position st = String.length content ->
  callback_queue
    (poll lib topics (Some (content ++ (json_dumps lib m ++ newline))%string) st)
  = fold_left deliver (List.filter (subscribed topics) [m]) (callback_queue st).
Proof.
  intros Henc Hobj Hutf Hpos.
  assert (Hline : (json_dumps lib m ++ newline)%string = log_text lib [m]).
  { cbn [log_text]. rewrite str_app_nil_r. reflexivity. }
  destruct (wanted_log_text lib topics [m]) as [Hwanted Hlines];
    [constructor; [exact Henc|constructor]
    |constructor; [exact Hobj|constructor]|].
  assert (Hseek : seek (last_position st)
                    (content ++ (json_dumps lib m ++ newline))
                  = log_text lib [m]).
  { rewrite Hpos, seek_app. exact Hline. }
  rewrite poll_advance.
  - cbn [callback_queue]. rewrite Hseek, Hwanted. reflexivity.
  - rewrite Hpos, str_length_app, str_length_app. unfold newline. simpl. lia.
  - unfold readable. rewrite Hseek, <- Hline, Hutf, Hline, Hlines. reflexivity.
Qed.

Lemma empty_not_full (q : queue) : items q = [] -> full q = false.
Proof.
  intros H. unfold full. rewrite H. cbn [length].
  destruct (0 <? maxsize q) eqn:E; [|reflexivity].
  apply Z.ltb_lt in E. cbn [andb]. apply Z.leb_gt. lia.
Qed.

Lemma process_command_message (lib : pylib) (bi : builtins)
    (topic payload t2 : string) (cmd : DeviceState.command) (t1 : string) :
  json_loads lib payload = Some (command_message cmd t1) ->
  let ty := match DeviceState.cmd_type cmd with
            | Some t => JString t
            | None => JNull
            end in
  let device := default EmptyString (DeviceState.cmd_device cmd) in
  let action := default EmptyString (DeviceState.cmd_action cmd) in
  _process_message lib bi
    [("topic"%string, JString topic); ("payload"%string, JString payload);
     ("timestamp"%string, JString t2)]
  = match type_name ty with
    | Some name =>
        Feedback
          (_generate_feedback bi ty (JString action)
             (JString (if String.eqb device EmptyString then name else device)))
    | None => OtherError
    end.
Proof.
  intros Hinner. cbv zeta. unfold _process_message.
  change (dict_get "payload" _) with (Some (JString payload)).
  cbv beta iota. rewrite Hinner. unfold command_message.
  change (get_or "type" _ _)
    with (match DeviceState.cmd_type cmd with
          | Some t => JString t
          | None => JNull
          end).
  change (get_or "device" _ _)
    with (JString (default EmptyString (DeviceState.cmd_device cmd))).
  change (get_or "action" _ _)
    with (JString (default EmptyString (DeviceState.cmd_action cmd))).
  destruct (type_name _); [|reflexivity].
  cbn [truth].
  destruct (String.eqb (default EmptyString (DeviceState.cmd_device cmd))
              EmptyString); reflexivity.
Qed.

Lemma type_name_of_command (ty : option string) :
  exists name,
    type_name (match ty with Some t => JString t | None => JNull end) = Some name.
Proof. destruct ty; cbn; eauto. Qed.

(** X21. From [send_command] to the simulator's feedback. With the local
    broker in use, a writable message file, and a JSON library that reads
    back what it prints for the two messages involved: the call returns
    [True]; the next cycle of a tailer that had read the whole file and
    whose queue was empty queues one message; and [_process_message] on it
    reports the feedback of [_generate_feedback] for the command's type and
    action, with the command's device name, or the name of its type when
    the device name is empty. *)
Theorem command_reaches_simulator (lib : pylib) (bi : builtins) (fl : flags)
    (net : network) (c : client) (b : broker) (content : string)
    (cmd : DeviceState.command) (t1 t2 : string) (st : tailer) :
  LOCAL_BROKER_AVAILABLE fl = true -> USE_LOCAL_BROKER fl = true ->
  json_loads lib (payload_of lib cmd t1) = Some (command_message cmd t1) ->
  encodes lib (broker_message (topic c) (payload_of lib cmd t1) t2) ->
  utf8_valid lib
    (json_dumps lib (broker_message (topic c) (payload_of lib cmd t1) t2)
     ++ newline) = true ->
  last_position st = String.length content ->
  items (callback_queue st) = [] ->
  let sent :=
    send_command lib fl net c
      {| _global_broker := Some b;
         disk := {| file := Some content; writable := true |} |}
      cmd t1 t2 in
  let ty := match DeviceState.cmd_type cmd with
            | Some t => JString t
            | None => JNull
            end in
  let device := default EmptyString (DeviceState.cmd_device cmd) in
  let action := default EmptyString (DeviceState.cmd_action cmd) in
  fst (fst (fst sent)) = true /\
  exists name,
    type_name ty = Some name /\
    reports lib bi
      (callback_queue
         (poll lib [topic c] (file (disk (snd (fst sent)))) st))
    = [Feedback
         (_generate_feedback bi ty (JString action)
            (JString (if String.eqb device EmptyString then name else device)))].
Proof.
  intros Hav Huse Hinner Henc Hutf Hpos Hempty. cbv zeta.
  destruct (type_name_of_command (DeviceState.cmd_type cmd)) as [name Hname].
  assert (Hsent :
    send_command lib fl net c
      {| _global_broker := Some b;
         disk := {| file := Some content; writable := true |} |} cmd t1 t2
    = (true,
       (if connected c then c
        else {| topic := topic c; has_client := has_client c;
                connected := true |}),
       {| _global_broker :=
            Some (snd (fst (publish lib b
                              {| file := Some content; writable := true |}
                              (topic c) (payload_of lib cmd t1) t2)));
          disk :=
            {| file :=
                 Some (content ++
                       (json_dumps lib
                          (broker_message (topic c) (payload_of lib cmd t1) t2)
                        ++ newline))%string;
               writable := true |} |},
       [ViaLocalBroker (payload_of lib cmd t1)])).
  { unfold send_command, connect, hand_over, get_broker, payload_of.
    rewrite Hav, Huse.
    destruct (connected c); cbn [andb orb _global_broker disk topic];
      unfold publish; cbn [writable file];
      change (default EmptyString (Some content)) with content;
      reflexivity. }
  rewrite Hsent. cbn [fst snd disk file].
  split; [reflexivity|].
  exists name. split; [exact Hname|].
  rewrite (poll_appended lib [topic c] content _ st Henc eq_refl Hutf Hpos).
  cbn [List.filter subscribed broker_message dict_get].
  unfold topic_in. cbn [existsb].
  rewrite !String.eqb_refl. cbn [orb fold_left].
  rewrite deliver_room by (apply empty_not_full; exact Hempty).
  unfold reports. cbn [items]. rewrite Hempty. cbn [app map].
  unfold broker_message. cbv beta iota.
  rewrite (process_command_message lib bi (topic c) (payload_of lib cmd t1)
             t2 cmd t1 Hinner), Hname.
  reflexivity.
Qed.

End Simulator.

Section SimulatorWitness.
Import LocalMQTTBroker TailerSpec Transport MQTTClient ClientStartup.
Import PyValues MQTTSimulator Samples.

Lemma command_reaches_simulator_witness :
  encodes sample_lib
    (broker_message "smart_home/command" (payload_of sample_lib light_on "s1")
       "s2") /\
  reports sample_lib sample_builtins
    (callback_queue
       (poll sample_lib ["smart_home/command"%string]
          (file (disk (snd (fst
             (send_command sample_lib local_flags sample_net sample_client
                {| _global_broker := Some sample_broker;
                   disk := {| file := Some EmptyString; writable := true |} |}
                light_on "s1" "s2")))))
          (fresh_tailer (empty_queue 100))))
  = [Feedback "✅ 已经打开了灯"].
Proof.
  assert (Henc : encodes sample_lib
            (broker_message "smart_home/command"
               (payload_of sample_lib light_on "s1") "s2")).
  { split; [vm_compute; reflexivity|].
    split; [intros H; vm_compute in H; discriminate|vm_compute; reflexivity]. }
  assert (Hinner : json_loads sample_lib (payload_of sample_lib light_on "s1")
                   = Some (command_message light_on "s1"))
    by (vm_compute; reflexivity).
  split; [exact Henc|].
  destruct (command_reaches_simulator sample_lib sample_builtins local_flags
              sample_net sample_client sample_broker EmptyString light_on
              "s1" "s2" (fresh_tailer (empty_queue 100))
              eq_refl eq_refl Hinner Henc eq_refl eq_refl eq_refl)
    as [_ (name & Hname & Hreports)].
  vm_compute in Hname. inversion Hname; subst name. exact Hreports.
Defined.

End SimulatorWitness.

Section Calibration.
Import AudioInterface CalibrateAudio Samples.

Lemma measure_range (data : list byte) (e : Z) :
  measure data = Energy e -> 0 <= e <= 181.
Proof.
  unfold measure.
  destruct (frombuffer data) as [samples|]; [|discriminate].
  destruct (length samples =? 0)%nat eqn:Elen; [discriminate|].
  destruct (Qltb (mean (square_int16 samples)) 0) eqn:Eneg;
    intros H; inversion H; subst; clear H; [lia|].
  unfold int_sqrt, mean. cbn [Qnum Qden].
  assert (Hsum : sumZ (square_int16 samples)
                 <= 32767 * Z.of_nat (length (square_int16 samples))).
  { apply sumZ_upper. unfold square_int16. apply Forall_map.
    apply Forall_forall. intros x _. apply wrap16_range. }
  apply Nat.eqb_neq in Elen.
  assert (Hlen : length (square_int16 samples) = length samples)
    by (unfold square_int16; apply length_map).
  rewrite Hlen in *.
  assert (Hpos : Z.pos (Pos.of_nat (length samples)) = Z.of_nat (length samples)).
  { destruct (length samples) as [|n]; [congruence|].
    rewrite <- Pos.of_nat_succ. lia. }
  rewrite Hpos.
  split; [apply Z.sqrt_nonneg|].
  change 181 with (Z.sqrt 32767). apply Z.sqrt_le_mono.
  apply Z.div_le_upper_bound; lia.
Qed.

Lemma recommend_range (l : levels) :
  0 <= max_energy l <= 181 -> 0 <= min_energy l ->
  recommend l = max_energy l / 2 /\ 0 <= recommend l <= 90.
Proof.
  intros Hmax Hmin. unfold recommend.
  assert (Hlt : Qltb (inject_Z (max_energy l) * (4 # 5))
                  (inject_Z (Z.max (min_energy l * 2) 500)) = true).
  { unfold Qltb. apply negb_true_iff.
    destruct (Qle_bool _ _) eqn:E; [|reflexivity].
    apply Qle_bool_iff in E. unfold Qle, Qmult, inject_Z in E.
    cbn [Qnum Qden] in E. lia. }
  rewrite Hlt, Z.quot_div_nonneg by lia.
  split; [reflexivity|].
  split; [apply Z.div_pos; lia|].
  change 90 with (181 / 2). apply Z.div_le_mono; lia.
Qed.

Lemma fold_max_range (energies : list Z) (start : Z) :
  0 <= start <= 181 ->
  Forall (fun energy => 0 <= energy <= 181) energies ->
  0 <= fold_left Z.max energies start <= 181.
Proof.
  intros Hstart Hall. revert start Hstart.
  induction Hall as [|e energies He _ IH]; intros start Hstart;
    cbn [fold_left]; [exact Hstart|].
  apply IH. lia.
Qed.

Lemma measured_energies_range (reads : list read_result) :
  Forall (fun energy => 0 <= energy <= 181) (measured_energies reads).
Proof.
  induction reads as [|[data| |] reads IH]; cbn [measured_energies];
    try constructor.
  destruct (measure data) as [|e|] eqn:Em; [exact IH| |constructor].
  constructor; [exact (measure_range data e Em)|exact IH].
Qed.

Lemma calibrate_from_peak (reads : list read_result) (l : levels) (r : Z) :
  0 <= max_energy l <= 181 -> 0 <= min_energy l ->
  calibrate_from l reads = Recommends r ->
  r = fold_left Z.max (measured_energies reads) (max_energy l) / 2.
Proof.
  revert l. induction reads as [|[data| |] reads IH]; intros l Hmax Hmin;
    cbn [calibrate_from measured_energies]; try discriminate.
  - destruct (measure data) as [|e|] eqn:Em; [apply IH; assumption| |discriminate].
    apply measure_range in Em. cbn [fold_left]. intros H.
    apply (IH {| max_energy := Z.max (max_energy l) e;
                 min_energy := Z.min (min_energy l) e |});
      cbn [max_energy min_energy]; [lia|lia|exact H].
  - intros H. inversion H; subst. cbn [fold_left].
    apply recommend_range; assumption.
Qed.

(** X22. Whatever the microphone delivers, the threshold [calibrate]
    recommends is half the peak, the largest energy measured before the
    interrupt (rounded down, 0 when nothing was measured): no measured
    energy exceeds 181, so the floor of 500 always exceeds 0.8 times the
    peak and is never recommended; the recommendation lies between 0 and
    90. *)
Theorem calibrate_recommends_half_peak (reads : list read_result) (r : Z) :
  calibrate reads = Recommends r ->
  r = peak reads / 2
  /\ Forall (fun energy => 0 <= energy <= 181) (measured_energies reads)
  /\ 0 <= peak reads <= 181
  /\ 0 <= r <= 90.
Proof.
  intros H.
  assert (Hr : r = peak reads / 2).
  { apply (calibrate_from_peak reads initial r); cbn; try lia. exact H. }
  assert (Hpeak : 0 <= peak reads <= 181).
  { apply fold_max_range; [lia|apply measured_energies_range]. }
  split; [exact Hr|]. split; [apply measured_energies_range|].
  split; [exact Hpeak|]. subst r.
  split; [apply Z.div_pos; lia|].
  change 90 with (181 / 2). apply Z.div_le_mono; lia.
Qed.

Lemma calibrate_recommends_half_peak_witness :
  calibrate [Data loud_frame; Data quiet_frame; KeyboardInterrupt]
  = Recommends 50 /\
  peak [Data loud_frame; Data quiet_frame; KeyboardInterrupt] = 100 /\
  50 = peak [Data loud_frame; Data quiet_frame; KeyboardInterrupt] / 2.
Proof.
  assert (H : calibrate [Data loud_frame; Data quiet_frame; KeyboardInterrupt]
              = Recommends 50) by (vm_compute; reflexivity).
  split; [exact H|]. split; [vm_compute; reflexivity|].
  exact (proj1 (calibrate_recommends_half_peak _ 50 H)).
Defined.

End Calibration.

Section Recognition.
Import LocalMQTTBroker PyValues ModelHandler Samples.

Lemma dict_get_set_same (key : string) (v : json) (d : list (string * json)) :
  dict_get key (dict_set key v d) = Some v.
Proof.
  induction d as [|[k x] d IH]; cbn [dict_set dict_get].
  - rewrite String.eqb_refl. reflexivity.
  - destruct (String.eqb k key) eqn:E; cbn [dict_get]; rewrite E; auto.
Qed.

Lemma dict_get_set_other (key other : string) (v : json)
    (d : list (string * json)) :
  other <> key ->
  dict_get other (dict_set key v d) = dict_get other d.
Proof.
  intros Hne. induction d as [|[k x] d IH]; cbn [dict_set dict_get].
  - destruct (String.eqb key other) eqn:E; [|reflexivity].
    apply String.eqb_eq in E. congruence.
  - destruct (String.eqb k key) eqn:E; cbn [dict_get].
    + apply String.eqb_eq in E. subst k.
      destruct (String.eqb key other) eqn:E'; [|reflexivity].
      apply String.eqb_eq in E'. congruence.
    + rewrite IH. reflexivity.
Qed.

Lemma keep_valid_types (cmds valid : list json) :
  keep_valid cmds = Some valid ->
  Forall (fun c => exists fields,
                     c = JObject fields /\ has_valid_type fields = true) valid
  /\ sublist valid cmds.
Proof.
  revert valid. induction cmds as [|c cmds IH]; intros valid; cbn [keep_valid].
  - intros H. inversion H. split; constructor.
  - destruct c as [| | | | |fields]; try discriminate.
    destruct (keep_valid cmds) as [rest|]; [|discriminate].
    destruct (IH rest eq_refl) as [Hall Hsub].
    destruct (has_valid_type fields) eqn:E; intros H; inversion H; subst.
    + split; [constructor; eauto|apply sublist_skip; exact Hsub].
    + split; [exact Hall|apply sublist_cons; exact Hsub].
Qed.

(** The two steps that make sure of the keys ['potential'] and
    ['commands']. *)
Lemma recognize_command_cases (bi : builtins) (reply : option json) :
  recognize_command bi reply = empty_result \/
  exists result prepared cmds valid,
    reply = Some (JObject result) /\
    (forall key, key <> "commands"%string -> key <> "potential"%string ->
                 dict_get key prepared = dict_get key result) /\
    is_Some (dict_get "potential" prepared) /\
    keep_valid cmds = Some valid /\
    recognize_command bi reply = dict_set "commands" (JArray valid) prepared.
Proof.
  destruct reply as [[| | | | |result]|]; try (left; reflexivity).
  unfold recognize_command.
  set (result1 := if has_key "potential" result then result
                  else dict_set "potential" (JArray []) result).
  set (result2 := if has_key "commands" result1 then _ else _).
  destruct (loop_over _) as [cmds|]; [|left; reflexivity].
  destruct (keep_valid cmds) as [valid|] eqn:Ekeep; [|left; reflexivity].
  right. exists result, result2, cmds, valid.
  assert (H1 : forall key, key <> "potential"%string ->
                           dict_get key result1 = dict_get key result).
  { intros key Hk. unfold result1.
    destruct (has_key "potential" result); [reflexivity|].
    apply dict_get_set_other. exact Hk. }
  assert (H2 : forall key, key <> "commands"%string ->
                           dict_get key result2 = dict_get key result1).
  { intros key Hk. unfold result2.
    destruct (has_key "commands" result1); [reflexivity|].
    destruct (truth bi _ && _);
      rewrite ?(dict_get_set_other "commands" key) by exact Hk; reflexivity. }
  repeat split; try assumption.
  - intros key Hc Hp. rewrite H2, H1 by assumption. reflexivity.
  - rewrite H2 by discriminate. unfold result1.
    destruct (has_key "potential" result) eqn:E.
    + unfold has_key in E. destruct (dict_get "potential" result); eauto.
      discriminate.
    + rewrite dict_get_set_same. eauto.
Qed.

(** X23. Whatever the model replies, the dict [recognize_command] returns
    has the keys ['commands'] and ['potential'], and ['commands'] holds a
    list of dicts, each with a [type] among light, ac, window and
    temperature. *)
Theorem recognize_command_valid (bi : builtins) (reply : option json) :
  exists cmds,
    dict_get "commands" (recognize_command bi reply) = Some (JArray cmds) /\
    Forall (fun c => exists fields,
                       c = JObject fields /\ has_valid_type fields = true) cmds /\
    is_Some (dict_get "potential" (recognize_command bi reply)).
Proof.
  destruct (recognize_command_cases bi reply)
    as [-> | (result & prepared & cmds & valid & _ & _ & Hpot & Hkeep & ->)].
  - exists []. repeat split; [constructor|cbn; eauto].
  - exists valid. split; [apply dict_get_set_same|].
    split; [apply (keep_valid_types cmds valid Hkeep)|].
    rewrite dict_get_set_other by discriminate. exact Hpot.
Qed.

(** X24. The post-processing of [recognize_command] touches the keys
    ['commands'] and ['potential'] only: under any other key the dict
    returned holds what the reply of the model held, unless it is the empty
    result of the error paths. In particular it has a [type] only if the
    reply had one at its top level. *)
Theorem recognize_command_keeps_keys (bi : builtins)
    (result : list (string * json)) (key : string) :
  key <> "commands"%string -> key <> "potential"%string ->
  recognize_command bi (Some (JObject result)) = empty_result \/
  dict_get key (recognize_command bi (Some (JObject result)))
  = dict_get key result.
Proof.
  intros Hc Hp.
  destruct (recognize_command_cases bi (Some (JObject result)))
    as [H | (result' & prepared & cmds & valid & Hr & Hkeys & _ & _ & ->)];
    [left; exact H|right].
  inversion Hr; subst result'.
  rewrite dict_get_set_other by exact Hc. apply Hkeys; assumption.
Qed.

End Recognition.

Section RecognitionWitness.
Import LocalMQTTBroker PyValues ModelHandler Samples.

Lemma recognize_command_keeps_keys_witness :
  "type"%string <> "commands"%string /\
  dict_get "type" (recognize_command sample_builtins (Some listed_reply)) = None.
Proof.
  split; [discriminate|].
  destruct (recognize_command_keeps_keys sample_builtins
              [("commands"%string,
                JArray [JObject [("type"%string, JString "light");
                                 ("device"%string, JString "灯");
                                 ("action"%string, JString "开")]]);
               ("potential"%string, JArray [])]
              "type"
              ltac:(discriminate) ltac:(discriminate)) as [H|H].
  - vm_compute in H. discriminate.
  - exact H.
Defined.

End RecognitionWitness.

Section UntypedCommand.
Import LocalMQTTBroker MQTTClient Collaborators VoiceAssistant PyValues Samples.

Lemma lacks_command_keys_untyped (bi : builtins) (parsed : option json) :
  ModelHandler.lacks_command_keys parsed = true ->
  ModelHandler.command_of (ModelHandler.recognize_command bi parsed)
  = {| DeviceState.cmd_type := None; DeviceState.cmd_device := None;
       DeviceState.cmd_action := None |}.
Proof.
  intros Hlacks.
  destruct (recognize_command_cases bi parsed)
    as [-> | (result & prepared & cmds & valid & -> & Hkeys & _ & _ & ->)];
    [reflexivity|].
  cbn [ModelHandler.lacks_command_keys] in Hlacks.
  apply andb_true_iff in Hlacks as [Hlacks Haction].
  apply andb_true_iff in Hlacks as [Htype Hdevice].
  unfold has_key in *.
  unfold ModelHandler.command_of, ModelHandler.text_field.
  rewrite !dict_get_set_other by discriminate.
  rewrite !Hkeys by discriminate.
  destruct (dict_get "type" result); [discriminate|].
  destruct (dict_get "device" result); [discriminate|].
  destruct (dict_get "action" result); [discriminate|].
  reflexivity.
Qed.

(** X25. [voice_assistant] reads the command to send from the top level of
    the dict [recognize_command] returns. When the reply of the model has no
    [type], [device] or [action] at its top level, as the replies listing
    their commands under ['commands'] and every failed request, the loop
    does not say that it did not understand: it dispatches a command with no
    fields, the reply names an unknown device, and the device store is left
    as it was. *)
Theorem untyped_result_dispatched (lib : pylib) (fl : flags)
    (mqtt_available : bool) (m : models) (obs : observations) (bi : builtins)
    (parsed : option json) (text : string)
    (context : list ConversationManager.message) (st : state) :
  ModelHandler.lacks_command_keys parsed = true ->
  recognize_command m text context (device_state st)
  = ModelHandler.command_of (ModelHandler.recognize_command bi parsed) ->
  let cmd := {| DeviceState.cmd_type := None; DeviceState.cmd_device := None;
                DeviceState.cmd_action := None |} in
  let success :=
    fst (fst (fst (send_command lib fl (net obs) (mqtt st) (proc st) cmd
                     (command_stamp obs) (publish_stamp obs)))) in
  reply (handle lib fl mqtt_available m obs "command" text context st)
  = Some (if mqtt_available
          then if success then "好的，未知设备"
               else "抱歉，未知设备失败了"
          else "我明白了，未知设备，但是MQTT未连接。")%string
  /\ device_state (after (handle lib fl mqtt_available m obs "command" text
                            context st))
     = device_state st.
Proof.
  intros Hlacks Hm. cbv zeta. unfold handle.
  rewrite String.eqb_refl, Hm, (lacks_command_keys_untyped bi parsed Hlacks).
  cbn [DeviceState.cmd_type negb].
  rewrite bool_decide_eq_false_2 by discriminate. cbn [negb].
  unfold dispatch.
  destruct mqtt_available.
  - destruct (send_command _ _ _ _ _ _ _ _) as [[[ok c] p] att].
    cbn [fst].
    match goal with
    | |- context [answer obs ?r ?s] =>
        destruct (answer_conversation obs r s) as (_ & Hdev & Hreply)
    end.
    rewrite Hreply, Hdev. split; [destruct ok; reflexivity|].
    destruct ok; reflexivity.
  - match goal with
    | |- context [answer obs ?r ?s] =>
        destruct (answer_conversation obs r s) as (_ & Hdev & Hreply)
    end.
    rewrite Hreply, Hdev. split; reflexivity.
Qed.

Lemma untyped_result_dispatched_witness :
  ModelHandler.lacks_command_keys (Some listed_reply) = true /\
  reply (handle sample_lib local_flags true listing_models
           (sample_observations Succeeds Succeeds) "command" "开灯" []
           (sample_state 0))
  = Some "好的，未知设备"%string.
Proof.
  split; [reflexivity|].
  destruct (untyped_result_dispatched sample_lib local_flags true
              listing_models (sample_observations Succeeds Succeeds)
              sample_builtins (Some listed_reply) "开灯" [] (sample_state 0)
              eq_refl eq_refl) as [H _].
  exact H.
Defined.

End UntypedCommand.

Section ServerFacts.
Import LocalMQTTBroker MQTTClient Server Samples.

Variable lib : pylib.
Variable fl : flags.

Lemma send_command_local_any (network : MQTTClient.network) (c : client)
    (p : process) (cmd : DeviceState.command) (t1 t2 : string) :
  LOCAL_BROKER_AVAILABLE fl = true -> USE_LOCAL_BROKER fl = true ->
  is_Some (_global_broker p) ->
  fst (fst (fst (send_command lib fl network c p cmd t1 t2))) = true /\
  is_Some (_global_broker (snd (fst (send_command lib fl network c p cmd t1 t2)))).
Proof.
  intros Hav Huse [b Hb].
  unfold send_command, connect, hand_over, get_broker.
  rewrite Hav, Huse, Hb.
  destruct (connected c); cbn [andb orb];
    destruct (publish _ _ _ _ _ _) as [[ok b'] d']; cbn; eauto.
Qed.

Lemma execute_loop_local
    (commands : list (DeviceState.command * observations)) (st : state)
    (texts : list string) :
  LOCAL_BROKER_AVAILABLE fl = true -> USE_LOCAL_BROKER fl = true ->
  is_Some (_global_broker (proc st)) ->
  fst (execute_loop lib fl commands st texts)
  = texts ++ map (fun c => Collaborators.format_command_message (fst c)) commands
  /\ device_state (snd (execute_loop lib fl commands st texts))
     = fold_left (fun d c => DeviceState.update_state d (fst c)
                               (update_stamp (snd c)))
         commands (device_state st).
Proof.
  intros Hav Huse. revert st texts.
  induction commands as [|[cmd obs] commands IH]; intros st texts Hb.
  - cbn. rewrite app_nil_r. auto.
  - cbn [execute_loop map fold_left fst snd].
    destruct (send_command_local_any (net obs) (mqtt_client st) (proc st) cmd
                (command_stamp obs) (publish_stamp obs) Hav Huse Hb)
      as [Hok Hb'].
    destruct (send_command _ _ _ _ _ _ _ _) as [[[ok c] p] att].
    cbn [fst snd] in Hok, Hb'. subst ok.
    destruct (IH {| mqtt_client := c; proc := p;
                    device_state :=
                      DeviceState.update_state (device_state st) cmd
                        (update_stamp obs) |}
                 (texts ++ [Collaborators.format_command_message cmd]) Hb')
      as [IHt IHd].
    rewrite IHt, IHd. cbn [device_state]. rewrite <- app_assoc. auto.
Qed.

(** X26. With the local broker in use and a broker instance at hand,
    [execute_commands] reports every command as executed and applies every
    one of them to the device store, in order, whatever happens to the
    message file. *)
Theorem execute_commands_local
    (commands : list (DeviceState.command * observations)) (st : state) :
  LOCAL_BROKER_AVAILABLE fl = true -> USE_LOCAL_BROKER fl = true ->
  is_Some (_global_broker (proc st)) ->
  fst (execute_commands lib fl true commands st)
  = map (fun c => Collaborators.format_command_message (fst c)) commands
  /\ device_state (snd (execute_commands lib fl true commands st))
     = fold_left (fun d c => DeviceState.update_state d (fst c)
                               (update_stamp (snd c)))
         commands (device_state st).
Proof.
  intros Hav Huse Hb. unfold execute_commands.
  apply (execute_loop_local commands st [] Hav Huse Hb).
Qed.

Lemma execute_loop_texts
    (commands : list (DeviceState.command * observations)) (st : state)
    (texts : list string) :
  exists added,
    fst (execute_loop lib fl commands st texts) = texts ++ added /\
    (length added <= length commands)%nat /\
    (added = [] ->
     device_state (snd (execute_loop lib fl commands st texts))
     = device_state st).
Proof.
  revert st texts.
  induction commands as [|[cmd obs] commands IH]; intros st texts.
  - exists []. cbn. rewrite app_nil_r. auto.
  - cbn [execute_loop].
    destruct (send_command _ _ _ _ _ _ _ _) as [[[[|] c] p] att].
    + destruct (IH {| mqtt_client := c; proc := p;
                      device_state :=
                        DeviceState.update_state (device_state st) cmd
                          (update_stamp obs) |}
                   (texts ++ [Collaborators.format_command_message cmd]))
        as (added & Ht & Hlen & _).
      exists (Collaborators.format_command_message cmd :: added).
      rewrite Ht, <- app_assoc. cbn [length app].
      split; [reflexivity|]. split; [lia|discriminate].
    + destruct (IH {| mqtt_client := c; proc := p;
                      device_state := device_state st |} texts)
        as (added & Ht & Hlen & Hdev).
      exists added. cbn [length]. split; [exact Ht|].
      split; [lia|]. intros Hnil. rewrite (Hdev Hnil). reflexivity.
Qed.

(** X27. [execute_commands] returns at most one text per command, and when
    it returns none, which the caller reports as a failure, the device store
    is as it was before the call. *)
Theorem execute_commands_nothing_sent
    (commands : list (DeviceState.command * observations)) (st : state) :
  (length (fst (execute_commands lib fl true commands st))
   <= length commands)%nat /\
  (fst (execute_commands lib fl true commands st) = [] ->
   device_state (snd (execute_commands lib fl true commands st))
   = device_state st).
Proof.
  unfold execute_commands.
  destruct (execute_loop_texts commands st []) as (added & Ht & Hlen & Hdev).
  rewrite Ht. cbn [app]. split; [exact Hlen|exact Hdev].
Qed.

End ServerFacts.

Section ServerWitness.
Import LocalMQTTBroker MQTTClient Server Samples.

Lemma execute_commands_local_witness :
  is_Some (_global_broker (proc server_state)) /\
  fst (execute_commands sample_lib local_flags true
         [(light_on, server_observations)] server_state)
  = ["开灯"%string].
Proof.
  assert (H : is_Some (_global_broker (proc server_state)))
    by (cbn; eauto).
  split; [exact H|].
  destruct (execute_commands_local sample_lib local_flags
              [(light_on, server_observations)] server_state
              eq_refl eq_refl H) as [Htexts _].
  exact Htexts.
Defined.

End ServerWitness.

Section ServerRefused.
Import LocalMQTTBroker MQTTClient Server Samples.

Lemma execute_commands_nothing_sent_witness :
  fst (execute_commands sample_lib remote_flags true
         [(light_on, refused_observations)] remote_state) = [] /\
  device_state (snd (execute_commands sample_lib remote_flags true
                       [(light_on, refused_observations)] remote_state))
  = DeviceState.init.
Proof.
  assert (H : fst (execute_commands sample_lib remote_flags true
                     [(light_on, refused_observations)] remote_state) = [])
    by (vm_compute; reflexivity).
  split; [exact H|].
  exact (proj2 (execute_commands_nothing_sent sample_lib remote_flags
                  [(light_on, refused_observations)] remote_state) H).
Defined.

End ServerRefused.

Section Pronouns.
Import ContextManager Samples.

Lemma replace_by_history_found (name text : string) (ps : list string) :
  existsb (fun pronoun => contains pronoun text) ps = true ->
  exists resolved, replace_by_history name text ps = Some resolved.
Proof.
  induction ps as [|p ps IH]; cbn [existsb replace_by_history]; [discriminate|].
  destruct (contains p text); [eauto|exact IH].
Qed.

Lemma replace_by_state_found (name text : string) (ps : list string) :
  existsb (fun pronoun => contains pronoun text) ps = true ->
  exists resolved, replace_by_state name text ps = Some resolved.
Proof.
  induction ps as [|p ps IH]; cbn [existsb replace_by_state]; [discriminate|].
  destruct (contains p text); [eauto|exact IH].
Qed.

(** X28. [resolve_pronoun] returns [None] in two cases only: the text holds
    none of the pronouns, or neither the conversation nor the device store
    names a device. *)
Theorem resolve_pronoun_none (text : string)
    (last_device recent_device : option string) :
  resolve_pronoun text last_device recent_device = None <->
  existsb (fun pronoun => contains pronoun text) pronouns = false
  \/ (named last_device = None /\ named recent_device = None).
Proof.
  unfold resolve_pronoun.
  destruct (existsb _ pronouns) eqn:Hany; cbn [negb]; [|tauto].
  split.
  - intros H. right.
    destruct (named last_device) as [d|].
    + destruct (replace_by_history_found (device_name d) text pronouns Hany)
        as [r Hr].
      rewrite Hr in H. discriminate.
    + split; [reflexivity|].
      destruct (named recent_device) as [d|]; [|reflexivity].
      destruct (replace_by_state_found (device_name d) text pronouns Hany)
        as [r Hr].
      rewrite Hr in H. discriminate.
  - intros [H|[-> ->]]; [discriminate|reflexivity].
Qed.

Lemma prefix_app (a post : string) : String.prefix a (a ++ post) = true.
Proof.
  induction a as [|c a IH]; [destruct post; reflexivity|].
  rewrite str_app_cons. cbn [String.prefix].
  destruct (ascii_dec c c); [exact IH|congruence].
Qed.

Lemma prefix_split (a text : string) :
  String.prefix a text = true -> exists post, text = (a ++ post)%string.
Proof.
  revert text. induction a as [|c a IH]; intros text H.
  - exists text. reflexivity.
  - destruct text as [|c' text]; cbn [String.prefix] in H; [discriminate|].
    destruct (ascii_dec c c') as [->|]; [|discriminate].
    destruct (IH text H) as [post ->]. exists post.
    rewrite str_app_cons. reflexivity.
Qed.

Lemma contains_app_r (needle a text : string) :
  contains needle text = true -> contains needle (a ++ text) = true.
Proof.
  intros H. induction a as [|c a IH]; [exact H|].
  rewrite str_app_cons. cbn [contains]. rewrite IH. apply orb_true_r.
Qed.

Lemma contains_prefix (needle post : string) :
  contains needle (needle ++ post) = true.
Proof.
  destruct (needle ++ post)%string eqn:E; cbn [contains];
    rewrite <- E, prefix_app; reflexivity.
Qed.

Lemma contains_split (needle text : string) :
  contains needle text = true ->
  exists pre post, text = (pre ++ (needle ++ post))%string.
Proof.
  induction text as [|c text IH]; cbn [contains]; intros H;
    apply orb_true_iff in H as [H|H]; try discriminate.
  - apply prefix_split in H as [post H]. exists EmptyString, post. exact H.
  - apply prefix_split in H as [post H]. exists EmptyString, post. exact H.
  - destruct (IH H) as (pre & post & ->). exists (String c pre), post.
    rewrite str_app_cons. reflexivity.
Qed.

(** A text that holds [a ++ b] holds [b]. *)
Lemma contains_tail (a b text : string) :
  contains (a ++ b) text = true -> contains b text = true.
Proof.
  intros H. apply contains_split in H as (pre & post & ->).
  rewrite (str_app_assoc a b post), <- (str_app_assoc pre a (b ++ post)).
  apply contains_app_r, contains_prefix.
Qed.

(** X29. The last pronoun of the list is never the one replaced: a text
    that holds it holds the shorter pronoun it ends with, which the loop
    meets first. With a device named by the conversation and no
    occurrence of the first pronoun, the shorter pronoun is replaced and
    the words before it stay in the text. *)
Theorem resolve_pronoun_shadowed (text d : string)
    (last_device recent_device : option string) :
  contains "刚才那个" text = true ->
  contains "它" text = false ->
  named last_device = Some d ->
  resolve_pronoun text last_device recent_device
  = Some (replace "那个" (device_name d) text).
Proof.
  intros Hlong Hit Hd.
  assert (Hshort : contains "那个" text = true)
    by (apply (contains_tail "刚才" "那个" text); exact Hlong).
  unfold resolve_pronoun, pronouns. cbn [existsb].
  rewrite Hit, Hshort, Hd. cbn [orb negb replace_by_history].
  rewrite Hit, Hshort. reflexivity.
Qed.

Lemma resolve_pronoun_shadowed_witness :
  contains "刚才那个" "把刚才那个关了" = true /\
  resolve_pronoun "把刚才那个关了" (Some "light"%string) None
  = Some "把刚才灯关了"%string.
Proof.
  split; [reflexivity|].
  rewrite (resolve_pronoun_shadowed "把刚才那个关了" "light"
             (Some "light"%string) None eq_refl eq_refl eq_refl).
  reflexivity.
Defined.

(** X30. [get_recent_devices] lists each device type once: the list it
    returns has no duplicates, holds no empty name, and holds exactly the
    types that are named by some command. *)
Theorem get_recent_devices_distinct (types : list (option string)) :
  NoDup (get_recent_devices types) /\
  forall t, t ∈ get_recent_devices types <->
            (t <> EmptyString /\ Some t ∈ types).
Proof.
  unfold get_recent_devices.
  assert (H : forall devices,
             NoDup devices ->
             NoDup (collect_devices types devices) /\
             forall t, t ∈ collect_devices types devices <->
                       (t ∈ devices \/ (t <> EmptyString /\ Some t ∈ types))).
  { induction types as [|ty types IH]; intros devices Hnd;
      cbn [collect_devices].
    - split; [exact Hnd|]. intros t. split; [auto|].
      intros [H|[_ H]]; [exact H|]. inversion H.
    - assert (Hskip : named ty = None ->
                      forall t, t <> EmptyString -> Some t ∈ ty :: types ->
                                Some t ∈ types).
      { intros Hn t Ht Hin. apply elem_of_cons in Hin as [<-|Hin]; [|exact Hin].
        cbn [named] in Hn. destruct (String.eqb t EmptyString) eqn:E;
          [apply String.eqb_eq in E; congruence|discriminate]. }
      destruct (named ty) as [n|] eqn:Hn.
      + assert (Hty : ty = Some n /\ n <> EmptyString).
        { destruct ty as [s|]; cbn [named] in Hn; [|discriminate].
          destruct (String.eqb s EmptyString) eqn:E; [discriminate|].
          inversion Hn; subst. apply String.eqb_neq in E. auto. }
        destruct Hty as [-> Hne].
        destruct (is_in n devices) eqn:Hin; cbn [negb].
        * assert (Hmem : n ∈ devices).
          { unfold is_in in Hin. apply existsb_exists in Hin as (x & Hx & E).
            apply String.eqb_eq in E. subst x.
            apply list_elem_of_In. exact Hx. }
          destruct (IH devices Hnd) as [IHn IHm]. split; [exact IHn|].
          intros t. rewrite IHm. split.
          -- intros [H|[Ht H]]; [auto|]. right. split; [exact Ht|].
             apply elem_of_cons. auto.
          -- intros [H|[Ht H]]; [auto|].
             apply elem_of_cons in H as [E|H]; [|auto].
             inversion E; subst. auto.
        * assert (Hmem : n ∉ devices).
          { intros Hmem. apply list_elem_of_In in Hmem.
            assert (is_in n devices = true); [|congruence].
            unfold is_in. apply existsb_exists. exists n.
            split; [exact Hmem|apply String.eqb_refl]. }
          destruct (IH (devices ++ [n])) as [IHn IHm].
          { apply NoDup_app. split; [exact Hnd|].
            split; [|apply NoDup_singleton].
            intros x Hx Hx'. apply list_elem_of_singleton in Hx'. subst x.
            exact (Hmem Hx). }
          split; [exact IHn|]. intros t. rewrite IHm.
          rewrite elem_of_app, list_elem_of_singleton, elem_of_cons. split.
          -- intros [[H|E]|[Ht H]]; subst; auto.
          -- intros [H|[Ht [E|H]]]; auto. inversion E; subst. auto.
      + destruct (IH devices Hnd) as [IHn IHm]. split; [exact IHn|].
        intros t. rewrite IHm. split.
        * intros [H|[Ht H]]; [auto|]. right. split; [exact Ht|].
          apply elem_of_cons. auto.
        * intros [H|[Ht H]]; [auto|]. right. split; [exact Ht|].
          exact (Hskip eq_refl t Ht H). }
  destruct (H [] (NoDup_nil_2 (A := string))) as [Hn Hm]. split; [exact Hn|].
  intros t. rewrite Hm. split; [|auto].
  intros [Hin|Hin]; [inversion Hin|exact Hin].
Qed.

End Pronouns.
